(** * Laboratory result generator: a shallow embedding of [lab_generator.py]

    The development follows [DataGenerators/Laboratory/lab_generator.py]:
    the distribution sampler ([sample_value]), the adjustment engine
    ([apply_sex_age_lifestyle]) and the row generator
    ([generate_lab_results]) with its differential reconciliation.

    Modelling conventions.
    - Python floats are exact rationals ([Q]); [round(x, 2)] and
      [np.round(x, 2)] are rounding to the nearest multiple of 1/100, ties
      to even.  Equality of numbers is [==] ([Qeq]).
    - The two random sources ([random] and [np.random]) are one abstract
      generator: every sampler takes the distribution arguments and the
      generator state and returns a value together with the next state.
      Seeding fixes the initial state, so [rng_seed] is the choice of the
      state a run starts from.
    - Exceptions are the [Raise] results of an error monad; the exception
      class and message are kept.
    - A JSON object is an association list in document order; a member that
      may be missing is an [option]; members the code tests with
      [isinstance] or converts with [float] are tagged variants.  A test
      specification is read through its recognised members.
    - [generate_lab_results] takes the loaded profile dictionary and returns
      the row dictionary (the one-row data frame has the row's keys as its
      columns); [lifestyle=None] is the empty list. *)

From Stdlib Require Import QArith Qround Qabs Qminmax ZArith.
From Stdlib Require Import String Ascii List Bool Lia Lqa Permutation.
Import ListNotations.

Local Open Scope string_scope.
Local Open Scope Q_scope.

(** ** Exceptions and the error monad *)

Inductive exn : Type :=
| ValueError (msg : string)
| TypeError (msg : string)
| KeyError (key : string)
| AttributeError (msg : string).

Inductive result (A : Type) : Type :=
| Ok (a : A)
| Raise (e : exn).

Arguments Ok {A} a.
Arguments Raise {A} e.

Definition bind {A B : Type} (c : result A) (k : A -> result B) : result B :=
  match c with
  | Ok a => k a
  | Raise e => Raise e
  end.

Notation "x <- c ;; k" := (bind c (fun x => k))
  (at level 61, c at next level, right associativity).
Notation "' pat <- c ;; k" := (bind c (fun x => match x with pat => k end))
  (at level 61, pat pattern, c at next level, right associativity).

(** ** Python dictionaries

    Insertion-ordered; assignment to an existing key keeps its position,
    assignment to a new key appends. *)

Definition dict (V : Type) : Type := list (string * V).

Fixpoint dict_get {V : Type} (d : dict V) (k : string) : option V :=
  match d with
  | [] => None
  | (k', v) :: rest => if String.eqb k' k then Some v else dict_get rest k
  end.

Definition dict_mem {V : Type} (d : dict V) (k : string) : bool :=
  match dict_get d k with Some _ => true | None => false end.

Fixpoint dict_set {V : Type} (d : dict V) (k : string) (v : V) : dict V :=
  match d with
  | [] => [(k, v)]
  | (k', v') :: rest =>
      if String.eqb k' k then (k', v) :: rest else (k', v') :: dict_set rest k v
  end.

Fixpoint dict_del {V : Type} (d : dict V) (k : string) : dict V :=
  match d with
  | [] => []
  | (k', v') :: rest =>
      if String.eqb k' k then rest else (k', v') :: dict_del rest k
  end.

Definition keys {V : Type} (d : dict V) : list string := map fst d.

(** [d.get(k, default)] on a member modelled as an [option]. *)
Definition get {A : Type} (member : option A) (default : A) : A :=
  match member with
  | Some a => a
  | None => default
  end.

(** ** Strings: [str.lower] and the [in] substring test

    [lower] maps the ASCII capitals; the other bytes (digits, punctuation,
    the UTF-8 bytes of the multiplication sign) are unchanged. *)

Definition lower_ascii (c : ascii) : ascii :=
  let n := nat_of_ascii c in
  if ((65 <=? n) && (n <=? 90))%nat then ascii_of_nat (n + 32) else c.

Fixpoint lower (s : string) : string :=
  match s with
  | EmptyString => EmptyString
  | String c rest => String (lower_ascii c) (lower rest)
  end.

Fixpoint substring_in (needle hay : string) : bool :=
  String.prefix needle hay ||
  match hay with
  | EmptyString => false
  | String _ rest => substring_in needle rest
  end.

(** ** Numbers: rounding and clipping *)

(** Nearest integer, ties to even ([np.rint], and the rule of [round]). *)
Definition rint (x : Q) : Z :=
  let f := Qfloor x in
  match Qcompare (x - inject_Z f) (1 # 2) with
  | Lt => f
  | Gt => (f + 1)%Z
  | Eq => if Z.even f then f else (f + 1)%Z
  end.

(** [round(x, 2)]. *)
Definition round2 (x : Q) : Q := inject_Z (rint (x * 100)) / 100.

(** [np.clip(val, lo, hi)], that is [minimum(maximum(val, lo), hi)]. *)
Definition clip (val lo hi : Q) : Q := Qmin (Qmax val lo) hi.

(** A number with at most two decimals: a fixed point of [round2]. *)
Definition two_decimals (x : Q) : Prop := round2 x == x.

(** ** The random generator

    [St] is the state of the interpreter's generators.  The samplers of
    [np.random] receive the parameters the code passes them; [py_random] is
    [random.random()] and [py_randbelow n] the index draw below [n] on which
    [random.choice] and [random.sample] are built. *)

Record Generator (St : Type) : Type := {
  np_normal : Q -> Q -> St -> Q * St;
  (* the log-space pair (mu, sigma) is a function of the guarded linear
     pair (m, s); the sampler is indexed by the latter *)
  np_lognormal_matching : Q -> Q -> St -> Q * St;
  np_uniform : Q -> Q -> St -> Q * St;
  np_gamma : Q -> Q -> St -> Q * St;
  np_dirichlet5 : list Q -> St -> (Q * Q * Q * Q * Q) * St;
  py_random : St -> Q * St;
  py_randbelow : nat -> St -> nat * St
}.

Arguments np_normal {St} _ _ _ _.
Arguments np_lognormal_matching {St} _ _ _ _.
Arguments np_uniform {St} _ _ _ _.
Arguments np_gamma {St} _ _ _ _.
Arguments np_dirichlet5 {St} _ _ _.
Arguments py_random {St} _ _.
Arguments py_randbelow {St} _ _ _.

(** ** The parameter dictionary of [sample_value]

    [p_min] is [Some None] when the key is present with value [None]. *)

Record Params : Type := {
  p_distribution : option string;
  p_mean : Q;
  p_sd : Q;
  p_min : option (option Q);
  p_min_val : option (option Q);
  p_max : option (option Q);
  p_max_val : option (option Q)
}.

Definition min_bound (params : Params) : option Q :=
  get (p_min params) (get (p_min_val params) None).

Definition max_bound (params : Params) : option Q :=
  get (p_max params) (get (p_max_val params) None).

Section Sampler.

Context {St : Type} (g : Generator St).

(** [np.random.normal] rejects a negative scale. *)
Definition _sample_normal (mean sd : Q) (s : St) : result (Q * St) :=
  if Qle_bool 0 sd then Ok (np_normal g mean sd s)
  else Raise (ValueError "scale < 0").

(** The squares [m**2] and [s**2] are taken exactly: the model is the
    code on operands whose squares are finite floats (see [moderate]); the
    [OverflowError] of [**] beyond that range is not represented. *)
Definition _sample_lognormal (mean sd : Q) (s : St) : result (Q * St) :=
  let m := Qmax mean 1e-9 in
  let s0 := Qmax sd 1e-9 in
  Ok (np_lognormal_matching g m s0 s).

Definition _sample_uniform (min_v max_v : Q) (s : St) : result (Q * St) :=
  Ok (np_uniform g min_v max_v s).

(** As for [_sample_lognormal], the squares are taken exactly. *)
Definition _sample_gamma (mean sd : Q) (s : St) : result (Q * St) :=
  let m := Qmax mean 1e-9 in
  let s0 := Qmax sd 1e-9 in
  let k := (m * m) / (s0 * s0) in
  let theta := (s0 * s0) / m in
  Ok (np_gamma g k theta s).

Definition MissingBound : exn :=
  ValueError "uniform distribution requires min and max".

Definition UnsupportedDistribution (dist : string) : exn :=
  ValueError ("Unsupported distribution '" ++ dist ++ "'").

Definition sample_value (params : Params) (s : St) : result (Q * St) :=
  let dist := lower (get (p_distribution params) "normal") in
  let mean := p_mean params in
  let sd := p_sd params in
  let min_v := min_bound params in
  let max_v := max_bound params in
  '(val, s') <-
    (if dist =? "normal" then _sample_normal mean sd s
     else if dist =? "lognormal" then _sample_lognormal mean sd s
     else if dist =? "uniform" then
       match min_v, max_v with
       | Some lo, Some hi => _sample_uniform lo hi s
       | _, _ => Raise MissingBound
       end
     else if dist =? "gamma" then _sample_gamma mean sd s
     else Raise (UnsupportedDistribution dist)) ;;
  let val :=
    match min_v, max_v with
    | Some lo, Some hi => clip val lo hi
    | _, _ => val
    end in
  Ok (round2 val, s').

End Sampler.

(** A generator that replays a tape: the state is the position. *)
Definition tape_generator (np : nat -> Q) (props : Q * Q * Q * Q * Q)
    (unit_draw : nat -> Q) (index_draw : nat -> nat) : Generator nat := {|
  np_normal := fun _ _ n => (np n, S n);
  np_lognormal_matching := fun _ _ n => (np n, S n);
  np_uniform := fun _ _ n => (np n, S n);
  np_gamma := fun _ _ n => (np n, S n);
  np_dirichlet5 := fun _ n => (props, S n);
  py_random := fun n => (unit_draw n, S n);
  py_randbelow := fun bound n => (index_draw n, S n)
|}.

(** ** Test specifications *)

(** An entry of a [sex_adjustment] mapping: a bare number or an object. *)
Inductive SexEntry : Type :=
| SexNumber (multiplier : Q)
| SexStructured (multiplier sd_multiplier : option Q).

(** A band of an age-band list; [min_age] and [max_age] are read with
    [band["min_age"]] and [band["max_age"]]. *)
Record Band : Type := {
  band_min_age : Q;
  band_max_age : Q;
  band_mean_multiplier : option Q;
  band_sd_multiplier : option Q
}.

(** [age_adjustment]: an object (with or without [slope]), a list of bands,
    or any other JSON value. *)
Inductive AgeAdjustment : Type :=
| AgeDict (slope ref_age : option Q)
| AgeList (bands : list Band)
| AgeOther.

(** The [exceptions] member of a lifestyle factor. *)
Inductive Exceptions : Type :=
| ExceptionsDict (overrides : dict Q)
| ExceptionsOther.

(** An entry of the [lifestyle] mapping of a test. *)
Record Factor : Type := {
  mean_multiplier : option Q;
  sd_multiplier : option Q;
  exceptions : option Exceptions
}.

(** The recognised members of a test specification.  [min_], [max_] and
    [lifestyle_factors] are the members "min", "max" and "lifestyle"; a
    bound is [Some None] when present with value [null]. *)
Record TestSpec : Type := {
  distribution : option string;
  mean : option Q;
  sd : option Q;
  min_ : option (option Q);
  min_val : option (option Q);
  max_ : option (option Q);
  max_val : option (option Q);
  sex_adjustment : option (dict SexEntry);
  age_adjustment : option AgeAdjustment;
  lifestyle_factors : option (dict Factor)
}.

(** ** Adjustment application *)

Definition float_TypeError (type_name : string) : exn :=
  TypeError ("float() argument must be a string or a real number, not '"
             ++ type_name ++ "'").

(** [float(entry)] on a sex-adjustment entry. *)
Definition float_of_sex_entry (entry : SexEntry) : result Q :=
  match entry with
  | SexNumber q => Ok q
  | SexStructured _ _ => Raise (float_TypeError "dict")
  end.

(** [(sex or "other").lower()]. *)
Definition sex_key_of (sex : string) : string :=
  lower (if sex =? "" then "other" else sex).

(** [float(mults.get(sex_key, mults.get("other", 1.0)))]. *)
Definition sex_multiplier (mults : dict SexEntry) (sex_key : string) : result Q :=
  match dict_get mults sex_key with
  | Some entry => float_of_sex_entry entry
  | None =>
      match dict_get mults "other" with
      | Some entry => float_of_sex_entry entry
      | None => Ok 1
      end
  end.

(** The sex step: the mean multiplier, then the optional sd multiplier. *)
Definition apply_sex (mults : dict SexEntry) (sex_key : string)
    (adjusted_mean adjusted_sd : Q) : result (Q * Q) :=
  m <- sex_multiplier mults sex_key ;;
  let adjusted_mean := adjusted_mean * m in
  (* optional sd multiplier *)
  match dict_get mults sex_key with
  | Some (SexStructured _ sdm) => Ok (adjusted_mean, adjusted_sd * get sdm 1)
  | _ => Ok (adjusted_mean, adjusted_sd)
  end.

(** [band["min_age"] <= age <= band["max_age"]]. *)
Definition band_contains (band : Band) (age : Z) : bool :=
  Qle_bool (band_min_age band) (inject_Z age)
  && Qle_bool (inject_Z age) (band_max_age band).

(** The loop over the bands, left at the first band that contains the age. *)
Fixpoint apply_age_bands (bands : list Band) (age : Z)
    (adjusted_mean adjusted_sd : Q) : Q * Q :=
  match bands with
  | [] => (adjusted_mean, adjusted_sd)
  | band :: rest =>
      if band_contains band age then
        (adjusted_mean * get (band_mean_multiplier band) 1,
         adjusted_sd * get (band_sd_multiplier band) 1)
      else apply_age_bands rest age adjusted_mean adjusted_sd
  end.

(** The age step: the slope form, else the band list. *)
Definition apply_age (age_adj : AgeAdjustment) (age : Z)
    (adjusted_mean adjusted_sd : Q) : Q * Q :=
  match age_adj with
  | AgeDict (Some slope) ref_age =>
      let ref := get ref_age 40 in
      let factor := 1 + slope * Qmax 0 (inject_Z age - ref) in
      (adjusted_mean * factor, adjusted_sd * factor)
  | AgeDict None _ => (adjusted_mean, adjusted_sd)
  | AgeList bands => apply_age_bands bands age adjusted_mean adjusted_sd
  | AgeOther => (adjusted_mean, adjusted_sd)
  end.

(** The loop over the patient's lifestyle factors. *)
Fixpoint apply_lifestyle (factors : dict Factor) (lifestyle : list string)
    (adjusted_mean adjusted_sd : Q) : Q * Q :=
  match lifestyle with
  | [] => (adjusted_mean, adjusted_sd)
  | fac :: rest =>
      match dict_get factors fac with
      | Some fac_info =>
          let adjusted_mean := adjusted_mean * get (mean_multiplier fac_info) 1 in
          let adjusted_sd := adjusted_sd * get (sd_multiplier fac_info) 1 in
          match exceptions fac_info with
          | Some (ExceptionsDict _) =>
              (* pass *)
              apply_lifestyle factors rest adjusted_mean adjusted_sd
          | _ => apply_lifestyle factors rest adjusted_mean adjusted_sd
          end
      | None => apply_lifestyle factors rest adjusted_mean adjusted_sd
      end
  end.

Definition apply_sex_age_lifestyle (mean0 sd0 : Q) (test_info : TestSpec)
    (sex : string) (age : Z) (lifestyle : option (list string))
    : result (Q * Q) :=
  let adjusted_mean := mean0 in
  let adjusted_sd := sd0 in
  let sex_key := sex_key_of sex in
  '(adjusted_mean, adjusted_sd) <-
    match sex_adjustment test_info with
    | Some mults => apply_sex mults sex_key adjusted_mean adjusted_sd
    | None => Ok (adjusted_mean, adjusted_sd)
    end ;;
  let '(adjusted_mean, adjusted_sd) :=
    match age_adjustment test_info with
    | Some age_adj => apply_age age_adj age adjusted_mean adjusted_sd
    | None => (adjusted_mean, adjusted_sd)
    end in
  let '(adjusted_mean, adjusted_sd) :=
    match lifestyle, lifestyle_factors test_info with
    | Some (fac :: rest), Some factors =>
        apply_lifestyle factors (fac :: rest) adjusted_mean adjusted_sd
    | _, _ => (adjusted_mean, adjusted_sd)
    end in
  Ok (adjusted_mean, adjusted_sd).

(** The fallback of [test_info.get("sd", max(0.01, 0.1 * float(base_mean)))]. *)
Definition fallback_sd (base_mean : Q) : Q := Qmax 0.01 (0.1 * base_mean).

Definition base_sd_of (test_info : TestSpec) (base_mean : Q) : Q :=
  get (sd test_info) (fallback_sd base_mean).

(** ** Profiles and rows *)

(** The [differential_props] object; a member is [Some None] when present
    with a value [float] does not convert. *)
Record DiffProps : Type := {
  neutrophils : option (option Q);
  lymphocytes : option (option Q);
  monocytes : option (option Q);
  eosinophils : option (option Q);
  basophils : option (option Q)
}.

(** The value stored under a key of a panel. *)
Inductive Entry : Type :=
| TestEntry (test_info : TestSpec)
| PropsEntry (md : DiffProps)
| NonDictEntry.

Definition Panel : Type := dict Entry.

(** [profiles_dict[condition]["panels"]], per condition. *)
Definition Profiles : Type := dict (dict Panel).

(** Values held by the per-panel result dictionaries and by the row. *)
Inductive PyVal : Type :=
| VNone
| VFloat (q : Q)
| VInt (z : Z)
| VStr (s : string)
| VEntry (e : Entry).

Definition PanelOut : Type := dict PyVal.
Definition Results : Type := dict (option PanelOut).
Definition Row : Type := dict PyVal.

Definition diff_names : list string :=
  ["Neutrophils"; "Lymphocytes"; "Monocytes"; "Eosinophils"; "Basophils"].

Definition pct_key (n : string) : string := n ++ " (%)".
Definition abs_key (n : string) : string := n ++ " (×10^9/L)".

(** The column of a test of a panel: [f"{panel} - {test_name}"]. *)
Definition column (panel test_name : string) : string :=
  panel ++ " - " ++ test_name.

Definition wbc_aliases : list string :=
  ["WBC (×10^9/L)"; "WBC (10^9/L)"; "WBC"; "WBC (×10^9/L)"; "WBC (x10^9/L)"].

Definition default_props : list Q := [0.55; 0.30; 0.06; 0.07; 0.02].

Definition Qsum (l : list Q) : Q := fold_left Qplus l 0.

(** ** [random.choice] and [random.sample]

    [random.sample] is its selection from a pool; for populations of more
    than 21 elements CPython selects by rejection, with the same outcomes
    (the samples of [k] distinct positions). *)

Section PyRandom.

Context {St : Type} (g : Generator St).

Definition randbelow (n : nat) (s : St) : nat * St :=
  let '(j, s') := py_randbelow g n s in ((j mod n)%nat, s').

(** [random.choice(seq)] on a non-empty sequence. *)
Definition choice {A : Type} (default : A) (seq : list A) (s : St) : A * St :=
  let '(j, s') := randbelow (length seq) s in (nth j seq default, s').

(** Replace position [j] of [pool] by [x]. *)
Fixpoint set_nth {A : Type} (pool : list A) (j : nat) (x : A) : list A :=
  match pool, j with
  | [], _ => []
  | _ :: rest, O => x :: rest
  | y :: rest, S j' => y :: set_nth rest j' x
  end.

(** The selection loop of [random.sample] over a pool: draw a position of
    the live part, take it, move the last live element into its place. *)
Fixpoint sample_pool {A : Type} (default : A) (pool : list A) (k : nat)
    (s : St) : list A * St :=
  match k with
  | O => ([], s)
  | S k' =>
      let '(j, s') := randbelow (length pool) s in
      let picked := nth j pool default in
      let pool' := removelast (set_nth pool j (last pool default)) in
      let '(rest, s'') := sample_pool default pool' k' s' in
      (picked :: rest, s'')
  end.

Definition sample {A : Type} (default : A) (population : list A) (k : nat)
    (s : St) : result (list A * St) :=
  if (k <=? length population)%nat then Ok (sample_pool default population k s)
  else Raise (ValueError "Sample larger than population or is negative").

End PyRandom.

(** ** The differential reconciliation *)

(** [np.argmax]: the first position of the largest element. *)
Fixpoint argmax_from (best : Q) (best_idx cur : nat) (l : list Q) : nat :=
  match l with
  | [] => best_idx
  | x :: rest =>
      if Qle_bool x best then argmax_from best best_idx (S cur) rest
      else argmax_from x cur (S cur) rest
  end.

Definition argmax (l : list Q) : nat :=
  match l with
  | [] => O
  | x :: rest => argmax_from x O 1%nat rest
  end.

(** Absolute counts for the sampled proportions: rounded products, and the
    residual against the total given to the largest count. *)
Definition reconcile (sampled_props : list Q) (total_wbc : Q) : list Q :=
  let abs_counts := map (fun p => round2 (p * total_wbc)) sampled_props in
  let sum_abs := Qsum abs_counts in
  let diff := round2 (total_wbc - sum_abs) in
  if Qle_bool 0.01 (Qabs diff) then
    let idx := argmax abs_counts in
    set_nth abs_counts idx (round2 (nth idx abs_counts 0 + diff))
  else abs_counts.

(** [float(md.get(name, default))] inside the [try]. *)
Definition prop_or (member : option (option Q)) (default : Q) : option Q :=
  get member (Some default).

(** The base proportions read from the metadata, [None] when a member does
    not convert or the sum is not positive. *)
Definition props_of_metadata (md : DiffProps) : option (list Q) :=
  match prop_or (neutrophils md) 0.55, prop_or (lymphocytes md) 0.30,
        prop_or (monocytes md) 0.06, prop_or (eosinophils md) 0.07,
        prop_or (basophils md) 0.02 with
  | Some a, Some b, Some c, Some d, Some e =>
      let base_props := [a; b; c; d; e] in
      if Qle_bool (Qsum base_props) 0 then None else Some base_props
  | _, _, _, _, _ => None
  end.

Definition no_props : DiffProps := {|
  neutrophils := None; lymphocytes := None; monocytes := None;
  eosinophils := None; basophils := None
|}.

(** The base proportions of the panel: those of its metadata when it is an
    object, the defaults otherwise. *)
Definition base_props_of (fbc_vals : PanelOut) : list Q :=
  let base_props :=
    match dict_get fbc_vals "differential_props" with
    | Some (VEntry (PropsEntry md)) => props_of_metadata md
    | Some (VEntry (TestEntry _)) => props_of_metadata no_props
    | _ => None
    end in
  get base_props default_props.

(** The alias list first, then the first key that contains "wbc". *)
Definition find_wbc_key (fbc_vals : PanelOut) : option string :=
  match find (dict_mem fbc_vals) wbc_aliases with
  | Some cand => Some cand
  | None => find (fun k => substring_in "wbc" (lower k)) (keys fbc_vals)
  end.

Definition is_fbc_like (pn : string) : bool :=
  let low := lower pn in
  substring_in "fbc" low
  || (substring_in "full" low && substring_in "blood" low)
  || substring_in "fullblood" low.

Definition find_fbc_panel (panel_names : list string) : option string :=
  find is_fbc_like panel_names.

(** [float(v)] on a stored value. *)
Definition py_float (v : PyVal) : result Q :=
  match v with
  | VFloat q => Ok q
  | VInt z => Ok (inject_Z z)
  | VNone => Raise (float_TypeError "NoneType")
  | VStr _ => Raise (ValueError "could not convert string to float")
  | VEntry NonDictEntry => Raise (float_TypeError "list")
  | VEntry _ => Raise (float_TypeError "dict")
  end.

(** The loop that sets the ten differential keys to [None]. *)
Fixpoint set_differential_none (names : list string) (fbc_vals : PanelOut)
    : PanelOut :=
  match names with
  | [] => fbc_vals
  | n :: rest =>
      set_differential_none rest
        (dict_set (dict_set fbc_vals (pct_key n) VNone) (abs_key n) VNone)
  end.

(** The loop over [zip(diff_names, sampled_props, abs_counts)]. *)
Fixpoint set_differential (names : list string) (sampled_props abs_counts : list Q)
    (fbc_vals : PanelOut) : PanelOut :=
  match names, sampled_props, abs_counts with
  | name :: names', prop :: props', abs_val :: abs' =>
      set_differential names' props' abs'
        (dict_set (dict_set fbc_vals (pct_key name) (VFloat (round2 (prop * 100))))
                  (abs_key name) (VFloat abs_val))
  | _, _, _ => fbc_vals
  end.

(** ** Main generator *)

Section Generate.

Context {St : Type} (g : Generator St).

Variables (sex : string) (age : Z) (lifestyle : list string).

(** The parameter dictionary built for [sample_value]. *)
Definition tmp_params (test_info : TestSpec) (adj_mean adj_sd : Q) : Params := {|
  p_distribution := Some (get (distribution test_info) "normal");
  p_mean := adj_mean;
  p_sd := adj_sd;
  p_min := Some (get (min_ test_info) (get (min_val test_info) None));
  p_min_val := None;
  p_max := Some (get (max_ test_info) (get (max_val test_info) None));
  p_max_val := None
|}.

(** One test of a panel: adjust, then reuse the shared value or sample. *)
Definition sample_test (test_name : string) (entry : Entry)
    (shared_values : dict Q) (s : St) : result (Q * dict Q * St) :=
  match entry with
  | NonDictEntry =>
      Raise (AttributeError "'list' object has no attribute 'get'")
  | PropsEntry _ => Raise (float_TypeError "NoneType")
  | TestEntry test_info =>
      match mean test_info with
      | None => Raise (float_TypeError "NoneType")
      | Some base_mean =>
          let base_sd := base_sd_of test_info base_mean in
          '(adj_mean, adj_sd) <-
            apply_sex_age_lifestyle base_mean base_sd test_info sex age
              (Some lifestyle) ;;
          match dict_get shared_values test_name with
          | Some val => Ok (val, shared_values, s)
          | None =>
              '(val, s') <- sample_value g (tmp_params test_info adj_mean adj_sd) s ;;
              Ok (val, dict_set shared_values test_name val, s')
          end
      end
  end.

(** The loop over the tests of one panel. *)
Fixpoint sample_panel (panel_tests : Panel) (panel_out : PanelOut)
    (shared_values : dict Q) (s : St) : result (PanelOut * dict Q * St) :=
  match panel_tests with
  | [] => Ok (panel_out, shared_values, s)
  | (test_name, entry) :: rest =>
      if test_name =? "differential_props" then
        sample_panel rest (dict_set panel_out test_name (VEntry entry))
          shared_values s
      else
        '(val, shared_values', s') <- sample_test test_name entry shared_values s ;;
        sample_panel rest (dict_set panel_out test_name (VFloat val))
          shared_values' s'
  end.

(** First pass: the loop over the panel names. *)
Fixpoint sample_panels (profile : dict Panel) (panel_names panels_to_skip : list string)
    (results : Results) (shared_values : dict Q) (s : St)
    : result (Results * dict Q * St) :=
  match panel_names with
  | [] => Ok (results, shared_values, s)
  | panel :: rest =>
      if existsb (String.eqb panel) panels_to_skip then
        sample_panels profile rest panels_to_skip
          (dict_set results panel None) shared_values s
      else
        match dict_get profile panel with
        | None => Raise (KeyError panel)
        | Some panel_tests =>
            '(panel_out, shared_values', s') <-
              sample_panel panel_tests [] shared_values s ;;
            sample_panels profile rest panels_to_skip
              (dict_set results panel (Some panel_out)) shared_values' s'
        end
  end.

(** [np.random.dirichlet] rejects a concentration that is not positive. *)
Definition dirichlet (alpha : list Q) (s : St) : result (list Q * St) :=
  if existsb (fun a => Qle_bool a 0) alpha then Raise (ValueError "alpha <= 0")
  else
    let '((p1, p2, p3, p4, p5), s') := np_dirichlet5 g alpha s in
    Ok ([p1; p2; p3; p4; p5], s').

(** The differential of the FBC-like panel, on its result dictionary. *)
Definition add_differential (fbc_vals : PanelOut) (s : St)
    : result (PanelOut * St) :=
  let wbc_key := find_wbc_key fbc_vals in
  let wbc_val :=
    match wbc_key with
    | None => None
    | Some k => match dict_get fbc_vals k with
                | Some VNone => None
                | other => other
                end
    end in
  match wbc_val with
  | None => Ok (set_differential_none diff_names fbc_vals, s)
  | Some v =>
      total_wbc <- py_float v ;;
      let base_props := base_props_of fbc_vals in
      let concentration := 50 in
      let alpha := map (fun p => p * concentration) base_props in
      '(sampled_props, s') <- dirichlet alpha s ;;
      let abs_counts := reconcile sampled_props total_wbc in
      let fbc_vals := set_differential diff_names sampled_props abs_counts fbc_vals in
      let fbc_vals :=
        if dict_mem fbc_vals "differential_props"
        then dict_del fbc_vals "differential_props" else fbc_vals in
      Ok (fbc_vals, s')
  end.

(** The columns declared by the profile. *)
Definition panel_columns (fbc_panel : option string) (panel : string)
    (panel_tests : Panel) : list string :=
  flat_map
    (fun test_name =>
       if test_name =? "differential_props" then
         match fbc_panel with
         | Some fbc =>
             if panel =? fbc then
               flat_map (fun n => [column panel (pct_key n); column panel (abs_key n)])
                        diff_names
             else []
         | None => []
         end
       else [column panel test_name])
    (keys panel_tests).

Definition all_columns (profile : dict Panel) (panel_names : list string)
    (fbc_panel : option string) : list string :=
  ["Sex"; "Age"; "Condition"]
  ++ flat_map (fun panel =>
                 panel_columns fbc_panel panel (get (dict_get profile panel) []))
              panel_names.

(** Dedupe while preserving order. *)
Fixpoint dedupe (seen all_cols : list string) : list string :=
  match all_cols with
  | [] => []
  | c :: rest =>
      if existsb (String.eqb c) seen then dedupe seen rest
      else c :: dedupe (c :: seen) rest
  end.

(** Populate the row from one panel's values. *)
Fixpoint populate_panel (panel : string) (vals : PanelOut) (row : Row) : Row :=
  match vals with
  | [] => row
  | (tname, v) :: rest =>
      if tname =? "differential_props" then populate_panel panel rest row
      else populate_panel panel rest (dict_set row (column panel tname) v)
  end.

Fixpoint populate (results : Results) (row : Row) : Row :=
  match results with
  | [] => row
  | (panel, None) :: rest => populate rest row
  | (panel, Some vals) :: rest => populate rest (populate_panel panel vals row)
  end.

(** The panels to skip: with probability [missing_panel_prob], one or two
    panels sampled without replacement. *)
Definition choose_panels_to_skip (panel_names : list string)
    (missing_panel_prob : Q) (s : St) : result (list string * St) :=
  let '(u, s1) := py_random g s in
  if Qlt_le_dec u missing_panel_prob then
    let '(num_missing, s2) := choice g 1%nat [1%nat; 2%nat] s1 in
    sample g "" panel_names num_missing s2
  else Ok ([], s1).

(** The per-panel results after both passes. *)
Definition panel_results (profile : dict Panel) (missing_panel_prob : Q)
    (s : St) : result (Results * option string * St) :=
  let panel_names := keys profile in
  '(panels_to_skip, s1) <- choose_panels_to_skip panel_names missing_panel_prob s ;;
  '(results, shared_values, s2) <-
    sample_panels profile panel_names panels_to_skip [] [] s1 ;;
  let fbc_panel := find_fbc_panel panel_names in
  match fbc_panel with
  | None => Ok (results, fbc_panel, s2)
  | Some fbc =>
      match get (dict_get results fbc) None with
      | None => Ok (results, fbc_panel, s2)
      | Some fbc_vals =>
          '(fbc_vals', s3) <- add_differential fbc_vals s2 ;;
          Ok (dict_set results fbc (Some fbc_vals'), fbc_panel, s3)
      end
  end.

(** The row before the values are filled in: every column [None], then the
    three patient columns. *)
Definition initial_row (condition : string) (cols : list string) : Row :=
  let row : Row := map (fun c => (c, VNone)) cols in
  let row := dict_set row "Sex" (VStr sex) in
  let row := dict_set row "Age" (VInt age) in
  dict_set row "Condition" (VStr condition).

Definition generate_lab_results (condition : string) (profiles : Profiles)
    (missing_panel_prob : Q) (s : St) : result (Row * St) :=
  match dict_get profiles condition with
  | None =>
      Raise (ValueError ("Condition '" ++ condition ++ "' not found in profiles"))
  | Some profile =>
      let panel_names := keys profile in
      '(results, fbc_panel, s') <- panel_results profile missing_panel_prob s ;;
      let all_cols := all_columns profile panel_names fbc_panel in
      let cols := dedupe [] all_cols in
      Ok (populate results (initial_row condition cols), s')
  end.

End Generate.

(** ** Cohort helper

    [generate_cohort] and [get_random_condition] on the loaded profile
    dictionary.  The cohort is the sequence of the generated rows in
    generation order (the frame [pd.concat] builds from them); [n] is the
    number of iterations of [range(n)]. *)

(** The exceptions of the cohort helpers: those of the row generator, and
    the [IndexError] of an empty choice or a short [age_range]. *)
Inductive cohort_exn : Type :=
| Exn (e : exn)
| IndexError (msg : string).

Inductive cresult (A : Type) : Type :=
| COk (a : A)
| CRaise (e : cohort_exn).

Arguments COk {A} a.
Arguments CRaise {A} e.

Definition cbind {A B : Type} (c : cresult A) (k : A -> cresult B) : cresult B :=
  match c with
  | COk a => k a
  | CRaise e => CRaise e
  end.

Definition lift {A : Type} (c : result A) : cresult A :=
  match c with
  | Ok a => COk a
  | Raise e => CRaise (Exn e)
  end.

Notation "x <-- c ;; k" := (cbind c (fun x => k))
  (at level 61, c at next level, right associativity).
Notation "' pat <-- c ;; k" := (cbind c (fun x => match x with pat => k end))
  (at level 61, pat pattern, c at next level, right associativity).

(** [x if x else default] on an optional list. *)
Definition or_default {A : Type} (given : option (list A)) (default : list A)
    : list A :=
  match given with
  | Some (x :: rest) => x :: rest
  | _ => default
  end.

Definition default_sex_choices : list string := ["male"; "female"; "non-binary"].

Definition default_age_range : list Z := [20%Z; 85%Z].

Definition default_lifestyle_choices : list (option (list string)) :=
  [None; Some []; Some ["smoker"]; Some ["heavy_drinker"];
   Some ["smoker"; "heavy_drinker"]; Some ["athlete"]; Some ["high_bmi"]].

Section Cohort.

Context {St : Type} (g : Generator St).

(** The state both generators are put in by [np.random.seed(k)] and
    [random.seed(k)]. *)
Variable seeded : Z -> St.

(** [np.random.seed] accepts the seeds of 32 bits. *)
Definition seed (k : Z) : result St :=
  if ((0 <=? k) && (k <? 2 ^ 32))%Z then Ok (seeded k)
  else Raise (ValueError "Seed must be between 0 and 2**32 - 1").

(** [generate_lab_results] with its [rng_seed] and optional [lifestyle]. *)
Definition generate_lab_results_seeded (condition sex : string) (age : Z)
    (lifestyle : option (list string)) (profiles : Profiles)
    (missing_panel_prob : Q) (rng_seed : option Z) (s : St)
    : result (Row * St) :=
  s0 <- match rng_seed with
        | Some k => seed k
        | None => Ok s
        end ;;
  generate_lab_results g sex age (get lifestyle []) condition profiles
    missing_panel_prob s0.

(** [random.choice(seq)]. *)
Definition choice_of {A : Type} (default : A) (seq : list A) (s : St)
    : cresult (A * St) :=
  match seq with
  | [] => CRaise (IndexError "Cannot choose from an empty sequence")
  | _ :: _ => COk (choice g default seq s)
  end.

(** [random.randint(a, b)]. *)
Definition randint (a b : Z) (s : St) : cresult (Z * St) :=
  if (a <=? b)%Z then
    let '(j, s') := randbelow g (Z.to_nat (b - a + 1)) s in
    COk ((a + Z.of_nat j)%Z, s')
  else CRaise (Exn (ValueError "empty range in randrange"))%string.

(** [age_range[i]]. *)
Definition index (age_range : list Z) (i : nat) : cresult Z :=
  match nth_error age_range i with
  | Some a => COk a
  | None => CRaise (IndexError "list index out of range")
  end.

(** The loop [for i in range(n)], from iteration [i] with [remaining]
    iterations to go. *)
Fixpoint cohort_rows (profiles : Profiles) (conditions sex_choices : list string)
    (age_range : list Z) (lifestyle_choices : list (option (list string)))
    (missing_panel_prob : Q) (rng_seed : option Z) (remaining : nat) (i : Z)
    (s : St) : cresult (list Row * St) :=
  match remaining with
  | O => COk ([], s)
  | S remaining' =>
      '(cond, s1) <-- choice_of "" conditions s ;;
      '(sex, s2) <-- choice_of "" sex_choices s1 ;;
      lo <-- index age_range 0 ;;
      hi <-- index age_range 1 ;;
      '(age, s3) <-- randint lo hi s2 ;;
      '(lifestyle, s4) <-- choice_of None lifestyle_choices s3 ;;
      '(row, s5) <--
        lift (generate_lab_results_seeded cond sex age lifestyle profiles
                missing_panel_prob
                (match rng_seed with
                 | None => None
                 | Some k => Some (k + i)%Z
                 end) s4) ;;
      '(rows, s6) <--
        cohort_rows profiles conditions sex_choices age_range lifestyle_choices
          missing_panel_prob rng_seed remaining' (i + 1)%Z s5 ;;
      COk (row :: rows, s6)
  end.

(** [pd.concat] of the rows; it rejects an empty list. *)
Definition concat (rows : list Row) : cresult (list Row) :=
  match rows with
  | [] => CRaise (Exn (ValueError "No objects to concatenate"))
  | _ :: _ => COk rows
  end.

Definition generate_cohort (n : nat) (profiles : Profiles)
    (condition_sampler sex_choices : option (list string))
    (age_range : option (list Z))
    (lifestyle_choices : option (list (option (list string))))
    (missing_panel_prob : Q) (rng_seed : option Z) (s : St)
    : cresult (list Row * St) :=
  let conditions := or_default condition_sampler (keys profiles) in
  let sex_choices := or_default sex_choices default_sex_choices in
  let age_range := or_default age_range default_age_range in
  let lifestyle_choices := or_default lifestyle_choices default_lifestyle_choices in
  '(rows, s') <--
    cohort_rows profiles conditions sex_choices age_range lifestyle_choices
      missing_panel_prob rng_seed n 0%Z s ;;
  cohort <-- concat rows ;;
  COk (cohort, s').

(** [get_random_condition] on the loaded profiles. *)
Definition get_random_condition (disease_profiles : Profiles) (s : St)
    : cresult (string * St) :=
  choice_of "" (keys disease_profiles) s.

End Cohort.

(** ** Predicates and invariants used in the statements *)

(** Multiples of 1/100. *)
Definition hundredth (x : Q) : Prop := exists k : Z, x == inject_Z k / 100.

(** [test_info] with its [age_adjustment] member replaced. *)
Definition with_age_adjustment (test_info : TestSpec) (age_adj : AgeAdjustment)
    : TestSpec := {|
  distribution := distribution test_info;
  mean := mean test_info;
  sd := sd test_info;
  min_ := min_ test_info; min_val := min_val test_info;
  max_ := max_ test_info; max_val := max_val test_info;
  sex_adjustment := sex_adjustment test_info;
  age_adjustment := Some age_adj;
  lifestyle_factors := lifestyle_factors test_info
|}.

(** Two lifestyle factor entries that agree on everything but
    [exceptions]. *)
Definition same_but_exceptions (f1 f2 : Factor) : Prop :=
  mean_multiplier f1 = mean_multiplier f2
  /\ sd_multiplier f1 = sd_multiplier f2.

Definition factors_same_but_exceptions (d1 d2 : dict Factor) : Prop :=
  Forall2 (fun e1 e2 => fst e1 = fst e2 /\ same_but_exceptions (snd e1) (snd e2))
          d1 d2.

(** Two test specifications that differ at most in the [exceptions] members
    of their lifestyle factors. *)
Definition differ_only_in_exceptions (t1 t2 : TestSpec) : Prop :=
  distribution t1 = distribution t2
  /\ mean t1 = mean t2
  /\ sd t1 = sd t2
  /\ min_ t1 = min_ t2 /\ min_val t1 = min_val t2
  /\ max_ t1 = max_ t2 /\ max_val t1 = max_val t2
  /\ sex_adjustment t1 = sex_adjustment t2
  /\ age_adjustment t1 = age_adjustment t2
  /\ match lifestyle_factors t1, lifestyle_factors t2 with
     | Some d1, Some d2 => factors_same_but_exceptions d1 d2
     | None, None => True
     | _, _ => False
     end.

(** The ten keys the differential writes into the FBC-like panel. *)
Definition differential_keys : list string :=
  flat_map (fun n => [pct_key n; abs_key n]) diff_names.

(** A key that the search for the total count can return. *)
Definition wbc_like (k : string) : bool :=
  existsb (String.eqb k) wbc_aliases || substring_in "wbc" (lower k).

(** Every sampled entry of a panel's result dictionary is the value held
    for its test name by the shared dictionary. *)
Definition agrees_with (shared_values : dict Q) (panel_out : PanelOut) : Prop :=
  forall t x, dict_get panel_out t = Some x -> t <> "differential_props" ->
    exists v, x = VFloat v /\ dict_get shared_values t = Some v.

(** [shared'] holds every entry of [shared], unchanged. *)
Definition extends (shared shared' : dict Q) : Prop :=
  forall t v, dict_get shared t = Some v -> dict_get shared' t = Some v.

Definition rounded (shared_values : dict Q) : Prop :=
  forall t v, dict_get shared_values t = Some v -> hundredth v.

Definition declared_tests (profile : dict Panel) (panel : string) : list string :=
  keys (get (dict_get profile panel) []).

(** A result dictionary of a panel, between the two passes. *)
Definition panel_inv (shared_values : dict Q) (declared : list string)
    (panel_out : PanelOut) : Prop :=
  agrees_with shared_values panel_out
  /\ NoDup (keys panel_out)
  /\ incl (keys panel_out) declared.

Definition results_inv (profile : dict Panel) (shared_values : dict Q)
    (results : Results) : Prop :=
  (forall p d, dict_get results p = Some (Some d) ->
     panel_inv shared_values (declared_tests profile p) d
     /\ incl (declared_tests profile p) (keys d))
  /\ NoDup (keys results)
  /\ incl (keys results) (keys profile).

(** A sequence of dictionary assignments, and the assignments made by the
    two differential loops. *)
Definition apply_writes (d : PanelOut) (writes : list (string * PyVal)) : PanelOut :=
  fold_left (fun d kv => dict_set d (fst kv) (snd kv)) writes d.

Definition none_writes (names : list string) : list (string * PyVal) :=
  flat_map (fun n => [(pct_key n, VNone); (abs_key n, VNone)]) names.

Fixpoint differential_writes (names : list string) (sampled_props abs_counts : list Q)
    : list (string * PyVal) :=
  match names, sampled_props, abs_counts with
  | name :: names', prop :: props', abs_val :: abs' =>
      (pct_key name, VFloat (round2 (prop * 100)))
      :: (abs_key name, VFloat abs_val)
      :: differential_writes names' props' abs'
  | _, _, _ => []
  end.

(** The (panel, key) pairs a row can be filled from: the declared tests of
    every panel and the ten differential keys. *)
Definition declared_cells (profile : dict Panel) : list (string * string) :=
  flat_map (fun p => map (pair p) (declared_tests profile p ++ differential_keys))
           (keys profile).

(** No two of those pairs share their column name. *)
Definition unambiguous_columns (profile : dict Panel) : Prop :=
  forall c1 c2, In c1 (declared_cells profile) -> In c2 (declared_cells profile) ->
    column (fst c1) (snd c1) = column (fst c2) (snd c2) -> c1 = c2.

Definition cell_eqb (c1 c2 : string * string) : bool :=
  (fst c1 =? fst c2) && (snd c1 =? snd c2).

Definition unambiguous_columnsb (profile : dict Panel) : bool :=
  forallb (fun c1 =>
             forallb (fun c2 =>
                        implb (column (fst c1) (snd c1) =? column (fst c2) (snd c2))
                              (cell_eqb c1 c2))
                     (declared_cells profile))
          (declared_cells profile).

(** The per-panel results after both passes. *)
Definition final_inv (profile : dict Panel) (results : Results) : Prop :=
  NoDup (keys results)
  /\ forall p d, dict_get results p = Some (Some d) ->
       In p (keys profile)
       /\ NoDup (keys d)
       /\ incl (keys d) (declared_tests profile p ++ differential_keys).

(** The entry of a sex-adjustment mapping that [float] is applied to: the
    one under the sex key, else the one under "other". *)
Definition consulted_entry (mults : dict SexEntry) (sex_key : string)
    : option SexEntry :=
  match dict_get mults sex_key with
  | Some entry => Some entry
  | None => dict_get mults "other"
  end.

(** The multiplier of a mapping of bare numbers. *)
Definition sex_factor (mults : dict SexEntry) (sex_key : string) : Q :=
  match consulted_entry mults sex_key with
  | Some (SexNumber q) => q
  | _ => 1
  end.

(** [test_info] without its [sex_adjustment] member. *)
Definition without_sex_adjustment (test_info : TestSpec) : TestSpec := {|
  distribution := distribution test_info;
  mean := mean test_info;
  sd := sd test_info;
  min_ := min_ test_info; min_val := min_val test_info;
  max_ := max_ test_info; max_val := max_val test_info;
  sex_adjustment := None;
  age_adjustment := age_adjustment test_info;
  lifestyle_factors := lifestyle_factors test_info
|}.

(** Every number stored in a dictionary is a multiple of 1/100. *)
Definition floats_rounded (d : PanelOut) : Prop :=
  forall t q, In (t, VFloat q) d -> hundredth q.

(** [row] is a row generated for a patient drawn from the given choices,
    under the given seed. *)
Definition generated_for {St : Type} (g : Generator St) (seeded : Z -> St)
    (profiles : Profiles) (conditions sex_choices : list string)
    (age_range : list Z) (lifestyle_choices : list (option (list string)))
    (missing_panel_prob : Q) (rng_seed : option Z) (row : Row) : Prop :=
  exists (cond sex : string) (age lo hi : Z) (lifestyle : option (list string))
         (s s' : St),
    In cond conditions
    /\ In sex sex_choices
    /\ nth_error age_range 0 = Some lo
    /\ nth_error age_range 1 = Some hi
    /\ (lo <= age <= hi)%Z
    /\ In lifestyle lifestyle_choices
    /\ generate_lab_results_seeded g seeded cond sex age lifestyle profiles
         missing_panel_prob rng_seed s = Ok (row, s')
    /\ dict_get row "Condition" = Some (VStr cond)
    /\ dict_get row "Sex" = Some (VStr sex)
    /\ dict_get row "Age" = Some (VInt age).

(** The seed of iteration [j] of a cohort. *)
Definition row_seed (rng_seed : option Z) (j : Z) : option Z :=
  match rng_seed with
  | None => None
  | Some k => Some (k + j)%Z
  end.

(** [test_info] without its [age_adjustment] member. *)
Definition without_age_adjustment (test_info : TestSpec) : TestSpec := {|
  distribution := distribution test_info;
  mean := mean test_info;
  sd := sd test_info;
  min_ := min_ test_info; min_val := min_val test_info;
  max_ := max_ test_info; max_val := max_val test_info;
  sex_adjustment := sex_adjustment test_info;
  age_adjustment := None;
  lifestyle_factors := lifestyle_factors test_info
|}.

(** Numbers far inside the range of the floats.  For such operands the
    squares [m**2] and [s**2], the quotients by a guarded operand and the
    difference of the bounds are finite floats: neither the [OverflowError]
    of [**] (operands beyond about 1.3e154) nor that of a sampler given an
    infinite range can occur, and an integer operand converts to a float. *)
Definition moderate (x : Q) : Prop := Qabs x <= 1e100.

Definition moderate_params (params : Params) : Prop :=
  moderate (p_mean params)
  /\ moderate (p_sd params)
  /\ (forall lo, min_bound params = Some lo -> moderate lo)
  /\ (forall hi, max_bound params = Some hi -> moderate hi).

(** ** Concrete inputs used by the examples *)

(** A generator whose samplers all return [draw]. *)
Definition constant_generator (draw : Q) : Generator nat :=
  tape_generator (fun _ => draw) (0.5, 0.3, 0.1, 0.06, 0.04) (fun _ => 0.5)
                 (fun _ => O).

Definition bare_params (dist : string) (lo hi : option Q) : Params := {|
  p_distribution := Some dist;
  p_mean := 1;
  p_sd := 1;
  p_min := Some lo;
  p_min_val := None;
  p_max := Some hi;
  p_max_val := None
|}.

(** A test specification with only [mean] (and possibly [sd]). *)
Definition plain_spec (m : Q) (sd0 : option Q) : TestSpec := {|
  distribution := None;
  mean := Some m;
  sd := sd0;
  min_ := None; min_val := None; max_ := None; max_val := None;
  sex_adjustment := None;
  age_adjustment := None;
  lifestyle_factors := None
|}.

Definition child_band : Band := {|
  band_min_age := 0; band_max_age := 17;
  band_mean_multiplier := Some 0.8; band_sd_multiplier := None
|}.

Definition adult_band : Band := {|
  band_min_age := 18; band_max_age := 64;
  band_mean_multiplier := Some 1.1; band_sd_multiplier := Some 1.2
|}.

Definition overlapping_band : Band := {|
  band_min_age := 18; band_max_age := 120;
  band_mean_multiplier := Some 2; band_sd_multiplier := Some 3
|}.

(** A specification with a lifestyle factor carrying the given
    [exceptions]. *)
Definition smoker_spec (exc : option Exceptions) : TestSpec := {|
  distribution := None;
  mean := Some 10;
  sd := Some 1;
  min_ := None; min_val := None; max_ := None; max_val := None;
  sex_adjustment := Some [("male", SexNumber 1.1)];
  age_adjustment := Some (AgeDict (Some 0.01) None);
  lifestyle_factors :=
    Some [("smoker", {| mean_multiplier := Some 1.5;
                        sd_multiplier := Some 2;
                        exceptions := exc |})]
|}.

(** A specification whose sex adjustment holds a structured entry. *)
Definition structured_sex_spec : TestSpec := {|
  distribution := None;
  mean := Some 10;
  sd := Some 1;
  min_ := None; min_val := None; max_ := None; max_val := None;
  sex_adjustment := Some [("male", SexStructured (Some 1.1) (Some 1.2))];
  age_adjustment := None;
  lifestyle_factors := None
|}.

(** A generator that triggers the omission branch and draws index 1. *)
Definition omitting_generator : Generator nat :=
  tape_generator (fun _ => 7) (0.5, 0.3, 0.1, 0.06, 0.04) (fun _ => 0.05)
                 (fun _ => 1%nat).

Definition single_panel_profiles : Profiles :=
  [("Anaemia", [("Iron Studies", [("Ferritin", TestEntry (plain_spec 30 None))])])].

(** A profile whose FBC panel declares no [differential_props]. *)
Definition plain_fbc_profiles : Profiles :=
  [("Sepsis", [("FBC", [("WBC", TestEntry (plain_spec 7 (Some 1)))]);
               ("LFT", [("ALT", TestEntry (plain_spec 30 None))])])].

(** A generator that takes no omission branch. *)
Definition keeping_generator : Generator nat :=
  tape_generator (fun n => inject_Z (Z.of_nat n) + 7.123)
                 (0.5, 0.3, 0.1, 0.06, 0.04) (fun _ => 0.5) (fun _ => O).

(** A generator that omits one panel, the first. *)
Definition omit_first_generator : Generator nat :=
  tape_generator (fun n => inject_Z (Z.of_nat n) + 7.123)
                 (0.5, 0.3, 0.1, 0.06, 0.04) (fun _ => 0.05) (fun _ => O).

(** A condition whose FBC panel declares its differential metadata and
    whose second panel orders the total count again. *)
Definition sepsis_panels : dict Panel :=
  [("FBC",
    [("WBC", TestEntry (plain_spec 7 (Some 1)));
     ("differential_props",
      PropsEntry {| neutrophils := Some (Some 0.6);
                    lymphocytes := Some (Some 0.25);
                    monocytes := None;
                    eosinophils := None;
                    basophils := None |})]);
   ("Inflammatory Markers",
    [("CRP", TestEntry (plain_spec 40 None));
     ("WBC", TestEntry (plain_spec 9 (Some 2)))])].

Definition sepsis_profiles : Profiles := [("Sepsis", sepsis_panels)].

(** A condition in which a test carries the name of a differential key and
    recurs in a second panel. *)
Definition overwritten_profiles : Profiles :=
  [("Sepsis",
    [("FBC",
      [("WBC", TestEntry (plain_spec 7 (Some 1)));
       ("Neutrophils (%)", TestEntry (plain_spec 60 (Some 5)))]);
     ("Immunology",
      [("Neutrophils (%)", TestEntry (plain_spec 60 (Some 5)))])])].

(** The run of [keeping_generator] on [sepsis_profiles]. *)
Definition sepsis_results : Results :=
  Eval vm_compute in
    match panel_results keeping_generator "female" 60 [] sepsis_panels 0.14 O with
    | Ok (results, _, _) => results
    | Raise _ => []
    end.

Definition sepsis_row : Row :=
  Eval vm_compute in
    match generate_lab_results keeping_generator "female" 60 [] "Sepsis"
            sepsis_profiles 0.14 O with
    | Ok (row, _) => row
    | Raise _ => []
    end.

Definition sepsis_fbc_vals : PanelOut :=
  Eval vm_compute in get (get (dict_get sepsis_results "FBC") None) [].

Definition sepsis_markers_vals : PanelOut :=
  Eval vm_compute in
    get (get (dict_get sepsis_results "Inflammatory Markers") None) [].

(** A specification with a slope-form age adjustment and default reference
    age. *)
Definition slope_adjustment : AgeAdjustment := AgeDict (Some 0.02) None.

(** A specification whose lifestyle mapping knows "smoker" and "athlete". *)
Definition lifestyle_spec : TestSpec := {|
  distribution := None;
  mean := Some 10;
  sd := Some 1;
  min_ := None; min_val := None; max_ := None; max_val := None;
  sex_adjustment := Some [("male", SexNumber 1.1); ("other", SexNumber 0.9)];
  age_adjustment := None;
  lifestyle_factors :=
    Some [("smoker", {| mean_multiplier := Some 1.5;
                        sd_multiplier := Some 2;
                        exceptions := None |});
          ("athlete", {| mean_multiplier := Some 0.9;
                         sd_multiplier := None;
                         exceptions := None |})]
|}.

(** The run of [omit_first_generator] on [sepsis_profiles]: the FBC panel
    is omitted. *)
Definition sepsis_omitted_results : Results :=
  Eval vm_compute in
    match panel_results omit_first_generator "female" 60 [] sepsis_panels 0.14 O with
    | Ok (results, _, _) => results
    | Raise _ => []
    end.

Definition sepsis_omitted_row : Row :=
  Eval vm_compute in
    match generate_lab_results omit_first_generator "female" 60 [] "Sepsis"
            sepsis_profiles 0.14 O with
    | Ok (row, _) => row
    | Raise _ => []
    end.

(** A condition whose FBC panel declares no total count. *)
Definition no_wbc_panels : dict Panel :=
  [("FBC", [("Hb", TestEntry (plain_spec 140 (Some 10)))]);
   ("LFT", [("ALT", TestEntry (plain_spec 30 None))])].

Definition no_wbc_profiles : Profiles := [("Anaemia", no_wbc_panels)].

Definition no_wbc_results : Results :=
  Eval vm_compute in
    match panel_results keeping_generator "female" 60 [] no_wbc_panels 0.14 O with
    | Ok (results, _, _) => results
    | Raise _ => []
    end.

Definition no_wbc_row : Row :=
  Eval vm_compute in
    match generate_lab_results keeping_generator "female" 60 [] "Anaemia"
            no_wbc_profiles 0.14 O with
    | Ok (row, _) => row
    | Raise _ => []
    end.

Definition no_wbc_fbc_vals : PanelOut :=
  Eval vm_compute in get (get (dict_get no_wbc_results "FBC") None) [].

(** Seeding the tape generator: the position is a multiple of the seed. *)
Definition tape_seeded (k : Z) : nat := (Z.to_nat k * 10)%nat.

(** A cohort of two patients of [sepsis_profiles], seeded with 7. *)
Definition sepsis_cohort : list Row :=
  Eval vm_compute in
    match generate_cohort keeping_generator tape_seeded 2 sepsis_profiles
            None None None None 0.14 (Some 7%Z) O with
    | COk (rows, _) => rows
    | CRaise _ => []
    end.


(** An FBC result dictionary of the first pass without metadata, and its
    differential. *)
Definition counted_vals : PanelOut := [("WBC", VFloat 7.13)].

Definition counted_differential : PanelOut :=
  Eval vm_compute in
    match add_differential keeping_generator counted_vals O with
    | Ok (post, _) => post
    | Raise _ => []
    end.

(** A generator whose normal sampler shows the scale it is given: the draw
    is the mean plus a hundred times the sd. *)
Definition revealing_generator : Generator nat := {|
  np_normal := fun mean0 sd0 n => (mean0 + 100 * sd0, S n);
  np_lognormal_matching := fun _ _ n => (0, S n);
  np_uniform := fun _ _ n => (0, S n);
  np_gamma := fun _ _ n => (0, S n);
  np_dirichlet5 := fun _ n => ((0.5, 0.3, 0.1, 0.06, 0.04), S n);
  py_random := fun n => (0.5, S n);
  py_randbelow := fun _ n => (O, S n)
|}.

(** * Properties *)

(** ** Rounding *)

Lemma rint_bounds (x : Q) : (Qfloor x <= rint x <= Qfloor x + 1)%Z.
Proof.
  unfold rint. destruct (Qcompare _ _); [destruct (Z.even _) | |]; lia.
Qed.

Lemma rint_comp (x y : Q) : x == y -> rint x = rint y.
Proof.
  intros H. unfold rint. rewrite (Qfloor_comp _ _ H).
  assert (E : x - inject_Z (Qfloor y) == y - inject_Z (Qfloor y))
    by (rewrite H; reflexivity).
  rewrite (Qcompare_comp _ _ E _ _ (Qeq_refl (1 # 2))). reflexivity.
Qed.

Lemma rint_inject_Z (z : Z) : rint (inject_Z z) = z.
Proof.
  unfold rint. rewrite Qfloor_Z.
  assert (H : inject_Z z - inject_Z z < 1 # 2) by lra.
  rewrite Qlt_alt in H. rewrite H. reflexivity.
Qed.

Lemma rint_mono (x y : Q) : x <= y -> (rint x <= rint y)%Z.
Proof.
  intros Hxy.
  pose proof (Qfloor_resp_le _ _ Hxy) as Hf.
  pose proof (rint_bounds x) as Bx. pose proof (rint_bounds y) as By.
  destruct (Z.eq_dec (Qfloor x) (Qfloor y)) as [E | N]; [| lia].
  unfold rint in *. rewrite E in *.
  destruct (Qcompare (x - inject_Z (Qfloor y)) (1 # 2)) eqn:Cx;
    destruct (Qcompare (y - inject_Z (Qfloor y)) (1 # 2)) eqn:Cy;
    try rewrite <- Qeq_alt in *; try rewrite <- Qlt_alt in *;
    try rewrite <- Qgt_alt in *;
    try lia; try lra; try (destruct (Z.even (Qfloor y)); lia).
Qed.

Lemma round2_mono (x y : Q) : x <= y -> round2 x <= round2 y.
Proof.
  intros H. unfold round2.
  assert (M : (rint (x * 100) <= rint (y * 100))%Z) by (apply rint_mono; lra).
  rewrite Zle_Qle in M.
  unfold Qdiv. apply Qmult_le_compat_r; [exact M | discriminate].
Qed.

Lemma round2_hundredth (x : Q) : hundredth (round2 x).
Proof. exists (rint (x * 100)). reflexivity. Qed.

Lemma round2_fix (x : Q) : hundredth x -> round2 x == x.
Proof.
  intros [k Hk]. unfold round2.
  rewrite (rint_comp (x * 100) (inject_Z k)).
  - rewrite rint_inject_Z. symmetry. exact Hk.
  - rewrite Hk. field.
Qed.

Lemma two_decimals_iff (x : Q) : two_decimals x <-> hundredth x.
Proof.
  split.
  - intros H. exists (rint (x * 100)). symmetry. exact H.
  - apply round2_fix.
Qed.

Lemma hundredth_plus (x y : Q) : hundredth x -> hundredth y -> hundredth (x + y).
Proof.
  intros [a Ha] [b Hb]. exists (a + b)%Z. rewrite inject_Z_plus, Ha, Hb. field.
Qed.

Lemma hundredth_minus (x y : Q) : hundredth x -> hundredth y -> hundredth (x - y).
Proof.
  intros [a Ha] [b Hb]. exists (a - b)%Z.
  unfold Z.sub. rewrite inject_Z_plus, inject_Z_opp, Ha, Hb. field.
Qed.

Lemma hundredth_small (x : Q) : hundredth x -> Qabs x < 0.01 -> x == 0.
Proof.
  intros [k Hk] Hs.
  assert (Hk0 : k = 0%Z).
  { apply Qabs_Qlt_condition in Hs. destruct Hs as [Hlo Hhi].
    rewrite Hk in Hlo, Hhi.
    assert (L : inject_Z (-1) < inject_Z k).
    { apply Qmult_lt_r with (z := / 100); [reflexivity|]. exact Hlo. }
    assert (U : inject_Z k < inject_Z 1).
    { apply Qmult_lt_r with (z := / 100); [reflexivity|]. exact Hhi. }
    rewrite <- Zlt_Qlt in L, U. lia. }
  rewrite Hk, Hk0. reflexivity.
Qed.

Lemma clip_bounds (val lo hi : Q) : lo <= hi -> lo <= clip val lo hi <= hi.
Proof.
  intros H. unfold clip. split.
  - apply Q.min_glb; [apply Q.le_max_r | exact H].
  - apply Q.le_min_r.
Qed.

(** ** The sampler *)

(** What [sample_value] returns: the rounding of the draw, clipped when both
    bounds are present. *)
Lemma sample_value_inv {St : Type} (g : Generator St) (params : Params)
    (s s' : St) (v : Q) :
  sample_value g params s = Ok (v, s') ->
  exists draw : Q,
    v = round2 (match min_bound params, max_bound params with
                | Some lo, Some hi => clip draw lo hi
                | _, _ => draw
                end).
Proof.
  unfold sample_value. intros H.
  destruct (if lower (get (p_distribution params) "normal") =? "normal"
            then _ else _) as [[val s1] | e] eqn:D; simpl in H; [| discriminate].
  exists val. injection H as <- _. reflexivity.
Qed.

Lemma sample_value_hundredth {St : Type} (g : Generator St) (params : Params)
    (s s' : St) (v : Q) :
  sample_value g params s = Ok (v, s') -> hundredth v.
Proof.
  intros H. destruct (sample_value_inv g params s s' v H) as [d ->].
  apply round2_hundredth.
Qed.

(** C1 (as amended).  When both bounds are present with [lo <= hi], the value
    returned by [sample_value] is the two-decimal rounding of a value clipped
    into [[lo, hi]]: it lies between the roundings of the bounds, and so
    inside [[lo, hi]] itself whenever the bounds have at most two decimals. *)
Theorem sample_value_within_rounded_bounds {St : Type} (g : Generator St)
    (params : Params) (s s' : St) (v lo hi : Q) :
  min_bound params = Some lo ->
  max_bound params = Some hi ->
  lo <= hi ->
  sample_value g params s = Ok (v, s') ->
  (round2 lo <= v <= round2 hi)
  /\ (two_decimals lo -> two_decimals hi -> lo <= v <= hi).
Proof.
  intros Hlo Hhi Hle H.
  destruct (sample_value_inv g params s s' v H) as [d ->].
  rewrite Hlo, Hhi.
  pose proof (clip_bounds d lo hi Hle) as [B1 B2].
  assert (R : round2 lo <= round2 (clip d lo hi) <= round2 hi)
    by (split; apply round2_mono; assumption).
  split; [exact R |].
  unfold two_decimals. intros T1 T2. lra.
Qed.

Lemma sample_value_within_rounded_bounds_witness :
  exists v : Q,
    sample_value (constant_generator 9) (bare_params "normal" (Some 2.5) (Some 7.25)) O
      = Ok (v, 1%nat)
    /\ (round2 2.5 <= v <= round2 7.25)
    /\ (two_decimals 2.5 -> two_decimals 7.25 -> 2.5 <= v <= 7.25).
Proof.
  exists (round2 (clip 9 2.5 7.25)).
  split; [reflexivity |].
  apply (sample_value_within_rounded_bounds (constant_generator 9)
           (bare_params "normal" (Some 2.5) (Some 7.25)) O 1%nat).
  - reflexivity.
  - reflexivity.
  - unfold Qle; simpl; lia.
  - reflexivity.
Defined.

(** C1 as stated fails: with bounds 1.234 and 1.236 the clipped draw 1.235 is
    rounded to 1.24, above the upper bound. *)
Lemma sample_value_leaves_bounds :
  sample_value (constant_generator 1.235)
               (bare_params "normal" (Some 1.234) (Some 1.236)) O
    = Ok (round2 1.235, 1%nat)
  /\ 1.234 <= 1.236
  /\ ~ (1.234 <= round2 1.235 <= 1.236).
Proof.
  split; [reflexivity |]. split; [unfold Qle; simpl; lia |].
  intros [_ H]. vm_compute in H. apply H. reflexivity.
Qed.

(** C8.  With distribution "uniform", [sample_value] raises [MissingBound]
    and returns nothing when the lower or the upper bound is absent; with
    both bounds present it returns a value. *)
Theorem uniform_requires_both_bounds {St : Type} (g : Generator St)
    (params : Params) (s : St) :
  lower (get (p_distribution params) "normal") = "uniform" ->
  (min_bound params = None \/ max_bound params = None ->
   sample_value g params s = Raise MissingBound)
  /\ (forall lo hi : Q,
        min_bound params = Some lo -> max_bound params = Some hi ->
        exists (v : Q) (s' : St), sample_value g params s = Ok (v, s')).
Proof.
  intros D. unfold sample_value. rewrite D. simpl. split.
  - intros [H | H]; rewrite H; [| destruct (min_bound params)]; reflexivity.
  - intros lo hi -> ->. simpl.
    destruct (np_uniform g lo hi s) as [val s1]. eauto.
Qed.

Lemma uniform_requires_both_bounds_witness :
  sample_value (constant_generator 3) (bare_params "Uniform" None (Some 5)) O
    = Raise MissingBound
  /\ exists (v : Q) (s' : nat),
       sample_value (constant_generator 3) (bare_params "uniform" (Some 1) (Some 5)) O
         = Ok (v, s').
Proof.
  split.
  - apply (uniform_requires_both_bounds (constant_generator 3)
             (bare_params "Uniform" None (Some 5)) O); [reflexivity |].
    left. reflexivity.
  - apply (uniform_requires_both_bounds (constant_generator 3)
             (bare_params "uniform" (Some 1) (Some 5)) O eq_refl)
      with (lo := 1) (hi := 5); reflexivity.
Defined.

(** ** The fallback standard deviation *)

(** C6 (as amended).  For a test that omits [sd], the standard deviation
    that enters the adjustment, and through it the sampler, is
    [max(0.01, 0.1 * mean)]: the sampling of the test is that of the adjusted
    pair obtained from the mean and this value; with no adjustment, no bound
    and the default distribution, the value stored is the rounding of a draw
    of [np.random.normal] at the mean with this value for scale.  The value
    is exactly 10% of the mean when the mean is at least 0.1, and 0.01 below
    that. *)
Theorem default_sd_is_floored_tenth {St : Type} (g : Generator St)
    (sex : string) (age : Z) (lifestyle : list string) (test_name : string)
    (test_info : TestSpec) (base_mean : Q) (shared_values : dict Q) (s : St) :
  sd test_info = None ->
  mean test_info = Some base_mean ->
  let default_sd := Qmax 0.01 (0.1 * base_mean) in
  sample_test g sex age lifestyle test_name (TestEntry test_info)
    shared_values s
  = ('(adj_mean, adj_sd) <-
       apply_sex_age_lifestyle base_mean default_sd test_info sex age
         (Some lifestyle) ;;
     match dict_get shared_values test_name with
     | Some val => Ok (val, shared_values, s)
     | None =>
         '(val, s') <- sample_value g (tmp_params test_info adj_mean adj_sd) s ;;
         Ok (val, dict_set shared_values test_name val, s')
     end)
  /\ (distribution test_info = None ->
      min_ test_info = None -> min_val test_info = None ->
      max_ test_info = None -> max_val test_info = None ->
      sex_adjustment test_info = None ->
      age_adjustment test_info = None ->
      lifestyle_factors test_info = None ->
      dict_get shared_values test_name = None ->
      sample_test g sex age lifestyle test_name (TestEntry test_info)
        shared_values s
      = (let '(draw, s') := np_normal g base_mean default_sd s in
         Ok (round2 draw, dict_set shared_values test_name (round2 draw), s')))
  /\ (0.1 <= base_mean -> default_sd == 0.1 * base_mean)
  /\ (base_mean < 0.1 -> default_sd == 0.01).
Proof.
  intros Hsd Hmean default_sd.
  assert (E : base_sd_of test_info base_mean = default_sd).
  { unfold base_sd_of, fallback_sd. rewrite Hsd. reflexivity. }
  split; [| split; [| split]].
  - unfold sample_test. rewrite Hmean, E. reflexivity.
  - intros Hd Hmin Hminv Hmax Hmaxv Hsex Hage Hlife Hshared.
    unfold sample_test. rewrite Hmean, E.
    unfold apply_sex_age_lifestyle. rewrite Hsex, Hage, Hlife.
    cbn [bind].
    replace (match Some lifestyle, @None (dict Factor) with
             | Some (fac :: rest), Some factors =>
                 apply_lifestyle factors (fac :: rest) base_mean default_sd
             | _, _ => (base_mean, default_sd)
             end) with (base_mean, default_sd)
      by (destruct lifestyle; reflexivity).
    rewrite Hshared.
    unfold sample_value, tmp_params, min_bound, max_bound.
    cbn [p_distribution p_mean p_sd p_min p_min_val p_max p_max_val].
    rewrite Hd, Hmin, Hminv, Hmax, Hmaxv.
    cbn [get]. change (lower "normal" =? "normal") with true. cbv iota.
    unfold _sample_normal.
    assert (P : Qle_bool 0 default_sd = true).
    { apply Qle_bool_iff. unfold default_sd.
      apply Qle_trans with (y := 0.01); [discriminate | apply Q.le_max_l]. }
    cbn [bind]. rewrite P.
    destruct (np_normal g base_mean default_sd s) as [draw s1].
    reflexivity.
  - intros Hm. apply Q.max_r. lra.
  - intros Hm. apply Q.max_l. lra.
Qed.

Lemma default_sd_is_floored_tenth_witness :
  sample_test revealing_generator "male" 40 [] "ALT"
    (TestEntry (plain_spec 120 None)) [] O
  = Ok (round2 (120 + 100 * Qmax 0.01 (0.1 * 120)),
        [("ALT", round2 (120 + 100 * Qmax 0.01 (0.1 * 120)))], 1%nat)
  /\ Qmax 0.01 (0.1 * 120) == 0.1 * 120.
Proof.
  destruct (default_sd_is_floored_tenth revealing_generator "male" 40 []
              "ALT" (plain_spec 120 None) 120 [] O eq_refl eq_refl)
    as (_ & B & C & _).
  split.
  - rewrite B; reflexivity.
  - apply C. unfold Qle. simpl. lia.
Defined.

(** C6 as stated fails: for mean 0.05 the standard deviation is 0.01, not
    0.005, and the test is not sampled as it would be with a standard
    deviation of 10% of the mean. *)
Lemma default_sd_not_tenth_of_small_mean :
  sd (plain_spec 0.05 None) = None
  /\ ~ (base_sd_of (plain_spec 0.05 None) 0.05 == 0.1 * 0.05)
  /\ sample_test revealing_generator "male" 40 [] "ALT"
       (TestEntry (plain_spec 0.05 None)) [] O
     <> ('(val, s') <-
           sample_value revealing_generator
             (tmp_params (plain_spec 0.05 None) 0.05 (0.1 * 0.05)) O ;;
         Ok (val, dict_set [] "ALT" val, s')).
Proof.
  split; [reflexivity |]. split.
  - intros H. vm_compute in H. discriminate H.
  - intros H. vm_compute in H. discriminate H.
Qed.

(** ** The adjustment engine *)

Lemma band_contains_spec (band : Band) (age : Z) :
  band_contains band age = true <->
  band_min_age band <= inject_Z age <= band_max_age band.
Proof.
  unfold band_contains. rewrite andb_true_iff, !Qle_bool_iff. reflexivity.
Qed.

Lemma apply_age_bands_first_match (pre post : list Band) (band : Band)
    (age : Z) (m s : Q) :
  (forall b, In b pre -> band_contains b age = false) ->
  band_contains band age = true ->
  apply_age_bands (pre ++ band :: post) age m s
  = (m * get (band_mean_multiplier band) 1, s * get (band_sd_multiplier band) 1).
Proof.
  intros Hpre Hb. induction pre as [| b pre IH]; simpl.
  - rewrite Hb. reflexivity.
  - rewrite (Hpre b (or_introl eq_refl)). apply IH.
    intros b' Hin. apply Hpre. right. exact Hin.
Qed.

(** The lifestyle loop multiplies the pair by two products that depend on
    the factors and the list only. *)
Lemma apply_lifestyle_products (factors : dict Factor) (lifestyle : list string) :
  exists pm ps : Q, forall m s : Q,
    fst (apply_lifestyle factors lifestyle m s) == m * pm
    /\ snd (apply_lifestyle factors lifestyle m s) == s * ps.
Proof.
  induction lifestyle as [| fac rest (pm & ps & IH)].
  - exists 1, 1. intros m s. simpl. split; ring.
  - destruct (dict_get factors fac) as [fac_info |] eqn:G.
    + exists (get (mean_multiplier fac_info) 1 * pm),
             (get (sd_multiplier fac_info) 1 * ps).
      intros m s. cbn [apply_lifestyle]. rewrite G.
      destruct (IH (m * get (mean_multiplier fac_info) 1)
                   (s * get (sd_multiplier fac_info) 1)) as [A B].
      destruct (exceptions fac_info) as [[] |]; rewrite A, B; split; ring.
    + exists pm, ps. intros m s. cbn [apply_lifestyle]. rewrite G. apply IH.
Qed.

(** An age step that multiplies the pair by [c] and [d] multiplies the
    result of the whole adjustment by them: the result is that of the test
    without its [age_adjustment], times [c] and [d]. *)
Lemma age_step_scales (age_adj : AgeAdjustment) (age : Z) (c d : Q) :
  (forall m s, apply_age age_adj age m s = (m * c, s * d)) ->
  forall (m s : Q) (test_info : TestSpec) (sex : string)
         (lifestyle : option (list string)),
    match apply_sex_age_lifestyle m s (without_age_adjustment test_info)
            sex age lifestyle with
    | Ok (m0, s0) =>
        exists m' s' : Q,
          apply_sex_age_lifestyle m s (with_age_adjustment test_info age_adj)
            sex age lifestyle = Ok (m', s')
          /\ m' == m0 * c /\ s' == s0 * d
    | Raise e =>
        apply_sex_age_lifestyle m s (with_age_adjustment test_info age_adj)
          sex age lifestyle = Raise e
    end.
Proof.
  intros H m s test_info sex lifestyle. unfold apply_sex_age_lifestyle.
  cbn [age_adjustment sex_adjustment lifestyle_factors with_age_adjustment
       without_age_adjustment].
  destruct (match sex_adjustment test_info with
            | Some mults => _ | None => _ end) as [[m1 s1] | e];
    [| reflexivity].
  cbn [bind]. rewrite H.
  destruct lifestyle as [[| fac rest] |];
    try (exists (m1 * c), (s1 * d); repeat split; reflexivity).
  destruct (lifestyle_factors test_info) as [factors |];
    [| exists (m1 * c), (s1 * d); repeat split; reflexivity].
  destruct (apply_lifestyle_products factors (fac :: rest)) as (pm & ps & P).
  destruct (P m1 s1) as [A0 B0]. destruct (P (m1 * c) (s1 * d)) as [A1 B1].
  destruct (apply_lifestyle factors (fac :: rest) m1 s1) as [m0 s0].
  destruct (apply_lifestyle factors (fac :: rest) (m1 * c) (s1 * d))
    as [m' s'].
  cbn [fst snd] in *. exists m', s'. split; [reflexivity |].
  split; [rewrite A1, A0 | rewrite B1, B0]; ring.
Qed.

(** An age step on a test without sex adjustment, for a patient without
    lifestyle list: the result is the step's. *)
Lemma age_step_alone (age_adj : AgeAdjustment) (age : Z) (m s : Q)
    (test_info : TestSpec) (sex : string) :
  sex_adjustment test_info = None ->
  apply_sex_age_lifestyle m s (with_age_adjustment test_info age_adj)
    sex age None
  = Ok (apply_age age_adj age m s).
Proof.
  intros Hsex. unfold apply_sex_age_lifestyle.
  cbn [age_adjustment sex_adjustment lifestyle_factors with_age_adjustment].
  rewrite Hsex. cbn [bind].
  destruct (apply_age age_adj age m s) as [m2 s2]. reflexivity.
Qed.

(** C7.  With a band list, the band applied is the first one in list order
    whose closed interval [[min_age, max_age]] contains the age.  Its
    multipliers are the age step; the whole adjustment is that of the list
    reduced to this single band, whatever the later bands are; on a test
    without sex adjustment and a patient without lifestyle list the
    adjustment returns the mean and the sd multiplied by the band's
    multipliers; and in general it returns the result for the test without
    age adjustment multiplied by them. *)
Theorem first_matching_band_is_applied (pre post : list Band) (band : Band)
    (age : Z) :
  (forall b, In b pre ->
     ~ (band_min_age b <= inject_Z age <= band_max_age b)) ->
  band_min_age band <= inject_Z age <= band_max_age band ->
  (forall m s : Q,
     apply_age (AgeList (pre ++ band :: post)) age m s
     = (m * get (band_mean_multiplier band) 1,
        s * get (band_sd_multiplier band) 1))
  /\ (forall (m s : Q) (test_info : TestSpec) (sex : string)
             (lifestyle : option (list string)),
        apply_sex_age_lifestyle m s
          (with_age_adjustment test_info (AgeList (pre ++ band :: post)))
          sex age lifestyle
        = apply_sex_age_lifestyle m s
            (with_age_adjustment test_info (AgeList [band])) sex age lifestyle)
  /\ (forall (m s : Q) (test_info : TestSpec) (sex : string),
        sex_adjustment test_info = None ->
        apply_sex_age_lifestyle m s
          (with_age_adjustment test_info (AgeList (pre ++ band :: post)))
          sex age None
        = Ok (m * get (band_mean_multiplier band) 1,
              s * get (band_sd_multiplier band) 1))
  /\ (forall (m s : Q) (test_info : TestSpec) (sex : string)
             (lifestyle : option (list string)),
        match apply_sex_age_lifestyle m s (without_age_adjustment test_info)
                sex age lifestyle with
        | Ok (m0, s0) =>
            exists m' s' : Q,
              apply_sex_age_lifestyle m s
                (with_age_adjustment test_info (AgeList (pre ++ band :: post)))
                sex age lifestyle = Ok (m', s')
              /\ m' == m0 * get (band_mean_multiplier band) 1
              /\ s' == s0 * get (band_sd_multiplier band) 1
        | Raise e =>
            apply_sex_age_lifestyle m s
              (with_age_adjustment test_info (AgeList (pre ++ band :: post)))
              sex age lifestyle = Raise e
        end).
Proof.
  intros Hpre Hb.
  assert (Hpre' : forall b, In b pre -> band_contains b age = false).
  { intros b Hin. destruct (band_contains b age) eqn:E; [| reflexivity].
    exfalso. apply (Hpre b Hin). apply band_contains_spec. exact E. }
  apply band_contains_spec in Hb.
  assert (A : forall m s, apply_age (AgeList (pre ++ band :: post)) age m s
              = apply_age (AgeList [band]) age m s).
  { intros m s. simpl. rewrite Hb.
    apply apply_age_bands_first_match; assumption. }
  assert (S : forall m s,
              apply_age (AgeList (pre ++ band :: post)) age m s
              = (m * get (band_mean_multiplier band) 1,
                 s * get (band_sd_multiplier band) 1)).
  { intros m s. rewrite A. simpl. rewrite Hb. reflexivity. }
  split; [exact S |]. split; [| split].
  - intros m s test_info sex lifestyle. unfold apply_sex_age_lifestyle.
    cbn [age_adjustment sex_adjustment lifestyle_factors with_age_adjustment].
    destruct (match sex_adjustment test_info with
              | Some mults => _ | None => _ end) as [[m1 s1] | e];
      [| reflexivity].
    cbn [bind]. rewrite A. reflexivity.
  - intros m s test_info sex Hsex.
    rewrite (age_step_alone _ _ _ _ _ _ Hsex), S. reflexivity.
  - apply age_step_scales. exact S.
Qed.

Lemma first_matching_band_is_applied_witness :
  apply_age (AgeList ([child_band] ++ adult_band :: [overlapping_band])) 18 10 1
  = (10 * 1.1, 1 * 1.2)
  /\ apply_sex_age_lifestyle 10 1
       (with_age_adjustment (smoker_spec None)
          (AgeList ([child_band] ++ adult_band :: [overlapping_band])))
       "male" 18 (Some ["smoker"])
     = apply_sex_age_lifestyle 10 1
         (with_age_adjustment (smoker_spec None) (AgeList [adult_band]))
         "male" 18 (Some ["smoker"])
  /\ apply_sex_age_lifestyle 10 1
       (with_age_adjustment (plain_spec 10 (Some 1))
          (AgeList ([child_band] ++ adult_band :: [overlapping_band])))
       "male" 18 None
     = Ok (10 * 1.1, 1 * 1.2)
  /\ exists m' s' : Q,
       apply_sex_age_lifestyle 10 1
         (with_age_adjustment (smoker_spec None)
            (AgeList ([child_band] ++ adult_band :: [overlapping_band])))
         "male" 18 (Some ["smoker"]) = Ok (m', s')
       /\ m' == 10 * 1.1 * 1.5 * 1.1
       /\ s' == 1 * 2 * 1.2.
Proof.
  assert (H : forall b, In b [child_band] ->
                ~ (band_min_age b <= inject_Z 18 <= band_max_age b)).
  { intros b [<- | []] [_ H]. vm_compute in H. apply H. reflexivity. }
  assert (H' : band_min_age adult_band <= inject_Z 18 <= band_max_age adult_band).
  { split; vm_compute; discriminate. }
  destruct (first_matching_band_is_applied [child_band] [overlapping_band]
              adult_band 18 H H') as (A & B & C & D).
  split; [apply A |]. split; [apply B |]. split; [apply C; reflexivity |].
  exact (D 10 1 (smoker_spec None) "male" (Some ["smoker"])).
Defined.

Lemma dict_get_same_but_exceptions (d1 d2 : dict Factor) (k : string) :
  factors_same_but_exceptions d1 d2 ->
  match dict_get d1 k, dict_get d2 k with
  | Some f1, Some f2 => same_but_exceptions f1 f2
  | None, None => True
  | _, _ => False
  end.
Proof.
  induction 1 as [| [k1 f1] [k2 f2] d1 d2 [Hk Hf] _ IH]; simpl in *.
  - exact I.
  - subst k2. destruct (k1 =? k); [exact Hf | exact IH].
Qed.

Lemma apply_lifestyle_ignores_exceptions (d1 d2 : dict Factor)
    (lifestyle : list string) :
  factors_same_but_exceptions d1 d2 ->
  forall m s : Q, apply_lifestyle d1 lifestyle m s = apply_lifestyle d2 lifestyle m s.
Proof.
  intros H. induction lifestyle as [| fac rest IH]; intros m s; simpl.
  - reflexivity.
  - pose proof (dict_get_same_but_exceptions d1 d2 fac H) as G.
    destruct (dict_get d1 fac) as [f1 |], (dict_get d2 fac) as [f2 |];
      try contradiction; [| apply IH].
    destruct G as [-> ->].
    destruct (exceptions f1) as [[] |], (exceptions f2) as [[] |]; apply IH.
Qed.

(** C9.  The adjusted pair does not depend on the [exceptions] members of
    the lifestyle factors: two specifications that differ only there get the
    same result, for every mean, sd, sex, age and lifestyle list. *)
Theorem exceptions_do_not_influence_adjustment (t1 t2 : TestSpec) :
  differ_only_in_exceptions t1 t2 ->
  forall (m s : Q) (sex : string) (age : Z) (lifestyle : option (list string)),
    apply_sex_age_lifestyle m s t1 sex age lifestyle
    = apply_sex_age_lifestyle m s t2 sex age lifestyle.
Proof.
  intros (_ & _ & _ & _ & _ & _ & _ & Hsex & Hage & Hl) m s sex age lifestyle.
  unfold apply_sex_age_lifestyle. rewrite Hsex, Hage.
  destruct (match sex_adjustment t2 with
            | Some mults => _ | None => _ end) as [[m1 s1] | e];
    [| reflexivity].
  cbn [bind].
  destruct (match age_adjustment t2 with
            | Some age_adj => _ | None => _ end) as [m2 s2].
  destruct lifestyle as [[| fac rest] |]; try reflexivity.
  destruct (lifestyle_factors t1) as [d1 |], (lifestyle_factors t2) as [d2 |];
    try contradiction; [| reflexivity].
  rewrite (apply_lifestyle_ignores_exceptions d1 d2 (fac :: rest) Hl).
  reflexivity.
Qed.

Lemma exceptions_do_not_influence_adjustment_witness :
  apply_sex_age_lifestyle 10 1
    (smoker_spec (Some (ExceptionsDict [("ALT", 3)]))) "male" 50 (Some ["smoker"])
  = apply_sex_age_lifestyle 10 1 (smoker_spec None) "male" 50 (Some ["smoker"]).
Proof.
  apply (exceptions_do_not_influence_adjustment
           (smoker_spec (Some (ExceptionsDict [("ALT", 3)]))) (smoker_spec None)).
  repeat split. constructor; [| constructor]. repeat split.
Defined.

(** The sex step on a bare number: the mean is multiplied by the entry found
    under the sex key, else under "other", else by 1; the sd is unchanged. *)
Lemma sex_number_multiplies_mean (mults : dict SexEntry) (sex : string)
    (m s : Q) :
  (forall entry, dict_get mults (sex_key_of sex) = Some entry ->
     exists q, entry = SexNumber q) ->
  (dict_get mults (sex_key_of sex) = None ->
   forall entry, dict_get mults "other" = Some entry ->
     exists q, entry = SexNumber q) ->
  apply_sex mults (sex_key_of sex) m s
  = Ok (m * match dict_get mults (sex_key_of sex) with
            | Some (SexNumber q) => q
            | _ => match dict_get mults "other" with
                   | Some (SexNumber q) => q
                   | _ => 1
                   end
            end, s).
Proof.
  intros H1 H2. unfold apply_sex, sex_multiplier.
  destruct (dict_get mults (sex_key_of sex)) as [entry |].
  - destruct (H1 entry eq_refl) as [q ->]. reflexivity.
  - destruct (dict_get mults "other") as [entry |]; [| reflexivity].
    destruct (H2 eq_refl entry eq_refl) as [q ->]. reflexivity.
Qed.

(** A structured entry under the sex key makes the sex step raise, before
    any [sd_multiplier] is read. *)
Lemma structured_sex_entry_raises (m s : Q) (test_info : TestSpec)
    (mults : dict SexEntry) (sex : string) (age : Z)
    (lifestyle : option (list string)) (mm sdm : option Q) :
  sex_adjustment test_info = Some mults ->
  dict_get mults (sex_key_of sex) = Some (SexStructured mm sdm) ->
  apply_sex_age_lifestyle m s test_info sex age lifestyle
  = Raise (float_TypeError "dict").
Proof.
  intros H1 H2. unfold apply_sex_age_lifestyle, apply_sex, sex_multiplier.
  rewrite H1, H2. reflexivity.
Qed.

(** C5 (the code at the failing input).  With the structured entry
    [{multiplier: 1.1, sd_multiplier: 1.2}] under "male", the adjustment of
    mean 10 and sd 1 for a male patient raises [TypeError]; no adjusted sd
    is produced. *)
Theorem structured_sex_adjustment_raises :
  apply_sex_age_lifestyle 10 1 structured_sex_spec "male" 40 None
  = Raise (float_TypeError "dict").
Proof. reflexivity. Qed.

(** ** Panel omission *)

(** C10.  On a condition whose profile declares exactly one panel, when the
    omission branch is taken and the count drawn is 2, generation raises the
    [ValueError] of [random.sample]. *)
Theorem single_panel_generation_can_raise {St : Type} (g : Generator St)
    (sex : string) (age : Z) (lifestyle : list string) (condition : string)
    (profiles : Profiles) (panel : string) (tests : Panel)
    (missing_panel_prob : Q) (s : St) :
  dict_get profiles condition = Some [(panel, tests)] ->
  fst (py_random g s) < missing_panel_prob ->
  fst (choice g 1%nat [1%nat; 2%nat] (snd (py_random g s))) = 2%nat ->
  generate_lab_results g sex age lifestyle condition profiles missing_panel_prob s
  = Raise (ValueError "Sample larger than population or is negative").
Proof.
  intros Hp Hu Hc.
  unfold generate_lab_results, panel_results, choose_panels_to_skip.
  rewrite Hp. destruct (py_random g s) as [u s1]. simpl in Hu, Hc.
  destruct (Qlt_le_dec u missing_panel_prob) as [_ | Hge]; [| lra].
  destruct (choice g 1%nat [1%nat; 2%nat] s1) as [num_missing s2].
  simpl in Hc. subst num_missing. reflexivity.
Qed.

Lemma single_panel_generation_can_raise_witness :
  generate_lab_results omitting_generator "female" 60 ["smoker"] "Anaemia"
    single_panel_profiles 0.14 O
  = Raise (ValueError "Sample larger than population or is negative").
Proof.
  apply (single_panel_generation_can_raise omitting_generator "female" 60
           ["smoker"] "Anaemia" single_panel_profiles "Iron Studies"
           [("Ferritin", TestEntry (plain_spec 30 None))] 0.14 O).
  - reflexivity.
  - vm_compute. reflexivity.
  - reflexivity.
Defined.

(** ** The column schema *)

(** C4 (the code at the failing input).  For the condition "Sepsis", whose
    FBC panel declares no [differential_props], the row generated without
    omission has the ten differential columns and the row generated with the
    FBC panel omitted has not: the two rows of the same condition have
    different column lists. *)
Theorem schema_differs_when_fbc_omitted :
  exists (row_kept row_omitted : Row) (s1 s2 : nat),
    generate_lab_results keeping_generator "female" 60 [] "Sepsis"
      plain_fbc_profiles 0.14 O = Ok (row_kept, s1)
    /\ generate_lab_results omit_first_generator "female" 60 [] "Sepsis"
         plain_fbc_profiles 0.14 O = Ok (row_omitted, s2)
    /\ keys row_omitted = ["Sex"; "Age"; "Condition"; "FBC - WBC"; "LFT - ALT"]
    /\ keys row_kept
       = (keys row_omitted ++ map (column "FBC") differential_keys)%list
    /\ dict_mem row_kept "FBC - Neutrophils (%)" = true
    /\ dict_mem row_omitted "FBC - Neutrophils (%)" = false.
Proof.
  do 4 eexists. split; [vm_compute; reflexivity |].
  split; [vm_compute; reflexivity |].
  repeat split; vm_compute; reflexivity.
Qed.

(** ** The differential reconciliation *)

Lemma fold_left_Qplus (l : list Q) (a : Q) :
  fold_left Qplus l a == a + Qsum l.
Proof.
  unfold Qsum. revert a. induction l as [| x l IH]; intros a; simpl.
  - lra.
  - rewrite (IH (a + x)), (IH (0 + x)). lra.
Qed.

Lemma Qsum_cons (x : Q) (l : list Q) : Qsum (x :: l) == x + Qsum l.
Proof. unfold Qsum at 1. simpl. rewrite fold_left_Qplus. lra. Qed.

Lemma Qsum_set_nth (l : list Q) (i : nat) (v : Q) :
  (i < length l)%nat -> Qsum (set_nth l i v) == Qsum l - nth i l 0 + v.
Proof.
  revert i. induction l as [| x l IH]; intros i Hi; simpl in Hi; [lia |].
  destruct i as [| i]; simpl.
  - rewrite !Qsum_cons. lra.
  - rewrite !Qsum_cons, IH by lia. lra.
Qed.

Lemma set_nth_length {A : Type} (l : list A) (i : nat) (v : A) :
  length (set_nth l i v) = length l.
Proof.
  revert i. induction l as [| x l IH]; intros [| i]; simpl; auto.
Qed.

Lemma argmax_from_lt (l : list Q) (best : Q) (best_idx cur : nat) :
  (best_idx < cur)%nat ->
  (argmax_from best best_idx cur l < cur + length l)%nat.
Proof.
  revert best best_idx cur. induction l as [| x l IH]; intros best bi cur H; simpl.
  - lia.
  - destruct (Qle_bool x best).
    + specialize (IH best bi (S cur)). lia.
    + specialize (IH x cur (S cur)). lia.
Qed.

Lemma argmax_lt (l : list Q) : l <> [] -> (argmax l < length l)%nat.
Proof.
  destruct l as [| x l]; [congruence |]. intros _. simpl.
  pose proof (argmax_from_lt l x O 1%nat). lia.
Qed.

Lemma hundredth_Qsum (l : list Q) : Forall hundredth l -> hundredth (Qsum l).
Proof.
  induction 1 as [| x l Hx _ IH].
  - exists 0%Z. reflexivity.
  - destruct (hundredth_plus x (Qsum l) Hx IH) as [k Hk].
    exists k. rewrite Qsum_cons. exact Hk.
Qed.

Lemma hundredth_nth (l : list Q) (i : nat) :
  Forall hundredth l -> hundredth (nth i l 0).
Proof.
  intros H. revert i. induction H as [| x l Hx _ IH]; intros [| i]; simpl;
    try (exists 0%Z; reflexivity); auto.
Qed.

Lemma reconcile_length (sampled_props : list Q) (total_wbc : Q) :
  length (reconcile sampled_props total_wbc) = length sampled_props.
Proof.
  unfold reconcile. destruct (Qle_bool _ _).
  - rewrite set_nth_length, length_map. reflexivity.
  - apply length_map.
Qed.

(** The reconciled counts add up to the total whenever the total has at most
    two decimals, as every output of [sample_value] has. *)
Lemma reconcile_sum (sampled_props : list Q) (total_wbc : Q) :
  sampled_props <> [] ->
  hundredth total_wbc ->
  Qsum (reconcile sampled_props total_wbc) == total_wbc.
Proof.
  intros Hne Ht. unfold reconcile.
  set (abs_counts := map (fun p => round2 (p * total_wbc)) sampled_props).
  assert (Ha : Forall hundredth abs_counts).
  { apply Forall_forall. intros x Hx. apply in_map_iff in Hx.
    destruct Hx as (p & <- & _). apply round2_hundredth. }
  assert (Hd : hundredth (total_wbc - Qsum abs_counts))
    by (apply hundredth_minus; [exact Ht | apply hundredth_Qsum; exact Ha]).
  pose proof (round2_fix _ Hd) as Ed.
  destruct (Qle_bool 0.01 (Qabs (round2 (total_wbc - Qsum abs_counts)))) eqn:C.
  - assert (Hi : (argmax abs_counts < length abs_counts)%nat).
    { apply argmax_lt. unfold abs_counts. destruct sampled_props; [congruence |].
      discriminate. }
    rewrite Qsum_set_nth by exact Hi.
    rewrite round2_fix.
    + rewrite Ed. lra.
    + apply hundredth_plus; [apply hundredth_nth; exact Ha |].
      apply round2_hundredth.
  - assert (Hs : Qabs (round2 (total_wbc - Qsum abs_counts)) < 0.01).
    { apply Qnot_le_lt. intros Hle. apply Qle_bool_iff in Hle. congruence. }
    pose proof (hundredth_small _ (round2_hundredth _) Hs) as Z0.
    rewrite Ed in Z0. lra.
Qed.

(** ** Dictionaries *)

Lemma dict_get_set {V : Type} (d : dict V) (k k' : string) (v : V) :
  dict_get (dict_set d k v) k' = if k =? k' then Some v else dict_get d k'.
Proof.
  induction d as [| [k0 v0] d IH]; simpl.
  - reflexivity.
  - destruct (String.eqb_spec k0 k) as [-> | N]; simpl.
    + destruct (k =? k'); reflexivity.
    + rewrite IH. destruct (String.eqb_spec k0 k') as [-> | N'];
        [| reflexivity].
      destruct (String.eqb_spec k k') as [-> | _]; [congruence | reflexivity].
Qed.

Lemma dict_get_set_same {V : Type} (d : dict V) (k : string) (v : V) :
  dict_get (dict_set d k v) k = Some v.
Proof. rewrite dict_get_set, String.eqb_refl. reflexivity. Qed.

Lemma dict_get_set_other {V : Type} (d : dict V) (k k' : string) (v : V) :
  k <> k' -> dict_get (dict_set d k v) k' = dict_get d k'.
Proof.
  intros N. rewrite dict_get_set.
  destruct (String.eqb_spec k k'); [congruence | reflexivity].
Qed.

Lemma dict_get_del_other {V : Type} (d : dict V) (k k' : string) :
  k <> k' -> dict_get (dict_del d k) k' = dict_get d k'.
Proof.
  intros N. induction d as [| [k0 v0] d IH]; simpl.
  - reflexivity.
  - destruct (String.eqb_spec k0 k) as [-> | N0]; simpl.
    + destruct (String.eqb_spec k k'); [congruence | reflexivity].
    + rewrite IH. reflexivity.
Qed.

Lemma dict_mem_In {V : Type} (d : dict V) (k : string) :
  dict_mem d k = true <-> In k (keys d).
Proof.
  unfold dict_mem. induction d as [| [k0 v0] d IH]; simpl.
  - split; [discriminate | tauto].
  - destruct (String.eqb_spec k0 k) as [-> | N].
    + split; auto.
    + rewrite IH. split; [auto | intros [E | H]; [congruence | exact H]].
Qed.

Lemma dict_get_In {V : Type} (d : dict V) (k : string) (v : V) :
  dict_get d k = Some v -> In (k, v) d.
Proof.
  induction d as [| [k0 v0] d IH]; simpl; [discriminate |].
  destruct (String.eqb_spec k0 k) as [-> | N].
  - intros [= ->]. left. reflexivity.
  - intros H. right. apply IH. exact H.
Qed.

Lemma In_dict_get {V : Type} (d : dict V) (k : string) (v : V) :
  NoDup (keys d) -> In (k, v) d -> dict_get d k = Some v.
Proof.
  induction d as [| [k0 v0] d IH]; simpl; [tauto |].
  intros ND [E | H].
  - injection E as -> ->. rewrite String.eqb_refl. reflexivity.
  - inversion ND as [| ? ? Hnin ND']; subst.
    destruct (String.eqb_spec k0 k) as [-> | N].
    + exfalso. apply Hnin. apply (in_map fst) in H. exact H.
    + apply IH; assumption.
Qed.

Lemma keys_dict_set {V : Type} (d : dict V) (k : string) (v : V) :
  keys (dict_set d k v) = if dict_mem d k then keys d else (keys d ++ [k])%list.
Proof.
  unfold dict_mem. induction d as [| [k0 v0] d IH]; simpl.
  - reflexivity.
  - destruct (String.eqb_spec k0 k) as [-> | N]; simpl.
    + reflexivity.
    + rewrite IH. destruct (dict_get d k); reflexivity.
Qed.

Lemma NoDup_keys_set {V : Type} (d : dict V) (k : string) (v : V) :
  NoDup (keys d) -> NoDup (keys (dict_set d k v)).
Proof.
  intros ND. rewrite keys_dict_set. destruct (dict_mem d k) eqn:M.
  - exact ND.
  - apply NoDup_app; [exact ND | constructor; [tauto | constructor] |].
    intros x Hx [<- | []]. apply dict_mem_In in Hx. congruence.
Qed.

Lemma incl_keys_set {V : Type} (d : dict V) (k : string) (v : V)
    (K : list string) :
  incl (keys d) K -> In k K -> incl (keys (dict_set d k v)) K.
Proof.
  intros HI Hk. rewrite keys_dict_set. destruct (dict_mem d k).
  - exact HI.
  - apply incl_app; [exact HI |]. intros x [<- | []]. exact Hk.
Qed.

Lemma keys_dict_del_incl {V : Type} (d : dict V) (k : string) :
  incl (keys (dict_del d k)) (keys d).
Proof.
  induction d as [| [k0 v0] d IH]; simpl.
  - apply incl_refl.
  - destruct (k0 =? k); simpl.
    + apply incl_tl, incl_refl.
    + apply incl_cons; [left; reflexivity | apply incl_tl, IH].
Qed.

Lemma NoDup_keys_del {V : Type} (d : dict V) (k : string) :
  NoDup (keys d) -> NoDup (keys (dict_del d k)).
Proof.
  induction d as [| [k0 v0] d IH]; simpl; intros ND.
  - constructor.
  - inversion ND as [| ? ? Hnin ND']; subst.
    destruct (k0 =? k); simpl; [exact ND' |].
    constructor; [| apply IH; exact ND'].
    intros H. apply Hnin. apply (keys_dict_del_incl d k). exact H.
Qed.

(** ** The first pass *)

Lemma extends_refl (sh : dict Q) : extends sh sh.
Proof. intros t v H. exact H. Qed.

Lemma extends_trans (sh1 sh2 sh3 : dict Q) :
  extends sh1 sh2 -> extends sh2 sh3 -> extends sh1 sh3.
Proof. intros H1 H2 t v H. apply H2, H1, H. Qed.

Lemma agrees_with_extends (sh sh' : dict Q) (d : PanelOut) :
  agrees_with sh d -> extends sh sh' -> agrees_with sh' d.
Proof.
  intros A E t x Hx Ht. destruct (A t x Hx Ht) as (v & -> & Hv).
  exists v. split; [reflexivity | apply E, Hv].
Qed.

Section FirstPass.

Context {St : Type} (g : Generator St).
Variables (sex : string) (age : Z) (lifestyle : list string).

(** A test gets the value the shared dictionary holds for its name
    afterwards; entries already shared are left as they are. *)
Lemma sample_test_spec (test_name : string) (entry : Entry)
    (sh sh' : dict Q) (s s' : St) (val : Q) :
  sample_test g sex age lifestyle test_name entry sh s = Ok (val, sh', s') ->
  extends sh sh'
  /\ dict_get sh' test_name = Some val
  /\ (rounded sh -> rounded sh').
Proof.
  unfold sample_test. intros H.
  destruct entry as [test_info | md |]; try discriminate.
  destruct (mean test_info) as [base_mean |]; [| discriminate].
  destruct (apply_sex_age_lifestyle _ _ _ _ _ _) as [[adj_mean adj_sd] | e];
    [| discriminate].
  cbn [bind] in H.
  destruct (dict_get sh test_name) as [v0 |] eqn:G.
  - injection H as <- <- <-. repeat split; auto using extends_refl.
  - destruct (sample_value g _ s) as [[v1 s1] | e] eqn:SV; [| discriminate].
    cbn [bind] in H. injection H as <- <- <-.
    split; [| split].
    + intros t v Ht. rewrite dict_get_set_other; [exact Ht |].
      intros <-. congruence.
    + apply dict_get_set_same.
    + intros R t v. rewrite dict_get_set.
      destruct (test_name =? t).
      * intros [= <-]. eapply sample_value_hundredth, SV.
      * apply R.
Qed.

(** A name already in the shared dictionary is not sampled again: its value
    is returned verbatim and neither the dictionary nor the generator
    changes. *)
Lemma sample_test_reuses_shared (test_name : string) (entry : Entry)
    (sh sh' : dict Q) (s s' : St) (v val : Q) :
  dict_get sh test_name = Some v ->
  sample_test g sex age lifestyle test_name entry sh s = Ok (val, sh', s') ->
  val = v /\ sh' = sh /\ s' = s.
Proof.
  unfold sample_test. intros G H.
  destruct entry as [test_info | md |]; try discriminate.
  destruct (mean test_info) as [base_mean |]; [| discriminate].
  destruct (apply_sex_age_lifestyle _ _ _ _ _ _) as [[adj_mean adj_sd] | e];
    [| discriminate].
  cbn [bind] in H. rewrite G in H. injection H as <- <- <-. auto.
Qed.

Lemma sample_panel_spec (panel_tests : Panel) (declared : list string) :
  incl (keys panel_tests) declared ->
  forall (out out' : PanelOut) (sh sh' : dict Q) (s s' : St),
    sample_panel g sex age lifestyle panel_tests out sh s = Ok (out', sh', s') ->
    panel_inv sh declared out ->
    rounded sh ->
    extends sh sh' /\ panel_inv sh' declared out' /\ rounded sh'.
Proof.
  induction panel_tests as [| [test_name entry] rest IH];
    intros HK out out' sh sh' s s' H (A & ND & HI) R; simpl in H.
  - injection H as <- <- <-. repeat split; auto using extends_refl.
  - assert (Hin : In test_name declared) by (apply HK; left; reflexivity).
    assert (HK' : incl (keys rest) declared)
      by (intros x Hx; apply HK; right; exact Hx).
    destruct (String.eqb_spec test_name "differential_props") as [E | N].
    + apply (IH HK') in H; [exact H | | exact R].
      split; [| split].
      * intros t x. rewrite dict_get_set.
        destruct (String.eqb_spec test_name t) as [<- | _]; [congruence |].
        apply A.
      * apply NoDup_keys_set, ND.
      * apply incl_keys_set; assumption.
    + destruct (sample_test g sex age lifestyle test_name entry sh s)
        as [[[val sh1] s1] | e] eqn:T; [| discriminate].
      cbn [bind] in H.
      destruct (sample_test_spec _ _ _ _ _ _ _ T) as (E1 & G1 & R1).
      apply (IH HK') in H; [| | exact (R1 R)].
      * destruct H as (E2 & P2 & R2).
        split; [eapply extends_trans; eassumption | split; assumption].
      * split; [| split].
        -- intros t x. rewrite dict_get_set.
           destruct (String.eqb_spec test_name t) as [<- | _].
           ++ intros [= <-] _. exists val. split; [reflexivity | exact G1].
           ++ intros Hx Ht. apply (agrees_with_extends sh sh1 out A E1 t x Hx Ht).
        -- apply NoDup_keys_set, ND.
        -- apply incl_keys_set; assumption.
Qed.

Lemma sample_panel_keys (panel_tests : Panel) :
  forall (out out' : PanelOut) (sh sh' : dict Q) (s s' : St),
    sample_panel g sex age lifestyle panel_tests out sh s = Ok (out', sh', s') ->
    incl (keys out) (keys out') /\ incl (keys panel_tests) (keys out').
Proof.
  induction panel_tests as [| [test_name entry] rest IH];
    intros out out' sh sh' s s' H; simpl in H.
  - injection H as <- <- <-. split; [apply incl_refl | intros x []].
  - assert (K : forall (v : PyVal) (o1 : PanelOut),
                incl (keys (dict_set out test_name v)) (keys o1) ->
                incl (keys rest) (keys o1) ->
                incl (keys out) (keys o1)
                /\ incl (keys ((test_name, entry) :: rest)) (keys o1)).
    { intros v o1 H1 H2.
      assert (Hs : incl (keys out) (keys (dict_set out test_name v))).
      { rewrite keys_dict_set. destruct (dict_mem out test_name);
          [apply incl_refl | apply incl_appl, incl_refl]. }
      assert (Ht : In test_name (keys (dict_set out test_name v))).
      { apply dict_mem_In. unfold dict_mem. rewrite dict_get_set_same.
        reflexivity. }
      split; [intros x Hx; apply H1, Hs, Hx |].
      intros x [<- | Hx]; [apply H1, Ht | apply H2, Hx]. }
    destruct (test_name =? "differential_props").
    + apply IH in H. destruct H as [H1 H2]. eapply K; eassumption.
    + destruct (sample_test g sex age lifestyle test_name entry sh s)
        as [[[val sh1] s1] | e]; [| discriminate].
      cbn [bind] in H. apply IH in H. destruct H as [H1 H2].
      eapply K; eassumption.
Qed.

End FirstPass.

Lemma panel_inv_extends (sh sh' : dict Q) (declared : list string)
    (d : PanelOut) :
  panel_inv sh declared d -> extends sh sh' -> panel_inv sh' declared d.
Proof.
  intros (A & ND & HI) E. split; [| split]; try assumption.
  eapply agrees_with_extends; eassumption.
Qed.

Lemma results_inv_set_none (profile : dict Panel) (sh : dict Q)
    (results : Results) (panel : string) :
  In panel (keys profile) ->
  results_inv profile sh results ->
  results_inv profile sh (dict_set results panel None).
Proof.
  intros Hin (P & ND & HI). split; [| split].
  - intros p d. rewrite dict_get_set.
    destruct (panel =? p); [discriminate | apply P].
  - apply NoDup_keys_set, ND.
  - apply incl_keys_set; assumption.
Qed.

Lemma results_inv_set_some (profile : dict Panel) (sh : dict Q)
    (results : Results) (panel : string) (panel_out : PanelOut) :
  In panel (keys profile) ->
  panel_inv sh (declared_tests profile panel) panel_out ->
  incl (declared_tests profile panel) (keys panel_out) ->
  results_inv profile sh results ->
  results_inv profile sh (dict_set results panel (Some panel_out)).
Proof.
  intros Hin Hp Hc (P & ND & HI). split; [| split].
  - intros p d. rewrite dict_get_set.
    destruct (String.eqb_spec panel p) as [<- | _].
    + intros [= <-]. split; assumption.
    + apply P.
  - apply NoDup_keys_set, ND.
  - apply incl_keys_set; assumption.
Qed.

Lemma results_inv_extends (profile : dict Panel) (sh sh' : dict Q)
    (results : Results) :
  results_inv profile sh results -> extends sh sh' ->
  results_inv profile sh' results.
Proof.
  intros (P & ND & HI) E. split; [| split]; try assumption.
  intros p d Hd. destruct (P p d Hd) as [A B].
  split; [eapply panel_inv_extends; eassumption | exact B].
Qed.

Section Passes.

Context {St : Type} (g : Generator St).
Variables (sex : string) (age : Z) (lifestyle : list string).

Lemma sample_panels_spec (profile : dict Panel) (panels_to_skip : list string)
    (panel_names : list string) :
  incl panel_names (keys profile) ->
  forall (results results' : Results) (sh sh' : dict Q) (s s' : St),
    sample_panels g sex age lifestyle profile panel_names panels_to_skip
      results sh s = Ok (results', sh', s') ->
    results_inv profile sh results ->
    rounded sh ->
    results_inv profile sh' results' /\ rounded sh'.
Proof.
  induction panel_names as [| panel rest IH];
    intros HK results results' sh sh' s s' H RI R; simpl in H.
  - injection H as <- <- <-. split; assumption.
  - assert (Hin : In panel (keys profile)) by (apply HK; left; reflexivity).
    assert (HK' : incl rest (keys profile))
      by (intros x Hx; apply HK; right; exact Hx).
    destruct (existsb (String.eqb panel) panels_to_skip).
    + apply (IH HK') in H; [exact H | | exact R].
      apply results_inv_set_none; assumption.
    + destruct (dict_get profile panel) as [panel_tests |] eqn:G; [| discriminate].
      destruct (sample_panel g sex age lifestyle panel_tests [] sh s)
        as [[[panel_out sh1] s1] | e] eqn:SP; [| discriminate].
      cbn [bind] in H.
      assert (D : declared_tests profile panel = keys panel_tests)
        by (unfold declared_tests; rewrite G; reflexivity).
      assert (HD : incl (keys panel_tests) (declared_tests profile panel))
        by (rewrite D; apply incl_refl).
      assert (P0 : panel_inv sh (declared_tests profile panel) []).
      { split; [| split].
        - intros t x Hx. discriminate Hx.
        - constructor.
        - intros x []. }
      destruct (sample_panel_spec g sex age lifestyle panel_tests _ HD
                  _ _ _ _ _ _ SP P0 R) as (E1 & P1 & R1).
      destruct (sample_panel_keys g sex age lifestyle panel_tests
                  _ _ _ _ _ _ SP) as [_ C1].
      apply (IH HK') in H; [exact H | | exact R1].
      apply results_inv_set_some;
        [exact Hin | exact P1 | rewrite D; exact C1 |].
      eapply results_inv_extends; eassumption.
Qed.

(** The two passes: the first-pass results, and the FBC-like panel's
    dictionary replaced by its differential when that panel was sampled. *)
Lemma panel_results_inv (profile : dict Panel) (missing_panel_prob : Q)
    (s s' : St) (results' : Results) (fbc_panel : option string) :
  panel_results g sex age lifestyle profile missing_panel_prob s
    = Ok (results', fbc_panel, s') ->
  fbc_panel = find_fbc_panel (keys profile)
  /\ exists (results : Results) (sh : dict Q),
       results_inv profile sh results /\ rounded sh
       /\ (results' = results
              /\ (forall fbc, fbc_panel = Some fbc ->
                    get (dict_get results fbc) None = None)
           \/ exists (fbc : string) (pre post : PanelOut) (s2 : St),
                fbc_panel = Some fbc
                /\ dict_get results fbc = Some (Some pre)
                /\ add_differential g pre s2 = Ok (post, s')
                /\ results' = dict_set results fbc (Some post)).
Proof.
  unfold panel_results. intros H.
  destruct (choose_panels_to_skip g (keys profile) missing_panel_prob s)
    as [[panels_to_skip s1] | e]; [| discriminate].
  cbn [bind] in H.
  destruct (sample_panels g sex age lifestyle profile (keys profile)
              panels_to_skip [] [] s1) as [[[results sh] s2] | e] eqn:SP;
    [| discriminate].
  cbn [bind] in H.
  destruct (sample_panels_spec profile panels_to_skip (keys profile)
              (incl_refl _) _ _ _ _ _ _ SP) as (RI & R).
  { split; [| split].
    - intros p d Hd. discriminate Hd.
    - constructor.
    - intros x []. }
  { intros t v Hv. discriminate Hv. }
  destruct (find_fbc_panel (keys profile)) as [fbc |] eqn:F.
  - destruct (dict_get results fbc) as [[pre |] |] eqn:G; cbn [get] in H.
    + destruct (add_differential g pre s2) as [[post s3] | e] eqn:AD;
        [| discriminate].
      cbn [bind] in H. injection H as <- <- <-.
      split; [reflexivity |]. exists results, sh. split; [exact RI | split; [exact R |]].
      right. exists fbc, pre, post, s2. auto.
    + injection H as <- <- <-. split; [reflexivity |].
      exists results, sh. split; [exact RI | split; [exact R |]]. left.
      split; [reflexivity |]. intros f [= <-]. rewrite G. reflexivity.
    + injection H as <- <- <-. split; [reflexivity |].
      exists results, sh. split; [exact RI | split; [exact R |]]. left.
      split; [reflexivity |]. intros f [= <-]. rewrite G. reflexivity.
  - injection H as <- <- <-. split; [reflexivity |].
    exists results, sh. split; [exact RI | split; [exact R |]]. left.
    split; [reflexivity |]. intros f Hf. discriminate Hf.
Qed.

End Passes.

(** ** The differential pass *)

Lemma Ok_pair_inj {A B : Type} (a a' : A) (b b' : B) :
  Ok (a, b) = Ok (a', b') -> a = a' /\ b = b'.
Proof. intros [= -> ->]. split; reflexivity. Qed.

Lemma set_differential_none_writes (names : list string) (d : PanelOut) :
  set_differential_none names d = apply_writes d (none_writes names).
Proof.
  revert d. induction names as [| n names IH]; intros d; simpl.
  - reflexivity.
  - rewrite IH. reflexivity.
Qed.

Lemma set_differential_writes (names : list string) (ps qs : list Q)
    (d : PanelOut) :
  set_differential names ps qs d = apply_writes d (differential_writes names ps qs).
Proof.
  revert ps qs d. induction names as [| n names IH]; intros ps qs d; simpl.
  - reflexivity.
  - destruct ps as [| p ps]; [reflexivity |].
    destruct qs as [| q qs]; [reflexivity |].
    simpl. rewrite IH. reflexivity.
Qed.

Lemma none_writes_keys (names : list string) :
  incl (map fst (none_writes names))
       (flat_map (fun n => [pct_key n; abs_key n]) names).
Proof.
  induction names as [| n names IH]; simpl.
  - apply incl_refl.
  - intros x [<- | [<- | H]]; [left | right; left | right; right; apply IH];
      auto.
Qed.

Lemma differential_writes_keys (names : list string) (ps qs : list Q) :
  incl (map fst (differential_writes names ps qs))
       (flat_map (fun n => [pct_key n; abs_key n]) names).
Proof.
  revert ps qs. induction names as [| n names IH]; intros ps qs; simpl.
  - apply incl_refl.
  - destruct ps as [| p ps]; [intros x [] |].
    destruct qs as [| q qs]; [intros x [] |].
    simpl. intros x [<- | [<- | H]];
      [left | right; left | right; right; apply (IH ps qs)]; auto.
Qed.

Lemma apply_writes_get_other (writes : list (string * PyVal)) (d : PanelOut)
    (t : string) :
  ~ In t (map fst writes) ->
  dict_get (apply_writes d writes) t = dict_get d t.
Proof.
  unfold apply_writes. revert d.
  induction writes as [| [k v] writes IH]; intros d Hn; simpl.
  - reflexivity.
  - rewrite IH by (intros H; apply Hn; right; exact H).
    apply dict_get_set_other. intros ->. apply Hn. left. reflexivity.
Qed.

Lemma apply_writes_NoDup (writes : list (string * PyVal)) (d : PanelOut) :
  NoDup (keys d) -> NoDup (keys (apply_writes d writes)).
Proof.
  unfold apply_writes. revert d.
  induction writes as [| [k v] writes IH]; intros d ND; simpl.
  - exact ND.
  - apply IH, NoDup_keys_set, ND.
Qed.

Lemma apply_writes_keys (writes : list (string * PyVal)) (d : PanelOut)
    (K : list string) :
  incl (keys d) K -> incl (map fst writes) K ->
  incl (keys (apply_writes d writes)) K.
Proof.
  unfold apply_writes. revert d.
  induction writes as [| [k v] writes IH]; intros d HI HW; simpl.
  - exact HI.
  - apply IH.
    + apply incl_keys_set; [exact HI | apply HW; left; reflexivity].
    + intros x Hx. apply HW. right. exact Hx.
Qed.

Lemma find_ext {A : Type} (f h : A -> bool) (l : list A) :
  (forall x, In x l -> f x = h x) -> find f l = find h l.
Proof.
  induction l as [| x l IH]; intros H; simpl.
  - reflexivity.
  - rewrite (H x (or_introl eq_refl)), IH; [reflexivity |].
    intros y Hy. apply H. right. exact Hy.
Qed.

Lemma find_app_false {A : Type} (f : A -> bool) (l : list A) (x : A) :
  f x = false -> find f (l ++ [x]) = find f l.
Proof.
  intros Hx. induction l as [| y l IH]; simpl.
  - rewrite Hx. reflexivity.
  - destruct (f y); [reflexivity | exact IH].
Qed.

Lemma wbc_like_alias (k : string) :
  In k wbc_aliases -> wbc_like k = true.
Proof.
  intros H. unfold wbc_like. apply orb_true_iff. left.
  apply existsb_exists. exists k. split; [exact H | apply String.eqb_refl].
Qed.

Lemma not_wbc_like_alias (k a : string) :
  wbc_like k = false -> In a wbc_aliases -> k <> a.
Proof.
  intros H Ha ->. rewrite (wbc_like_alias a Ha) in H. discriminate.
Qed.

Lemma find_wbc_key_wbc_like (d : PanelOut) (k : string) :
  find_wbc_key d = Some k -> wbc_like k = true.
Proof.
  unfold find_wbc_key.
  destruct (find (dict_mem d) wbc_aliases) as [cand |] eqn:F.
  - intros [= <-]. apply find_some in F. apply wbc_like_alias, F.
  - intros H. apply find_some in H. unfold wbc_like.
    apply orb_true_iff. right. apply H.
Qed.

Lemma find_wbc_key_set (d : PanelOut) (k : string) (v : PyVal) :
  wbc_like k = false -> find_wbc_key (dict_set d k v) = find_wbc_key d.
Proof.
  intros W. unfold find_wbc_key.
  rewrite (find_ext (dict_mem (dict_set d k v)) (dict_mem d)).
  - destruct (find (dict_mem d) wbc_aliases); [reflexivity |].
    rewrite keys_dict_set. destruct (dict_mem d k); [reflexivity |].
    apply find_app_false. unfold wbc_like in W.
    apply orb_false_iff in W. apply W.
  - intros a Ha. unfold dict_mem. rewrite dict_get_set_other; [reflexivity |].
    eapply not_wbc_like_alias; eassumption.
Qed.

Lemma find_keys_del {V : Type} (f : string -> bool) (d : dict V) (k : string) :
  f k = false -> find f (keys (dict_del d k)) = find f (keys d).
Proof.
  intros Hk. induction d as [| [k0 v0] d IH]; simpl.
  - reflexivity.
  - destruct (String.eqb_spec k0 k) as [-> | N]; simpl.
    + rewrite Hk. reflexivity.
    + rewrite IH. reflexivity.
Qed.

Lemma find_wbc_key_del (d : PanelOut) (k : string) :
  wbc_like k = false -> find_wbc_key (dict_del d k) = find_wbc_key d.
Proof.
  intros W. unfold find_wbc_key.
  rewrite (find_ext (dict_mem (dict_del d k)) (dict_mem d)).
  - destruct (find (dict_mem d) wbc_aliases); [reflexivity |].
    apply find_keys_del. unfold wbc_like in W.
    apply orb_false_iff in W. apply W.
  - intros a Ha. unfold dict_mem. rewrite dict_get_del_other; [reflexivity |].
    eapply not_wbc_like_alias; eassumption.
Qed.

Lemma find_wbc_key_writes (writes : list (string * PyVal)) (d : PanelOut) :
  (forall k, In k (map fst writes) -> wbc_like k = false) ->
  find_wbc_key (apply_writes d writes) = find_wbc_key d.
Proof.
  unfold apply_writes. revert d.
  induction writes as [| [k v] writes IH]; intros d H; simpl.
  - reflexivity.
  - rewrite IH by (intros k' Hk'; apply H; right; exact Hk').
    apply find_wbc_key_set, H. left. reflexivity.
Qed.

Lemma differential_keys_not_wbc_like (k : string) :
  In k differential_keys -> wbc_like k = false.
Proof.
  intros H. repeat (destruct H as [<- | H]; [vm_compute; reflexivity |]).
  destruct H.
Qed.

Lemma differential_keys_not_metadata :
  ~ In "differential_props" differential_keys.
Proof.
  intros H. repeat (destruct H as [H | H]; [discriminate H |]). destruct H.
Qed.

Lemma set_differential_get_abs (d : PanelOut) (p1 p2 p3 p4 p5 a1 a2 a3 a4 a5 : Q) :
  let post := set_differential diff_names [p1; p2; p3; p4; p5]
                [a1; a2; a3; a4; a5] d in
  dict_get post (abs_key "Neutrophils") = Some (VFloat a1)
  /\ dict_get post (abs_key "Lymphocytes") = Some (VFloat a2)
  /\ dict_get post (abs_key "Monocytes") = Some (VFloat a3)
  /\ dict_get post (abs_key "Eosinophils") = Some (VFloat a4)
  /\ dict_get post (abs_key "Basophils") = Some (VFloat a5).
Proof.
  unfold diff_names. cbn [set_differential].
  repeat split; rewrite !dict_get_set; reflexivity.
Qed.

Section Differential.

Context {St : Type} (g : Generator St).

Lemma dirichlet_five (alpha : list Q) (s s' : St) (props : list Q) :
  dirichlet g alpha s = Ok (props, s') ->
  exists p1 p2 p3 p4 p5, props = [p1; p2; p3; p4; p5].
Proof.
  unfold dirichlet. destruct (existsb _ alpha); [discriminate |].
  destruct (np_dirichlet5 g alpha s) as [[[[[p1 p2] p3] p4] p5] s1].
  intros [= <- _]. eauto 6.
Qed.

(** What the differential leaves alone: every key other than its ten keys
    and the metadata key, the uniqueness of the keys, and the key found for
    the total count. *)
Lemma add_differential_frame (pre post : PanelOut) (s s' : St) :
  add_differential g pre s = Ok (post, s') ->
  (forall t, ~ In t differential_keys -> t <> "differential_props" ->
     dict_get post t = dict_get pre t)
  /\ (NoDup (keys pre) -> NoDup (keys post))
  /\ (forall K, incl (keys pre) K -> incl differential_keys K ->
        incl (keys post) K)
  /\ find_wbc_key post = find_wbc_key pre.
Proof.
  unfold add_differential. intros H.
  destruct (match find_wbc_key pre with
            | Some k => _ | None => None end) as [v |].
  - destruct (py_float v) as [total_wbc | e]; [| discriminate].
    cbn [bind] in H.
    destruct (dirichlet g _ s) as [[sampled_props s1] | e]; [| discriminate].
    cbn [bind] in H.
    rewrite set_differential_writes in H.
    set (writes := differential_writes diff_names sampled_props
                     (reconcile sampled_props total_wbc)) in H.
    assert (HW : incl (map fst writes) differential_keys)
      by apply differential_writes_keys.
    assert (F : (forall t, ~ In t differential_keys ->
                   dict_get (apply_writes pre writes) t = dict_get pre t)
                /\ (NoDup (keys pre) -> NoDup (keys (apply_writes pre writes)))
                /\ (forall K, incl (keys pre) K -> incl differential_keys K ->
                      incl (keys (apply_writes pre writes)) K)
                /\ find_wbc_key (apply_writes pre writes) = find_wbc_key pre).
    { repeat split.
      - intros t Ht. apply apply_writes_get_other. intros Hin. apply Ht, HW, Hin.
      - apply apply_writes_NoDup.
      - intros K H1 H2. apply apply_writes_keys; [exact H1 |].
        intros x Hx. apply H2, HW, Hx.
      - apply find_wbc_key_writes. intros k Hk.
        apply differential_keys_not_wbc_like, HW, Hk. }
    destruct F as (F1 & F2 & F3 & F4).
    destruct (dict_mem (apply_writes pre writes) "differential_props");
      injection H as <- <-.
    + repeat split.
      * intros t Ht Hd. rewrite dict_get_del_other by congruence. apply F1, Ht.
      * intros ND. apply NoDup_keys_del, F2, ND.
      * intros K H1 H2 x Hx. apply (F3 K H1 H2).
        apply (keys_dict_del_incl _ _ _ Hx).
      * rewrite find_wbc_key_del by (vm_compute; reflexivity). exact F4.
    + repeat split; auto.
  - rewrite set_differential_none_writes in H.
    apply Ok_pair_inj in H. destruct H as [<- <-].
    assert (HW : incl (map fst (none_writes diff_names)) differential_keys)
      by apply none_writes_keys.
    repeat split.
    + intros t Ht _. apply apply_writes_get_other. intros Hin. apply Ht, HW, Hin.
    + apply apply_writes_NoDup.
    + intros K H1 H2. apply apply_writes_keys; [exact H1 |].
      intros x Hx. apply H2, HW, Hx.
    + apply find_wbc_key_writes. intros k Hk.
      apply differential_keys_not_wbc_like, HW, Hk.
Qed.

(** The differential of a dictionary whose total count has two decimals:
    the five absolute counts stored add up to the total. *)
Lemma add_differential_counts (pre post : PanelOut) (s s' : St)
    (k : string) (total : Q) :
  add_differential g pre s = Ok (post, s') ->
  (forall t q, dict_get pre t = Some (VFloat q) -> t <> "differential_props" ->
     hundredth q) ->
  find_wbc_key post = Some k ->
  dict_get post k = Some (VFloat total) ->
  exists a1 a2 a3 a4 a5 : Q,
    dict_get post (abs_key "Neutrophils") = Some (VFloat a1)
    /\ dict_get post (abs_key "Lymphocytes") = Some (VFloat a2)
    /\ dict_get post (abs_key "Monocytes") = Some (VFloat a3)
    /\ dict_get post (abs_key "Eosinophils") = Some (VFloat a4)
    /\ dict_get post (abs_key "Basophils") = Some (VFloat a5)
    /\ a1 + a2 + a3 + a4 + a5 == total.
Proof.
  intros H HR Hk Hv.
  destruct (add_differential_frame pre post s s' H) as (F1 & _ & _ & F4).
  rewrite F4 in Hk.
  pose proof (find_wbc_key_wbc_like pre k Hk) as W.
  assert (Nk : ~ In k differential_keys).
  { intros Hin. rewrite (differential_keys_not_wbc_like k Hin) in W.
    discriminate. }
  assert (Nd : k <> "differential_props").
  { intros ->. vm_compute in W. discriminate. }
  rewrite (F1 k Nk Nd) in Hv.
  pose proof (HR k total Hv Nd) as Ht.
  unfold add_differential in H. rewrite Hk, Hv in H. cbn [py_float bind] in H.
  destruct (dirichlet g _ s) as [[sampled_props s1] | e] eqn:D; [| discriminate].
  cbn [bind] in H.
  destruct (dirichlet_five _ _ _ _ D) as (p1 & p2 & p3 & p4 & p5 & ->).
  pose proof (reconcile_length [p1; p2; p3; p4; p5] total) as L.
  pose proof (reconcile_sum [p1; p2; p3; p4; p5] total
                ltac:(discriminate) Ht) as S.
  destruct (reconcile [p1; p2; p3; p4; p5] total)
    as [| a1 [| a2 [| a3 [| a4 [| a5 [| a6 rest]]]]]]; try discriminate L.
  exists a1, a2, a3, a4, a5.
  destruct (set_differential_get_abs pre p1 p2 p3 p4 p5 a1 a2 a3 a4 a5)
    as (G1 & G2 & G3 & G4 & G5).
  assert (E : forall t, t <> "differential_props" ->
                dict_get post t
                = dict_get (set_differential diff_names [p1; p2; p3; p4; p5]
                              [a1; a2; a3; a4; a5] pre) t).
  { intros t Hn. destruct (dict_mem _ "differential_props");
      injection H as <- <-; [| reflexivity].
    apply dict_get_del_other. congruence. }
  rewrite !E by discriminate.
  repeat (split; [assumption |]).
  unfold Qsum in S. simpl in S. lra.
Qed.

End Differential.

(** ** Filling the row *)

Lemma populate_panel_cases (panel : string) (vals : PanelOut) (c : string) :
  forall row : Row,
    (dict_get (populate_panel panel vals row) c = dict_get row c
     /\ forall t x, In (t, x) vals -> t <> "differential_props" ->
          column panel t <> c)
    \/ exists t x, In (t, x) vals /\ t <> "differential_props"
                   /\ column panel t = c
                   /\ dict_get (populate_panel panel vals row) c = Some x.
Proof.
  induction vals as [| [t0 v0] rest IH]; intros row; simpl.
  - left. split; [reflexivity | intros t x []].
  - destruct (String.eqb_spec t0 "differential_props") as [E | N].
    + destruct (IH row) as [[G Hno] | (t & x & Hin & Ht & Hc & G)].
      * left. split; [exact G |].
        intros t x [[= <- <-] | Hin] Ht; [congruence | eauto].
      * right. exists t, x. auto.
    + destruct (IH (dict_set row (column panel t0) v0))
        as [[G Hno] | (t & x & Hin & Ht & Hc & G)].
      * rewrite dict_get_set in G.
        destruct (String.eqb_spec (column panel t0) c) as [Ec | Nc].
        -- right. exists t0, v0. auto.
        -- left. split; [exact G |].
           intros t x [[= <- <-] | Hin] Ht; [exact Nc | eauto].
      * right. exists t, x. auto.
Qed.

Lemma populate_cases (results : Results) (c : string) :
  forall row : Row,
    (dict_get (populate results row) c = dict_get row c
     /\ forall p d t x, In (p, Some d) results -> In (t, x) d ->
          t <> "differential_props" -> column p t <> c)
    \/ exists p d t x, In (p, Some d) results /\ In (t, x) d
                       /\ t <> "differential_props" /\ column p t = c
                       /\ dict_get (populate results row) c = Some x.
Proof.
  induction results as [| [p0 [d0 |]] rest IH]; intros row; simpl.
  - left. split; [reflexivity | intros p d t x []].
  - destruct (IH (populate_panel p0 d0 row))
      as [[G Hno] | (p & d & t & x & Hin & Hx & Ht & Hc & G)].
    + destruct (populate_panel_cases p0 d0 c row)
        as [[G0 Hno0] | (t & x & Hx & Ht & Hc & G0)].
      * left. split; [congruence |].
        intros p d t x [[= <- <-] | Hin]; eauto.
      * right. exists p0, d0, t, x. repeat split; auto. congruence.
    + right. exists p, d, t, x. auto 6.
  - destruct (IH row) as [[G Hno] | (p & d & t & x & Hin & Hx & Ht & Hc & G)].
    + left. split; [exact G |].
      intros p d t x [E | Hin]; [discriminate E | eauto].
    + right. exists p, d, t, x. auto 6.
Qed.

Lemma In_declared_cells (profile : dict Panel) (p t : string) :
  In p (keys profile) ->
  In t (declared_tests profile p ++ differential_keys) ->
  In (p, t) (declared_cells profile).
Proof.
  intros Hp Ht. unfold declared_cells. apply in_flat_map.
  exists p. split; [exact Hp |]. apply in_map. exact Ht.
Qed.

Lemma unambiguous_columnsb_sound (profile : dict Panel) :
  unambiguous_columnsb profile = true -> unambiguous_columns profile.
Proof.
  unfold unambiguous_columnsb. intros H [p1 t1] [p2 t2] H1 H2 E.
  rewrite forallb_forall in H. specialize (H _ H1).
  rewrite forallb_forall in H. specialize (H _ H2).
  cbn [fst snd] in *. rewrite E, String.eqb_refl in H. simpl in H.
  unfold cell_eqb in H. cbn [fst snd] in H.
  apply andb_true_iff in H. destruct H as [A B].
  apply String.eqb_eq in A, B. congruence.
Qed.

(** With unambiguous column names, a cell of the results is read back from
    the row under its column. *)
Lemma populate_cell (profile : dict Panel) (results : Results)
    (p t : string) (d : PanelOut) (x : PyVal) :
  final_inv profile results ->
  unambiguous_columns profile ->
  dict_get results p = Some (Some d) ->
  dict_get d t = Some x ->
  t <> "differential_props" ->
  forall row0 : Row, dict_get (populate results row0) (column p t) = Some x.
Proof.
  intros (ND & FI) U Hd Hx Ht row0.
  destruct (FI p d Hd) as (Hp & NDd & Id).
  destruct (populate_cases results (column p t) row0)
    as [[_ Hno] | (p' & d' & t' & x' & Hin & Hx' & Ht' & Hc & G)].
  - exfalso. apply (Hno p d t x); auto using dict_get_In.
  - pose proof (In_dict_get results p' (Some d') ND Hin) as Hd'.
    destruct (FI p' d' Hd') as (Hp' & NDd' & Id').
    assert (C : (p', t') = (p, t)).
    { apply U; [| | exact Hc].
      - apply In_declared_cells; [exact Hp' |]. apply Id'.
        apply (in_map fst) in Hx'. exact Hx'.
      - apply In_declared_cells; [exact Hp |]. apply Id.
        apply dict_get_In in Hx. apply (in_map fst) in Hx. exact Hx. }
    injection C as -> ->.
    rewrite Hd in Hd'. injection Hd' as <-.
    rewrite (In_dict_get d t x' NDd Hx') in Hx. congruence.
Qed.

Section RowProperties.

Context {St : Type} (g : Generator St).
Variables (sex : string) (age : Z) (lifestyle : list string).

Lemma dict_get_keys {V : Type} (d : dict V) (k : string) (v : V) :
  dict_get d k = Some v -> In k (keys d).
Proof. intros H. apply dict_get_In in H. apply (in_map fst) in H. exact H. Qed.

Lemma panel_results_final (profile : dict Panel) (missing_panel_prob : Q)
    (s s' : St) (results : Results) (fbc_panel : option string) :
  panel_results g sex age lifestyle profile missing_panel_prob s
    = Ok (results, fbc_panel, s') ->
  final_inv profile results.
Proof.
  intros H.
  destruct (panel_results_inv g sex age lifestyle _ _ _ _ _ _ H)
    as (_ & results0 & sh & (P & ND & HI) & R & C).
  assert (B : forall p d, dict_get results0 p = Some (Some d) ->
                In p (keys profile)
                /\ NoDup (keys d)
                /\ incl (keys d) (declared_tests profile p ++ differential_keys)).
  { intros p d Hd. destruct (P p d Hd) as ((_ & NDd & Id) & _).
    split; [apply HI; eapply dict_get_keys; exact Hd |].
    split; [exact NDd | apply incl_appl, Id]. }
  destruct C as [[-> _] | (fbc & pre & post & s2 & -> & Hpre & AD & ->)].
  - split; assumption.
  - split; [apply NoDup_keys_set, ND |].
    intros p d. rewrite dict_get_set.
    destruct (String.eqb_spec fbc p) as [<- | _]; [| apply B].
    intros [= <-]. destruct (B fbc pre Hpre) as (Hp & NDd & Id).
    destruct (add_differential_frame g pre post s2 s' AD) as (_ & F2 & F3 & _).
    split; [exact Hp |]. split; [apply F2, NDd |].
    apply F3; [exact Id | apply incl_appr, incl_refl].
Qed.

End RowProperties.

(** ** The generated row *)

Section GeneratedRow.

Context {St : Type} (g : Generator St).
Variables (sex : string) (age : Z) (lifestyle : list string).

(** The row of a successful generation is filled from the per-panel results
    of the same run. *)
Lemma generate_lab_results_row (condition : string) (profiles : Profiles)
    (profile : dict Panel) (missing_panel_prob : Q) (s s' s'' : St)
    (row : Row) (results : Results) (fbc_panel : option string) :
  dict_get profiles condition = Some profile ->
  generate_lab_results g sex age lifestyle condition profiles
    missing_panel_prob s = Ok (row, s') ->
  panel_results g sex age lifestyle profile missing_panel_prob s
    = Ok (results, fbc_panel, s'') ->
  exists row0 : Row, row = populate results row0.
Proof.
  intros Hp Hg Hr. unfold generate_lab_results in Hg. rewrite Hp, Hr in Hg.
  cbn [bind] in Hg. apply Ok_pair_inj in Hg. destruct Hg as [<- _].
  eexists. reflexivity.
Qed.

(** C2.  In a generated row whose FBC-like panel was sampled and whose
    located total count is a number, the five absolute counts stored by the
    differential add up to the total count within 0.01; with unambiguous
    column names these are the values of the five count columns and of the
    total's column of the row. *)
Theorem differential_counts_sum_to_total (condition : string)
    (profiles : Profiles) (profile : dict Panel) (missing_panel_prob : Q)
    (s s' s'' : St) (row : Row) (results : Results) (fbc : string)
    (vals : PanelOut) (k : string) (total : Q) :
  dict_get profiles condition = Some profile ->
  generate_lab_results g sex age lifestyle condition profiles
    missing_panel_prob s = Ok (row, s') ->
  panel_results g sex age lifestyle profile missing_panel_prob s
    = Ok (results, Some fbc, s'') ->
  dict_get results fbc = Some (Some vals) ->
  find_wbc_key vals = Some k ->
  dict_get vals k = Some (VFloat total) ->
  exists a1 a2 a3 a4 a5 : Q,
    dict_get vals (abs_key "Neutrophils") = Some (VFloat a1)
    /\ dict_get vals (abs_key "Lymphocytes") = Some (VFloat a2)
    /\ dict_get vals (abs_key "Monocytes") = Some (VFloat a3)
    /\ dict_get vals (abs_key "Eosinophils") = Some (VFloat a4)
    /\ dict_get vals (abs_key "Basophils") = Some (VFloat a5)
    /\ Qabs (a1 + a2 + a3 + a4 + a5 - total) < 0.01
    /\ (unambiguous_columns profile ->
        dict_get row (column fbc (abs_key "Neutrophils")) = Some (VFloat a1)
        /\ dict_get row (column fbc (abs_key "Lymphocytes")) = Some (VFloat a2)
        /\ dict_get row (column fbc (abs_key "Monocytes")) = Some (VFloat a3)
        /\ dict_get row (column fbc (abs_key "Eosinophils")) = Some (VFloat a4)
        /\ dict_get row (column fbc (abs_key "Basophils")) = Some (VFloat a5)
        /\ dict_get row (column fbc k) = Some (VFloat total)).
Proof.
  intros Hp Hg Hr Hv Hk Ht.
  destruct (generate_lab_results_row _ _ _ _ _ _ _ _ _ _ Hp Hg Hr) as [row0 ->].
  pose proof (panel_results_final g sex age lifestyle _ _ _ _ _ _ Hr) as FI.
  destruct (panel_results_inv g sex age lifestyle _ _ _ _ _ _ Hr)
    as (_ & results0 & sh & (P & _ & _) & R & C).
  destruct C as [[-> N] | (fbc' & pre & post & s2 & E & Hpre & AD & ->)].
  { specialize (N fbc eq_refl). rewrite Hv in N. discriminate N. }
  injection E as <-. rewrite dict_get_set_same in Hv. injection Hv as <-.
  destruct (P fbc pre Hpre) as ((A & _ & _) & _).
  destruct (add_differential_counts g pre post s2 s'' k total AD)
    as (a1 & a2 & a3 & a4 & a5 & G1 & G2 & G3 & G4 & G5 & S); try assumption.
  { intros t q Hq Hn. destruct (A t _ Hq Hn) as (v & [= ->] & Hs).
    apply (R t v Hs). }
  exists a1, a2, a3, a4, a5.
  repeat (split; [assumption |]).
  split.
  { apply Qabs_Qlt_condition. split; lra. }
  intros U.
  assert (W : wbc_like k = true) by (eapply find_wbc_key_wbc_like; eassumption).
  assert (Nd : k <> "differential_props")
    by (intros ->; vm_compute in W; discriminate).
  assert (Hfbc : dict_get (dict_set results0 fbc (Some post)) fbc
                 = Some (Some post)) by apply dict_get_set_same.
  repeat split;
    apply (populate_cell profile _ fbc _ post _ FI U Hfbc);
    solve [assumption | discriminate].
Qed.

(** C3 (as amended).  A test name declared in two sampled panels holds one
    and the same sampled value in the result dictionaries of both panels,
    provided it is not one of the ten keys the differential writes into the
    FBC-like panel (or neither panel is that panel); with unambiguous column
    names that value is the one under both of its columns of the row. *)
Theorem recurring_test_has_one_value (condition : string)
    (profiles : Profiles) (profile : dict Panel) (missing_panel_prob : Q)
    (s s' s'' : St) (row : Row) (results : Results)
    (fbc_panel : option string) (p1 p2 t : string) (d1 d2 : PanelOut) :
  dict_get profiles condition = Some profile ->
  generate_lab_results g sex age lifestyle condition profiles
    missing_panel_prob s = Ok (row, s') ->
  panel_results g sex age lifestyle profile missing_panel_prob s
    = Ok (results, fbc_panel, s'') ->
  dict_get results p1 = Some (Some d1) ->
  dict_get results p2 = Some (Some d2) ->
  In t (declared_tests profile p1) ->
  In t (declared_tests profile p2) ->
  t <> "differential_props" ->
  ~ In t differential_keys \/ (fbc_panel <> Some p1 /\ fbc_panel <> Some p2) ->
  exists v : Q,
    dict_get d1 t = Some (VFloat v)
    /\ dict_get d2 t = Some (VFloat v)
    /\ (unambiguous_columns profile ->
        dict_get row (column p1 t) = Some (VFloat v)
        /\ dict_get row (column p2 t) = Some (VFloat v)).
Proof.
  intros Hp Hg Hr H1 H2 T1 T2 Nd Hcase.
  destruct (generate_lab_results_row _ _ _ _ _ _ _ _ _ _ Hp Hg Hr) as [row0 ->].
  pose proof (panel_results_final g sex age lifestyle _ _ _ _ _ _ Hr) as FI.
  destruct (panel_results_inv g sex age lifestyle _ _ _ _ _ _ Hr)
    as (_ & results0 & sh & (P & _ & _) & R & C).
  (* the value of [t] in a first-pass dictionary of a panel declaring it *)
  assert (FP : forall p d, dict_get results0 p = Some (Some d) ->
                 In t (declared_tests profile p) ->
                 exists v, dict_get d t = Some (VFloat v)
                           /\ dict_get sh t = Some v).
  { intros p d Hd Ht. destruct (P p d Hd) as ((A & _ & _) & Cp).
    apply Cp in Ht. apply dict_mem_In in Ht. unfold dict_mem in Ht.
    destruct (dict_get d t) as [x |] eqn:G; [| discriminate].
    destruct (A t x G Nd) as (v & -> & Hs). eauto. }
  (* and in a dictionary after the differential pass *)
  assert (FF : forall p d, dict_get results p = Some (Some d) ->
                 In t (declared_tests profile p) ->
                 ~ In t differential_keys \/ fbc_panel <> Some p ->
                 exists v, dict_get d t = Some (VFloat v)
                           /\ dict_get sh t = Some v).
  { intros p d Hd Ht Hc.
    destruct C as [[-> _] | (fbc & pre & post & s2 & -> & Hpre & AD & ->)].
    - apply (FP p d Hd Ht).
    - rewrite dict_get_set in Hd.
      destruct (String.eqb_spec fbc p) as [<- | Nf]; [| apply (FP p d Hd Ht)].
      injection Hd as <-.
      destruct Hc as [Hc | Hc]; [| congruence].
      destruct (add_differential_frame g pre post s2 s'' AD) as (F1 & _).
      rewrite (F1 t Hc Nd). apply (FP fbc pre Hpre Ht). }
  destruct (FF p1 d1 H1 T1) as (v1 & G1 & S1); [tauto |].
  destruct (FF p2 d2 H2 T2) as (v2 & G2 & S2); [tauto |].
  assert (v2 = v1) by congruence. subst v2.
  exists v1. split; [exact G1 | split; [exact G2 |]].
  intros U. split.
  - apply (populate_cell profile results p1 t d1 _ FI U H1 G1 Nd).
  - apply (populate_cell profile results p2 t d2 _ FI U H2 G2 Nd).
Qed.

End GeneratedRow.

Lemma sepsis_columns_unambiguous : unambiguous_columns sepsis_panels.
Proof. apply unambiguous_columnsb_sound. vm_compute. reflexivity. Qed.

Lemma differential_counts_sum_to_total_witness :
  exists a1 a2 a3 a4 a5 : Q,
    dict_get sepsis_row "FBC - Neutrophils (×10^9/L)" = Some (VFloat a1)
    /\ dict_get sepsis_row "FBC - Lymphocytes (×10^9/L)" = Some (VFloat a2)
    /\ dict_get sepsis_row "FBC - Monocytes (×10^9/L)" = Some (VFloat a3)
    /\ dict_get sepsis_row "FBC - Eosinophils (×10^9/L)" = Some (VFloat a4)
    /\ dict_get sepsis_row "FBC - Basophils (×10^9/L)" = Some (VFloat a5)
    /\ dict_get sepsis_row "FBC - WBC" = Some (VFloat 8.12)
    /\ Qabs (a1 + a2 + a3 + a4 + a5 - 8.12) < 0.01.
Proof.
  destruct (differential_counts_sum_to_total keeping_generator "female" 60 []
              "Sepsis" sepsis_profiles sepsis_panels 0.14 O 4%nat 4%nat
              sepsis_row sepsis_results "FBC" sepsis_fbc_vals "WBC" 8.12)
    as (a1 & a2 & a3 & a4 & a5 & _ & _ & _ & _ & _ & S & Hrow);
    try (vm_compute; reflexivity).
  destruct (Hrow sepsis_columns_unambiguous) as (R1 & R2 & R3 & R4 & R5 & R6).
  exists a1, a2, a3, a4, a5. repeat (split; [assumption |]). exact S.
Defined.

Lemma recurring_test_has_one_value_witness :
  exists v : Q,
    dict_get sepsis_row "FBC - WBC" = Some (VFloat v)
    /\ dict_get sepsis_row "Inflammatory Markers - WBC" = Some (VFloat v).
Proof.
  destruct (recurring_test_has_one_value keeping_generator "female" 60 []
              "Sepsis" sepsis_profiles sepsis_panels 0.14 O 4%nat 4%nat
              sepsis_row sepsis_results (Some "FBC") "FBC"
              "Inflammatory Markers" "WBC" sepsis_fbc_vals sepsis_markers_vals)
    as (v & _ & _ & Hrow); try (vm_compute; reflexivity).
  - simpl. tauto.
  - simpl. tauto.
  - discriminate.
  - left. intros H. repeat (destruct H as [H | H]; [discriminate H |]).
    destruct H.
  - exists v. apply Hrow, sepsis_columns_unambiguous.
Defined.

(** C3 as stated fails: "Neutrophils (%)" is declared in the FBC panel and in
    a second panel, both sampled; the row holds the differential's
    percentage under the FBC column and the sampled value under the other. *)
Lemma recurring_test_overwritten_by_differential :
  exists (row : Row) (s' : nat),
    generate_lab_results keeping_generator "female" 60 [] "Sepsis"
      overwritten_profiles 0.14 O = Ok (row, s')
    /\ dict_get row "FBC - Neutrophils (%)" = Some (VFloat 50.00)
    /\ dict_get row "Immunology - Neutrophils (%)" = Some (VFloat 9.12)
    /\ ~ 50.00 == 9.12.
Proof.
  do 2 eexists. split; [vm_compute; reflexivity |].
  split; [vm_compute; reflexivity |].
  split; [vm_compute; reflexivity |].
  intros H. vm_compute in H. discriminate H.
Qed.

(** ** The column schema when the metadata is declared *)

Lemma keys_dict_set_present {V : Type} (d : dict V) (k : string) (v : V) :
  In k (keys d) -> keys (dict_set d k v) = keys d.
Proof.
  intros H. rewrite keys_dict_set.
  apply dict_mem_In in H. rewrite H. reflexivity.
Qed.

Lemma keys_populate_panel (panel : string) (vals : PanelOut) :
  forall row : Row,
    (forall t, In t (keys vals) -> t <> "differential_props" ->
       In (column panel t) (keys row)) ->
    keys (populate_panel panel vals row) = keys row.
Proof.
  induction vals as [| [t0 v0] rest IH]; intros row H; simpl.
  - reflexivity.
  - destruct (String.eqb_spec t0 "differential_props") as [E | N].
    + apply IH. intros t Ht. apply H. right. exact Ht.
    + assert (K : keys (dict_set row (column panel t0) v0) = keys row).
      { apply keys_dict_set_present. apply H; [left; reflexivity | exact N]. }
      rewrite IH; [exact K |].
      intros t Ht Hn. rewrite K. apply H; [right; exact Ht | exact Hn].
Qed.

Lemma keys_populate (results : Results) :
  forall row : Row,
    (forall p d t, In (p, Some d) results -> In t (keys d) ->
       t <> "differential_props" -> In (column p t) (keys row)) ->
    keys (populate results row) = keys row.
Proof.
  induction results as [| [p0 [d0 |]] rest IH]; intros row H; simpl.
  - reflexivity.
  - assert (K : keys (populate_panel p0 d0 row) = keys row).
    { apply keys_populate_panel. intros t Ht Hn.
      apply (H p0 d0 t); [left; reflexivity | exact Ht | exact Hn]. }
    rewrite IH; [exact K |].
    intros p d t Hin Ht Hn. rewrite K. apply (H p d t); [right | |]; assumption.
  - apply IH. intros p d t Hin. apply (H p d t). right. exact Hin.
Qed.

Lemma existsb_eqb_In (c : string) (l : list string) :
  existsb (String.eqb c) l = true <-> In c l.
Proof.
  rewrite existsb_exists. split.
  - intros (x & Hx & E). apply String.eqb_eq in E. subst. exact Hx.
  - intros H. exists c. split; [exact H | apply String.eqb_refl].
Qed.

Lemma In_dedupe (all_cols : list string) :
  forall (seen : list string) (x : string),
    In x (dedupe seen all_cols) <-> In x all_cols /\ ~ In x seen.
Proof.
  induction all_cols as [| c rest IH]; intros seen x; simpl.
  - tauto.
  - destruct (existsb (String.eqb c) seen) eqn:E.
    + apply existsb_eqb_In in E. rewrite IH. split.
      * intros [H1 H2]. auto.
      * intros [[-> | H1] H2]; [contradiction | auto].
    + assert (Hc : ~ In c seen).
      { intros H. apply existsb_eqb_In in H. congruence. }
      simpl. rewrite IH. simpl. split.
      * intros [<- | [H1 H2]]; [auto | tauto].
      * intros [[<- | H1] H2]; [auto |].
        destruct (string_dec c x) as [-> | N]; [auto | tauto].
Qed.

Lemma keys_initial_row (sex : string) (age : Z) (condition : string)
    (cols : list string) :
  In "Sex" cols -> In "Age" cols -> In "Condition" cols ->
  keys (initial_row sex age condition cols) = cols.
Proof.
  intros H1 H2 H3. unfold initial_row.
  assert (K : keys (map (fun c => (c, VNone)) cols) = cols).
  { unfold keys. rewrite map_map. apply map_id. }
  set (r0 := map (fun c => (c, VNone)) cols) in *.
  assert (K1 : keys (dict_set r0 "Sex" (VStr sex)) = cols)
    by (rewrite keys_dict_set_present; rewrite K; auto).
  assert (K2 : keys (dict_set (dict_set r0 "Sex" (VStr sex)) "Age" (VInt age))
               = cols)
    by (rewrite keys_dict_set_present; rewrite K1; auto).
  rewrite keys_dict_set_present; rewrite K2; auto.
Qed.

Lemma In_all_columns_test (profile : dict Panel) (panel_names : list string)
    (fbc_panel : option string) (p t : string) :
  In p panel_names ->
  In t (declared_tests profile p) ->
  t <> "differential_props" ->
  In (column p t) (all_columns profile panel_names fbc_panel).
Proof.
  intros Hp Ht Hn. unfold all_columns. apply in_or_app. right.
  apply in_flat_map. exists p. split; [exact Hp |].
  unfold panel_columns. apply in_flat_map. exists t. split; [exact Ht |].
  destruct (String.eqb_spec t "differential_props"); [contradiction |].
  left. reflexivity.
Qed.

Lemma In_all_columns_differential (profile : dict Panel)
    (panel_names : list string) (fbc k : string) :
  In fbc panel_names ->
  In "differential_props" (declared_tests profile fbc) ->
  In k differential_keys ->
  In (column fbc k) (all_columns profile panel_names (Some fbc)).
Proof.
  intros Hp Hd Hk. unfold all_columns. apply in_or_app. right.
  apply in_flat_map. exists fbc. split; [exact Hp |].
  unfold panel_columns. apply in_flat_map.
  exists "differential_props". split; [exact Hd |].
  rewrite (String.eqb_refl "differential_props"), (String.eqb_refl fbc).
  cbv iota.
  unfold differential_keys in Hk. apply in_flat_map in Hk.
  destruct Hk as (n & Hn & Hk). apply in_flat_map. exists n.
  split; [exact Hn |]. destruct Hk as [<- | [<- | []]]; simpl; auto.
Qed.

Section Schema.

Context {St : Type} (g : Generator St).
Variables (sex : string) (age : Z) (lifestyle : list string).

(** The keys of a result dictionary: declared tests, and the differential
    keys in the FBC-like panel only. *)
Lemma panel_results_keys (profile : dict Panel) (missing_panel_prob : Q)
    (s s' : St) (results : Results) (fbc_panel : option string) :
  panel_results g sex age lifestyle profile missing_panel_prob s
    = Ok (results, fbc_panel, s') ->
  forall p d, dict_get results p = Some (Some d) ->
    incl (keys d) (declared_tests profile p)
    \/ (fbc_panel = Some p
        /\ incl (keys d) (declared_tests profile p ++ differential_keys)).
Proof.
  intros H p d Hd.
  destruct (panel_results_inv g sex age lifestyle _ _ _ _ _ _ H)
    as (_ & results0 & sh & (P & _ & _) & _ & C).
  destruct C as [[-> _] | (fbc & pre & post & s2 & -> & Hpre & AD & ->)].
  - left. apply (P p d Hd).
  - rewrite dict_get_set in Hd.
    destruct (String.eqb_spec fbc p) as [<- | _]; [| left; apply (P p d Hd)].
    injection Hd as <-. right. split; [reflexivity |].
    destruct (add_differential_frame g pre post s2 s' AD) as (_ & _ & F3 & _).
    apply F3; [apply incl_appl, (P fbc pre Hpre) | apply incl_appr, incl_refl].
Qed.

(** X16.  When the condition has no FBC-like panel, or that panel declares
    [differential_props], every generated row has the columns computed from
    the profile alone, whatever the generator, the patient and the panels
    omitted. *)
Theorem schema_fixed_when_metadata_declared (condition : string)
    (profiles : Profiles) (profile : dict Panel) (missing_panel_prob : Q)
    (s s' : St) (row : Row) :
  dict_get profiles condition = Some profile ->
  (forall fbc, find_fbc_panel (keys profile) = Some fbc ->
     In "differential_props" (declared_tests profile fbc)) ->
  generate_lab_results g sex age lifestyle condition profiles
    missing_panel_prob s = Ok (row, s') ->
  keys row
  = dedupe [] (all_columns profile (keys profile)
                 (find_fbc_panel (keys profile))).
Proof.
  intros Hp Hmeta Hg. unfold generate_lab_results in Hg. rewrite Hp in Hg.
  destruct (panel_results g sex age lifestyle profile missing_panel_prob s)
    as [[[results fbc_panel] s1] | e] eqn:Hr; [| discriminate].
  cbn [bind] in Hg. apply Ok_pair_inj in Hg. destruct Hg as [<- _].
  destruct (panel_results_inv g sex age lifestyle _ _ _ _ _ _ Hr) as (-> & _).
  destruct (panel_results_final g sex age lifestyle _ _ _ _ _ _ Hr) as (ND & FI).
  set (all_cols := all_columns profile (keys profile)
                     (find_fbc_panel (keys profile))) in *.
  assert (D : forall x, In x all_cols -> In x (dedupe [] all_cols)).
  { intros x Hx. apply In_dedupe. split; [exact Hx | intros []]. }
  assert (K : keys (initial_row sex age condition (dedupe [] all_cols))
              = dedupe [] all_cols).
  { apply keys_initial_row; apply D; unfold all_cols, all_columns; simpl; auto. }
  rewrite keys_populate; [exact K |].
  intros p d t Hin Ht Hn. rewrite K. apply D.
  pose proof (In_dict_get results p (Some d) ND Hin) as Hd.
  destruct (FI p d Hd) as (Hpk & _ & _).
  destruct (panel_results_keys _ _ _ _ _ _ Hr p d Hd) as [I | [E I]].
  - apply In_all_columns_test; auto.
  - apply I in Ht. apply in_app_or in Ht. destruct Ht as [Ht | Ht].
    + apply In_all_columns_test; auto.
    + unfold all_cols. rewrite E.
      apply In_all_columns_differential; auto.
Qed.

End Schema.

(** * Further properties of the sampler and of the adjustment engine *)

(** X1.  On parameters of moderate size, [sample_value] fails in three
    cases only: the normal sampler with a negative sd, the uniform
    distribution with a bound missing, and a distribution name (lower-cased)
    that is none of the four supported ones, which raises
    [UnsupportedDistribution] with that name. *)
Theorem sample_value_failures {St : Type} (g : Generator St) (params : Params)
    (s : St) (e : exn) :
  moderate_params params ->
  (sample_value g params s = Raise e <->
   (lower (get (p_distribution params) "normal") = "normal"
    /\ p_sd params < 0 /\ e = ValueError "scale < 0")
   \/ (lower (get (p_distribution params) "normal") = "uniform"
       /\ (min_bound params = None \/ max_bound params = None)
       /\ e = MissingBound)
   \/ (lower (get (p_distribution params) "normal") <> "normal"
       /\ lower (get (p_distribution params) "normal") <> "lognormal"
       /\ lower (get (p_distribution params) "normal") <> "uniform"
       /\ lower (get (p_distribution params) "normal") <> "gamma"
       /\ e = UnsupportedDistribution
                (lower (get (p_distribution params) "normal")))).
Proof.
  intros _. unfold sample_value.
  set (dist := lower (get (p_distribution params) "normal")).
  destruct (String.eqb_spec dist "normal") as [E1 | N1].
  { unfold _sample_normal.
    destruct (Qle_bool 0 (p_sd params)) eqn:S.
    - destruct (np_normal g _ _ s) as [val s1]. cbn [bind].
      apply Qle_bool_iff in S. split; [discriminate |].
      intros [(_ & H & _) | [(H & _) | (H & _)]]; [lra | congruence | congruence].
    - cbn [bind]. split.
      + intros [= <-]. left. repeat split; auto.
        apply Qnot_le_lt. intros H. apply Qle_bool_iff in H. congruence.
      + intros [(_ & _ & ->) | [(H & _) | (H & _)]];
          [reflexivity | congruence | congruence]. }
  destruct (String.eqb_spec dist "lognormal") as [E2 | N2].
  { unfold _sample_lognormal.
    destruct (np_lognormal_matching g _ _ s) as [val s1]. cbn [bind].
    split; [discriminate |].
    intros [(H & _) | [(H & _) | (_ & H & _)]]; congruence. }
  destruct (String.eqb_spec dist "uniform") as [E3 | N3].
  { destruct (min_bound params) as [lo |] eqn:Lo.
    - destruct (max_bound params) as [hi |] eqn:Hi.
      + unfold _sample_uniform. destruct (np_uniform g lo hi s) as [val s1].
        cbn [bind]. split; [discriminate |].
        intros [(H & _) | [(_ & [H | H] & _) | (_ & _ & H & _)]]; congruence.
      + cbn [bind]. split.
        * intros [= <-]. right. left. auto.
        * intros [(H & _) | [(_ & _ & ->) | (_ & _ & H & _)]];
            [congruence | reflexivity | congruence].
    - cbn [bind]. split.
      + intros [= <-]. right. left. auto.
      + intros [(H & _) | [(_ & _ & ->) | (_ & _ & H & _)]];
          [congruence | reflexivity | congruence]. }
  destruct (String.eqb_spec dist "gamma") as [E4 | N4].
  { unfold _sample_gamma. destruct (np_gamma g _ _ s) as [val s1]. cbn [bind].
    split; [discriminate |].
    intros [(H & _) | [(H & _) | (_ & _ & _ & H & _)]]; congruence. }
  cbn [bind]. split.
  - intros [= <-]. right. right. auto 6.
  - intros [(H & _) | [(H & _) | (_ & _ & _ & _ & ->)]];
      [congruence | congruence | reflexivity].
Qed.

Lemma guard_positive (x : Q) : 0 < Qmax x 1e-9.
Proof.
  apply Qlt_le_trans with (y := 1e-9); [reflexivity | apply Q.le_max_r].
Qed.

(** X2.  For a mean and an sd of moderate size, the gamma sampler is
    called with a positive shape and a positive scale, matched to the
    guarded moments: shape times scale is the mean floored at 1e-9, and
    shape times scale squared is the square of the sd floored at 1e-9. *)
Theorem gamma_parameters_match_moments {St : Type} (g : Generator St)
    (mean0 sd0 : Q) (s : St) :
  moderate mean0 ->
  moderate sd0 ->
  exists k theta : Q,
    _sample_gamma g mean0 sd0 s = Ok (np_gamma g k theta s)
    /\ 0 < k /\ 0 < theta
    /\ k * theta == Qmax mean0 1e-9
    /\ k * theta * theta == Qmax sd0 1e-9 * Qmax sd0 1e-9.
Proof.
  intros _ _.
  pose proof (guard_positive mean0) as Hm.
  pose proof (guard_positive sd0) as Hs.
  unfold _sample_gamma.
  set (m := Qmax mean0 1e-9) in *. set (s0 := Qmax sd0 1e-9) in *.
  exists (m * m / (s0 * s0)), (s0 * s0 / m).
  assert (Hm0 : ~ m == 0) by lra.
  assert (Hs0 : ~ s0 == 0) by lra.
  assert (Hss : 0 < s0 * s0) by (apply Qmult_lt_0_compat; assumption).
  assert (Hmm : 0 < m * m) by (apply Qmult_lt_0_compat; assumption).
  split; [reflexivity |].
  split; [apply Qlt_shift_div_l; [exact Hss | lra] |].
  split; [apply Qlt_shift_div_l; [exact Hm | lra] |].
  split; field; auto.
Qed.

Lemma sample_value_failures_witness :
  moderate_params (bare_params "Poisson" (Some 1) None)
  /\ sample_value (constant_generator 3) (bare_params "Poisson" (Some 1) None) O
     = Raise (UnsupportedDistribution "poisson").
Proof.
  assert (M : moderate_params (bare_params "Poisson" (Some 1) None)).
  { repeat split; try (intros x H; injection H as <-);
      try (intros x H; discriminate H);
      unfold moderate; vm_compute; discriminate. }
  split; [exact M |].
  apply (sample_value_failures (constant_generator 3)
           (bare_params "Poisson" (Some 1) None) O
           (UnsupportedDistribution "poisson") M).
  right. right. repeat split; discriminate.
Defined.

Lemma gamma_parameters_match_moments_witness :
  exists k theta : Q,
    _sample_gamma (constant_generator 3) 4 2 O
      = Ok (np_gamma (constant_generator 3) k theta O)
    /\ 0 < k /\ 0 < theta
    /\ k * theta == Qmax 4 1e-9
    /\ k * theta * theta == Qmax 2 1e-9 * Qmax 2 1e-9.
Proof.
  apply (gamma_parameters_match_moments (constant_generator 3) 4 2 O);
    unfold moderate; vm_compute; discriminate.
Defined.

(** X3.  The slope form of the age adjustment multiplies the mean and the
    sd by the factor [1 + slope * max(0, age - ref_age)] ([ref_age] is 40
    when absent): on a test without sex adjustment and a patient without
    lifestyle list the adjustment returns the mean and the sd times the
    factor, and in general it returns the result for the test without age
    adjustment times the factor.  The proportion of mean and sd is thus
    kept, and at or below the reference age neither changes. *)
Theorem slope_adjustment_keeps_proportion (slope : Q) (ref_age : option Q)
    (age : Z) (m s : Q) (test_info : TestSpec) (sex : string)
    (lifestyle : option (list string)) :
  let factor := 1 + slope * Qmax 0 (inject_Z age - get ref_age 40) in
  let slope_info :=
    with_age_adjustment test_info (AgeDict (Some slope) ref_age) in
  (sex_adjustment test_info = None ->
   apply_sex_age_lifestyle m s slope_info sex age None
   = Ok (m * factor, s * factor))
  /\ match apply_sex_age_lifestyle m s (without_age_adjustment test_info)
             sex age lifestyle with
     | Ok (m0, s0) =>
         exists m' s' : Q,
           apply_sex_age_lifestyle m s slope_info sex age lifestyle
             = Ok (m', s')
           /\ m' == m0 * factor
           /\ s' == s0 * factor
           /\ m' * s0 == s' * m0
           /\ (inject_Z age <= get ref_age 40 -> m' == m0 /\ s' == s0)
     | Raise e =>
         apply_sex_age_lifestyle m s slope_info sex age lifestyle = Raise e
     end.
Proof.
  intros factor slope_info.
  assert (S : forall m1 s1,
              apply_age (AgeDict (Some slope) ref_age) age m1 s1
              = (m1 * factor, s1 * factor)) by reflexivity.
  split.
  - intros Hsex. unfold slope_info.
    rewrite (age_step_alone _ _ _ _ _ _ Hsex), S. reflexivity.
  - pose proof (age_step_scales _ age factor factor S m s test_info sex
                  lifestyle) as H.
    fold slope_info in H.
    destruct (apply_sex_age_lifestyle m s (without_age_adjustment test_info)
                sex age lifestyle) as [[m0 s0] | e]; [| exact H].
    destruct H as (m' & s' & E & Hm & Hs).
    exists m', s'. split; [exact E |]. split; [exact Hm |].
    split; [exact Hs |]. split.
    + rewrite Hm, Hs. ring.
    + intros Hage.
      assert (Z0 : Qmax 0 (inject_Z age - get ref_age 40) == 0)
        by (apply Q.max_l; lra).
      assert (F1 : factor == 1) by (unfold factor; rewrite Z0; ring).
      rewrite Hm, Hs, F1. split; ring.
Qed.

Lemma apply_age_bands_no_match (bands : list Band) (age : Z) (m s : Q) :
  (forall b, In b bands -> band_contains b age = false) ->
  apply_age_bands bands age m s = (m, s).
Proof.
  induction bands as [| b bands IH]; intros H; simpl.
  - reflexivity.
  - rewrite (H b (or_introl eq_refl)). apply IH.
    intros b' Hin. apply H. right. exact Hin.
Qed.

(** X4.  When no band of the list contains the age, the band list changes
    nothing: the adjustment is that of the specification with an empty band
    list. *)
Theorem age_outside_all_bands_is_unadjusted (bands : list Band) (age : Z) :
  (forall b, In b bands ->
     ~ (band_min_age b <= inject_Z age <= band_max_age b)) ->
  (forall m s : Q, apply_age (AgeList bands) age m s = (m, s))
  /\ (forall (m s : Q) (test_info : TestSpec) (sex : string)
             (lifestyle : option (list string)),
        apply_sex_age_lifestyle m s
          (with_age_adjustment test_info (AgeList bands)) sex age lifestyle
        = apply_sex_age_lifestyle m s
            (with_age_adjustment test_info (AgeList [])) sex age lifestyle).
Proof.
  intros H.
  assert (H' : forall b, In b bands -> band_contains b age = false).
  { intros b Hin. destruct (band_contains b age) eqn:E; [| reflexivity].
    exfalso. apply (H b Hin). apply band_contains_spec. exact E. }
  assert (A : forall m s, apply_age (AgeList bands) age m s = (m, s))
    by (intros m s; apply apply_age_bands_no_match; exact H').
  split; [exact A |].
  intros m s test_info sex lifestyle. unfold apply_sex_age_lifestyle.
  cbn [age_adjustment sex_adjustment lifestyle_factors with_age_adjustment].
  destruct (match sex_adjustment test_info with
            | Some mults => _ | None => _ end) as [[m1 s1] | e];
    [| reflexivity].
  cbn [bind]. rewrite A. reflexivity.
Qed.

Lemma age_outside_all_bands_is_unadjusted_witness :
  apply_age (AgeList [child_band; adult_band]) 70 10 1 = (10, 1)
  /\ apply_sex_age_lifestyle 10 1
       (with_age_adjustment lifestyle_spec (AgeList [child_band; adult_band]))
       "male" 70 (Some ["smoker"])
     = apply_sex_age_lifestyle 10 1
         (with_age_adjustment lifestyle_spec (AgeList [])) "male" 70
         (Some ["smoker"]).
Proof.
  assert (H : forall b, In b [child_band; adult_band] ->
                ~ (band_min_age b <= inject_Z 70 <= band_max_age b)).
  { intros b [<- | [<- | []]] [_ H]; vm_compute in H; apply H; reflexivity. }
  destruct (age_outside_all_bands_is_unadjusted [child_band; adult_band] 70 H)
    as [A B].
  split; [apply A | apply B].
Defined.

(** X5.  The lifestyle loop composes: adjusting for a list of factors
    followed by a second list is adjusting for the first list and then, from
    the result, for the second. *)
Theorem lifestyle_adjustments_compose (factors : dict Factor)
    (first second : list string) (m s : Q) :
  apply_lifestyle factors (first ++ second) m s
  = apply_lifestyle factors second
      (fst (apply_lifestyle factors first m s))
      (snd (apply_lifestyle factors first m s)).
Proof.
  revert m s. induction first as [| fac rest IH]; intros m s; simpl.
  - reflexivity.
  - destruct (dict_get factors fac) as [fac_info |]; [| apply IH].
    destruct (exceptions fac_info) as [[] |]; apply IH.
Qed.

Lemma apply_lifestyle_filter (factors : dict Factor) (lifestyle : list string)
    (m s : Q) :
  apply_lifestyle factors lifestyle m s
  = apply_lifestyle factors (filter (dict_mem factors) lifestyle) m s.
Proof.
  revert m s. induction lifestyle as [| fac rest IH]; intros m s; simpl.
  - reflexivity.
  - unfold dict_mem at 1.
    destruct (dict_get factors fac) as [fac_info |] eqn:G; [| apply IH].
    simpl. rewrite G.
    destruct (exceptions fac_info) as [[] |]; apply IH.
Qed.

(** X6.  Lifestyle factors that the test's [lifestyle] mapping does not
    name are ignored: the adjustment is the one for the list with those
    factors removed, and without a [lifestyle] mapping the list has no
    effect at all. *)
Theorem unknown_lifestyle_factors_are_ignored (m s : Q) (test_info : TestSpec)
    (sex : string) (age : Z) (lifestyle : list string) :
  apply_sex_age_lifestyle m s test_info sex age (Some lifestyle)
  = match lifestyle_factors test_info with
    | Some factors =>
        apply_sex_age_lifestyle m s test_info sex age
          (Some (filter (dict_mem factors) lifestyle))
    | None => apply_sex_age_lifestyle m s test_info sex age None
    end.
Proof.
  unfold apply_sex_age_lifestyle.
  destruct (match sex_adjustment test_info with
            | Some mults => _ | None => _ end) as [[m1 s1] | e];
    [| destruct (lifestyle_factors test_info); reflexivity].
  cbn [bind].
  destruct (match age_adjustment test_info with
            | Some age_adj => _ | None => _ end) as [m2 s2].
  destruct (lifestyle_factors test_info) as [factors |].
  - assert (E : forall l, match l with
                          | fac :: rest => apply_lifestyle factors (fac :: rest) m2 s2
                          | [] => (m2, s2)
                          end = apply_lifestyle factors l m2 s2)
      by (intros [| x l]; reflexivity).
    rewrite (E lifestyle), (E (filter (dict_mem factors) lifestyle)).
    rewrite apply_lifestyle_filter. reflexivity.
  - destruct lifestyle; reflexivity.
Qed.

Lemma lower_ascii_idempotent (c : ascii) :
  lower_ascii (lower_ascii c) = lower_ascii c.
Proof. destruct c as [[] [] [] [] [] [] [] []]; reflexivity. Qed.

Lemma lower_idempotent (s : string) : lower (lower s) = lower s.
Proof.
  induction s as [| c s IH]; simpl.
  - reflexivity.
  - rewrite lower_ascii_idempotent, IH. reflexivity.
Qed.

Lemma sex_key_of_lower (sex : string) : sex_key_of (lower sex) = sex_key_of sex.
Proof.
  unfold sex_key_of. destruct sex as [| c rest]; [reflexivity |].
  cbn [lower String.eqb]. exact (lower_idempotent (String c rest)).
Qed.

(** X8.  The patient's sex is matched without regard to case, and an empty
    sex is the sex "other". *)
Theorem sex_is_matched_case_insensitively (m s : Q) (test_info : TestSpec)
    (sex : string) (age : Z) (lifestyle : option (list string)) :
  apply_sex_age_lifestyle m s test_info sex age lifestyle
  = apply_sex_age_lifestyle m s test_info (lower sex) age lifestyle
  /\ apply_sex_age_lifestyle m s test_info "" age lifestyle
     = apply_sex_age_lifestyle m s test_info "other" age lifestyle.
Proof.
  split; [| reflexivity].
  unfold apply_sex_age_lifestyle. rewrite sex_key_of_lower. reflexivity.
Qed.

(** X9.  A sex adjustment whose consulted entry is a bare number (or is
    absent) leaves the sd alone and multiplies the mean by that number (by 1
    when absent): the adjustment equals that of the specification without
    [sex_adjustment] on the scaled mean. *)
Theorem bare_number_sex_adjustment_scales_mean (m s : Q) (test_info : TestSpec)
    (mults : dict SexEntry) (sex : string) (age : Z)
    (lifestyle : option (list string)) :
  sex_adjustment test_info = Some mults ->
  (forall entry, consulted_entry mults (sex_key_of sex) = Some entry ->
     exists q, entry = SexNumber q) ->
  apply_sex_age_lifestyle m s test_info sex age lifestyle
  = apply_sex_age_lifestyle (m * sex_factor mults (sex_key_of sex)) s
      (without_sex_adjustment test_info) sex age lifestyle.
Proof.
  intros Hs Hn. unfold apply_sex_age_lifestyle.
  cbn [sex_adjustment age_adjustment lifestyle_factors without_sex_adjustment].
  rewrite Hs. cbn [bind].
  assert (C : apply_sex mults (sex_key_of sex) m s
              = Ok (m * sex_factor mults (sex_key_of sex), s)).
  { unfold apply_sex, sex_multiplier, sex_factor. unfold consulted_entry in *.
    destruct (dict_get mults (sex_key_of sex)) as [entry |].
    - destruct (Hn entry eq_refl) as [q ->]. reflexivity.
    - destruct (dict_get mults "other") as [entry |]; [| reflexivity].
      destruct (Hn entry eq_refl) as [q ->]. reflexivity. }
  rewrite C. reflexivity.
Qed.

Lemma bare_number_sex_adjustment_scales_mean_witness :
  apply_sex_age_lifestyle 10 1 lifestyle_spec "Non-Binary" 50 (Some ["smoker"])
  = apply_sex_age_lifestyle (10 * 0.9) 1 (without_sex_adjustment lifestyle_spec)
      "Non-Binary" 50 (Some ["smoker"]).
Proof.
  apply (bare_number_sex_adjustment_scales_mean 10 1 lifestyle_spec
           [("male", SexNumber 1.1); ("other", SexNumber 0.9)]
           "Non-Binary" 50 (Some ["smoker"])).
  - reflexivity.
  - intros entry H. vm_compute in H. injection H as <-. eexists. reflexivity.
Defined.

(** * Further properties of the differential *)

Lemma nth_set_nth_other {A : Type} (l : list A) (i j : nat) (v d : A) :
  i <> j -> nth i (set_nth l j v) d = nth i l d.
Proof.
  revert i j. induction l as [| x l IH]; intros i j N; simpl.
  - reflexivity.
  - destruct j as [| j]; destruct i as [| i]; simpl; try reflexivity;
      try congruence.
    apply IH. congruence.
Qed.

(** [argmax_from] over the rest [l] of a list [pre ++ l], from a best
    position of [pre]. *)
Lemma argmax_from_first_max (l pre : list Q) (best_idx : nat) :
  (best_idx < length pre)%nat ->
  (forall j, (j < length pre)%nat -> nth j pre 0 <= nth best_idx pre 0) ->
  (forall j, (j < best_idx)%nat -> nth j pre 0 < nth best_idx pre 0) ->
  let r := argmax_from (nth best_idx pre 0) best_idx (length pre) l in
  (forall j, (j < length (pre ++ l))%nat ->
     nth j (pre ++ l) 0 <= nth r (pre ++ l) 0)
  /\ (forall j, (j < r)%nat -> nth j (pre ++ l) 0 < nth r (pre ++ l) 0).
Proof.
  revert pre best_idx. induction l as [| x l IH]; intros pre bi Hb Hmax Hfirst.
  - cbn [argmax_from]. rewrite app_nil_r. split; assumption.
  - cbn [argmax_from].
    assert (E : (pre ++ x :: l = (pre ++ [x]) ++ l)%list)
      by (rewrite <- app_assoc; reflexivity).
    assert (L : length (pre ++ [x]) = S (length pre))
      by (rewrite length_app; simpl; lia).
    assert (Nx : nth (length pre) (pre ++ [x]) 0 = x)
      by (rewrite app_nth2, Nat.sub_diag by lia; reflexivity).
    assert (Np : forall j, (j < length pre)%nat ->
                   nth j (pre ++ [x]) 0 = nth j pre 0)
      by (intros j Hj; apply app_nth1; exact Hj).
    rewrite E.
    destruct (Qle_bool x (nth bi pre 0)) eqn:C.
    + apply Qle_bool_iff in C.
      specialize (IH (pre ++ [x])%list bi). rewrite (Np bi Hb), L in IH.
      apply IH.
      * lia.
      * intros j Hj.
        destruct (Nat.eq_dec j (length pre)) as [-> | Nj].
        -- rewrite Nx. exact C.
        -- rewrite Np by lia. apply Hmax. lia.
      * intros j Hj. rewrite Np by lia. apply Hfirst, Hj.
    + assert (C' : nth bi pre 0 < x).
      { apply Qnot_le_lt. intros H. apply Qle_bool_iff in H. congruence. }
      specialize (IH (pre ++ [x])%list (length pre)). rewrite Nx, L in IH.
      apply IH.
      * lia.
      * intros j Hj.
        destruct (Nat.eq_dec j (length pre)) as [-> | Nj].
        -- rewrite Nx. apply Qle_refl.
        -- rewrite Np by lia. apply Qle_trans with (y := nth bi pre 0);
             [apply Hmax; lia | apply Qlt_le_weak, C'].
      * intros j Hj. rewrite Np by lia.
        apply Qle_lt_trans with (y := nth bi pre 0); [apply Hmax, Hj | exact C'].
Qed.

Lemma argmax_first_max (l : list Q) :
  (forall j, (j < length l)%nat -> nth j l 0 <= nth (argmax l) l 0)
  /\ (forall j, (j < argmax l)%nat -> nth j l 0 < nth (argmax l) l 0).
Proof.
  destruct l as [| x l].
  - split; intros j Hj; simpl in Hj; lia.
  - pose proof (argmax_from_first_max l [x] O) as H. cbn [length nth] in H.
    apply H.
    + lia.
    + intros j Hj. assert (j = O) by lia. subst. apply Qle_refl.
    + intros j Hj. lia.
Qed.

(** X10.  The reconciliation changes at most one of the rounded counts, the
    one [np.argmax] designates: a largest count, and the first of them. *)
Theorem residual_goes_to_first_largest_count (sampled_props : list Q)
    (total_wbc : Q) :
  let rounded := map (fun p => round2 (p * total_wbc)) sampled_props in
  let idx := argmax rounded in
  (forall i, i <> idx ->
     nth i (reconcile sampled_props total_wbc) 0 = nth i rounded 0)
  /\ (forall j, (j < length rounded)%nat -> nth j rounded 0 <= nth idx rounded 0)
  /\ (forall j, (j < idx)%nat -> nth j rounded 0 < nth idx rounded 0).
Proof.
  intros rounded idx. split.
  - intros i Hi. unfold reconcile. fold rounded. fold idx.
    destruct (Qle_bool _ _); [| reflexivity].
    apply nth_set_nth_other. exact Hi.
  - apply argmax_first_max.
Qed.

(** * Further properties of the generated row *)

Lemma prefix_append (n t : string) : String.prefix n (n ++ t) = true.
Proof.
  induction n as [| a n IH]; simpl.
  - destruct t; reflexivity.
  - destruct (ascii_dec a a) as [_ | N]; [exact IH | congruence].
Qed.

Lemma substring_in_append (n p t : string) :
  substring_in n (p ++ n ++ t) = true.
Proof.
  induction p as [| a p IH].
  - cbn [append]. destruct (n ++ t) eqn:E; cbn [substring_in];
      rewrite <- E, prefix_append; reflexivity.
  - cbn [append substring_in]. rewrite IH. apply orb_true_r.
Qed.

(** A string without the separator is the column of no test. *)
Lemma column_has_separator (p t c : string) :
  substring_in " - " c = false -> column p t <> c.
Proof.
  intros H E. unfold column in E. rewrite <- E, substring_in_append in H.
  discriminate.
Qed.

Lemma dict_get_map_none (cols : list string) (c : string) :
  dict_get (map (fun c0 => (c0, VNone)) cols) c
  = if existsb (String.eqb c) cols then Some VNone else None.
Proof.
  induction cols as [| c0 cols IH]; simpl.
  - reflexivity.
  - rewrite (String.eqb_sym c c0). destruct (c0 =? c); [reflexivity | exact IH].
Qed.

Lemma In_dict_set {V : Type} (d : dict V) (k : string) (v : V)
    (x : string * V) :
  In x (dict_set d k v) -> x = (k, v) \/ In x d.
Proof.
  induction d as [| [k0 v0] d IH]; simpl.
  - intros [<- | []]. left. reflexivity.
  - destruct (String.eqb_spec k0 k) as [-> | N]; simpl.
    + intros [<- | H]; auto.
    + intros [<- | H]; auto. destruct (IH H); auto.
Qed.

Lemma In_dict_del {V : Type} (d : dict V) (k : string) (x : string * V) :
  In x (dict_del d k) -> In x d.
Proof.
  induction d as [| [k0 v0] d IH]; simpl; [tauto |].
  destruct (k0 =? k); simpl; [auto |]. intros [<- | H]; auto.
Qed.

Section PatientColumns.

Context {St : Type} (g : Generator St).
Variables (sex : string) (age : Z) (lifestyle : list string).

(** The row of a successful generation, in full. *)
Lemma generate_lab_results_exact (condition : string) (profiles : Profiles)
    (missing_panel_prob : Q) (s s' : St) (row : Row) :
  generate_lab_results g sex age lifestyle condition profiles
    missing_panel_prob s = Ok (row, s') ->
  exists (profile : dict Panel) (results : Results) (fbc_panel : option string),
    dict_get profiles condition = Some profile
    /\ panel_results g sex age lifestyle profile missing_panel_prob s
       = Ok (results, fbc_panel, s')
    /\ row = populate results
               (initial_row sex age condition
                  (dedupe [] (all_columns profile (keys profile) fbc_panel))).
Proof.
  unfold generate_lab_results. intros H.
  destruct (dict_get profiles condition) as [profile |]; [| discriminate].
  destruct (panel_results g sex age lifestyle profile missing_panel_prob s)
    as [[[results fbc_panel] s1] | e] eqn:Hr; [| discriminate].
  cbn [bind] in H. apply Ok_pair_inj in H. destruct H as [<- <-].
  exists profile, results, fbc_panel. auto.
Qed.

Lemma initial_row_patient (condition : string) (cols : list string) :
  dict_get (initial_row sex age condition cols) "Sex" = Some (VStr sex)
  /\ dict_get (initial_row sex age condition cols) "Age" = Some (VInt age)
  /\ dict_get (initial_row sex age condition cols) "Condition"
     = Some (VStr condition).
Proof.
  unfold initial_row. repeat split; rewrite !dict_get_set; reflexivity.
Qed.

Lemma initial_row_other (condition : string) (cols : list string) (c : string) :
  substring_in " - " c = true ->
  dict_get (initial_row sex age condition cols) c
  = if existsb (String.eqb c) cols then Some VNone else None.
Proof.
  intros H. unfold initial_row.
  rewrite !dict_get_set_other; [apply dict_get_map_none | | |];
    intros <-; discriminate H.
Qed.

Lemma initial_row_no_float (condition : string) (cols : list string)
    (c : string) (q : Q) :
  dict_get (initial_row sex age condition cols) c <> Some (VFloat q).
Proof.
  unfold initial_row. rewrite !dict_get_set, dict_get_map_none.
  destruct ("Condition" =? c); [discriminate |].
  destruct ("Age" =? c); [discriminate |].
  destruct ("Sex" =? c); [discriminate |].
  destruct (existsb _ cols); discriminate.
Qed.

Lemma populate_keeps_plain (results : Results) (row0 : Row) (c : string) :
  substring_in " - " c = false ->
  dict_get (populate results row0) c = dict_get row0 c.
Proof.
  intros H.
  destruct (populate_cases results c row0)
    as [[G _] | (p & d & t & x & _ & _ & _ & Hc & _)]; [exact G |].
  exfalso. exact (column_has_separator p t c H Hc).
Qed.

(** X11.  Every generated row holds the patient's sex under "Sex", the age
    under "Age" and the condition under "Condition", whatever the profile
    declares and whichever panels were omitted. *)
Theorem row_holds_patient_columns (condition : string) (profiles : Profiles)
    (missing_panel_prob : Q) (s s' : St) (row : Row) :
  generate_lab_results g sex age lifestyle condition profiles
    missing_panel_prob s = Ok (row, s') ->
  dict_get row "Sex" = Some (VStr sex)
  /\ dict_get row "Age" = Some (VInt age)
  /\ dict_get row "Condition" = Some (VStr condition).
Proof.
  intros H.
  destruct (generate_lab_results_exact _ _ _ _ _ _ H)
    as (profile & results & fbc_panel & _ & _ & ->).
  rewrite !populate_keeps_plain by reflexivity.
  apply initial_row_patient.
Qed.

End PatientColumns.

Lemma row_holds_patient_columns_witness :
  dict_get sepsis_row "Sex" = Some (VStr "female")
  /\ dict_get sepsis_row "Age" = Some (VInt 60)
  /\ dict_get sepsis_row "Condition" = Some (VStr "Sepsis").
Proof.
  apply (row_holds_patient_columns keeping_generator "female" 60 [] "Sepsis"
           sepsis_profiles 0.14 O 4%nat sepsis_row).
  vm_compute. reflexivity.
Defined.

Lemma Forall_set_nth {A : Type} (P : A -> Prop) (l : list A) (i : nat) (v : A) :
  Forall P l -> P v -> Forall P (set_nth l i v).
Proof.
  intros H Hv. revert i. induction H as [| x l Hx Hl IH]; intros [| i]; simpl;
    constructor; auto.
Qed.

Lemma reconcile_hundredth (sampled_props : list Q) (total_wbc : Q) :
  Forall hundredth (reconcile sampled_props total_wbc).
Proof.
  assert (H : Forall hundredth
                (map (fun p => round2 (p * total_wbc)) sampled_props)).
  { apply Forall_forall. intros x Hx. apply in_map_iff in Hx.
    destruct Hx as (p & <- & _). apply round2_hundredth. }
  unfold reconcile. destruct (Qle_bool _ _); [| exact H].
  apply Forall_set_nth; [exact H | apply round2_hundredth].
Qed.

Lemma differential_writes_floats (names : list string) (ps qs : list Q)
    (t : string) (q : Q) :
  Forall hundredth qs ->
  In (t, VFloat q) (differential_writes names ps qs) -> hundredth q.
Proof.
  revert ps qs. induction names as [| n names IH]; intros ps qs HF; simpl.
  - intros [].
  - destruct ps as [| p ps]; [intros [] |].
    destruct qs as [| a qs]; [intros [] |].
    inversion HF as [| ? ? Ha HF']; subst. simpl.
    intros [[= _ <-] | [[= _ <-] | H]].
    + apply round2_hundredth.
    + exact Ha.
    + apply (IH ps qs HF' H).
Qed.

Lemma none_writes_no_float (names : list string) (t : string) (q : Q) :
  ~ In (t, VFloat q) (none_writes names).
Proof.
  induction names as [| n names IH]; simpl.
  - tauto.
  - intros [H | [H | H]]; [discriminate H | discriminate H | exact (IH H)].
Qed.

Lemma apply_writes_In (writes : list (string * PyVal)) (d : PanelOut)
    (x : string * PyVal) :
  In x (apply_writes d writes) -> In x writes \/ In x d.
Proof.
  unfold apply_writes. revert d.
  induction writes as [| [k v] writes IH]; intros d H; simpl in *.
  - right. exact H.
  - destruct (IH _ H) as [H1 | H1]; [auto |].
    destruct (In_dict_set _ _ _ _ H1) as [-> | H2]; auto.
Qed.

Section RoundedCells.

Context {St : Type} (g : Generator St).
Variables (sex : string) (age : Z) (lifestyle : list string).

Lemma sample_panel_floats (panel_tests : Panel) :
  forall (out out' : PanelOut) (sh sh' : dict Q) (s s' : St),
    sample_panel g sex age lifestyle panel_tests out sh s = Ok (out', sh', s') ->
    rounded sh -> floats_rounded out ->
    rounded sh' /\ floats_rounded out'.
Proof.
  induction panel_tests as [| [test_name entry] rest IH];
    intros out out' sh sh' s s' H R F; simpl in H.
  - injection H as <- <- <-. split; assumption.
  - destruct (test_name =? "differential_props").
    + apply IH in H; [exact H | exact R |].
      intros t q Hin. apply In_dict_set in Hin.
      destruct Hin as [E | Hin]; [discriminate E | exact (F t q Hin)].
    + destruct (sample_test g sex age lifestyle test_name entry sh s)
        as [[[val sh1] s1] | e] eqn:T; [| discriminate].
      cbn [bind] in H.
      destruct (sample_test_spec _ _ _ _ _ _ _ _ _ _ _ T) as (_ & G1 & R1).
      apply IH in H; [exact H | exact (R1 R) |].
      intros t q Hin. apply In_dict_set in Hin.
      destruct Hin as [E | Hin]; [| exact (F t q Hin)].
      injection E as _ ->. apply (R1 R test_name val G1).
Qed.

Lemma sample_panels_floats (profile : dict Panel) (panels_to_skip : list string)
    (panel_names : list string) :
  forall (results results' : Results) (sh sh' : dict Q) (s s' : St),
    sample_panels g sex age lifestyle profile panel_names panels_to_skip
      results sh s = Ok (results', sh', s') ->
    rounded sh ->
    (forall p d, In (p, Some d) results -> floats_rounded d) ->
    forall p d, In (p, Some d) results' -> floats_rounded d.
Proof.
  induction panel_names as [| panel rest IH];
    intros results results' sh sh' s s' H R F; simpl in H.
  - injection H as <- <- <-. exact F.
  - destruct (existsb (String.eqb panel) panels_to_skip).
    + refine (IH _ _ _ _ _ _ H R _).
      intros p d Hin. apply In_dict_set in Hin.
      destruct Hin as [E | Hin]; [discriminate E | exact (F p d Hin)].
    + destruct (dict_get profile panel) as [panel_tests |]; [| discriminate].
      destruct (sample_panel g sex age lifestyle panel_tests [] sh s)
        as [[[panel_out sh1] s1] | e] eqn:SP; [| discriminate].
      cbn [bind] in H.
      destruct (sample_panel_floats _ _ _ _ _ _ _ SP R) as [R1 F1].
      { intros t q []. }
      refine (IH _ _ _ _ _ _ H R1 _).
      intros p d Hin. apply In_dict_set in Hin.
      destruct Hin as [E | Hin]; [| exact (F p d Hin)].
      injection E as _ ->. exact F1.
Qed.

Lemma add_differential_floats (pre post : PanelOut) (s s' : St) :
  add_differential g pre s = Ok (post, s') ->
  floats_rounded pre -> floats_rounded post.
Proof.
  unfold add_differential. intros H F.
  destruct (match find_wbc_key pre with
            | Some k => _ | None => None end) as [v |].
  - destruct (py_float v) as [total_wbc | e]; [| discriminate].
    cbn [bind] in H.
    destruct (dirichlet g _ s) as [[sampled_props s1] | e]; [| discriminate].
    cbn [bind] in H. rewrite set_differential_writes in H.
    set (writes := differential_writes diff_names sampled_props
                     (reconcile sampled_props total_wbc)) in H.
    assert (FW : floats_rounded (apply_writes pre writes)).
    { intros t q Hin. apply apply_writes_In in Hin.
      destruct Hin as [Hin | Hin]; [| exact (F t q Hin)].
      eapply differential_writes_floats; [apply reconcile_hundredth | exact Hin]. }
    destruct (dict_mem (apply_writes pre writes) "differential_props");
      apply Ok_pair_inj in H; destruct H as [<- _]; [| exact FW].
    intros t q Hin. apply In_dict_del in Hin. exact (FW t q Hin).
  - rewrite set_differential_none_writes in H.
    apply Ok_pair_inj in H. destruct H as [<- _].
    intros t q Hin. apply apply_writes_In in Hin.
    destruct Hin as [Hin | Hin]; [| exact (F t q Hin)].
    exfalso. exact (none_writes_no_float _ _ _ Hin).
Qed.

Lemma panel_results_floats (profile : dict Panel) (missing_panel_prob : Q)
    (s s' : St) (results : Results) (fbc_panel : option string) :
  panel_results g sex age lifestyle profile missing_panel_prob s
    = Ok (results, fbc_panel, s') ->
  forall p d, In (p, Some d) results -> floats_rounded d.
Proof.
  unfold panel_results. intros H.
  destruct (choose_panels_to_skip g (keys profile) missing_panel_prob s)
    as [[panels_to_skip s1] | e]; [| discriminate].
  cbn [bind] in H.
  destruct (sample_panels g sex age lifestyle profile (keys profile)
              panels_to_skip [] [] s1) as [[[results0 sh] s2] | e] eqn:SP;
    [| discriminate].
  cbn [bind] in H.
  assert (F0 : forall p d, In (p, Some d) results0 -> floats_rounded d).
  { apply (sample_panels_floats _ _ _ _ _ _ _ _ _ SP).
    - intros t v Hv. discriminate Hv.
    - intros p d []. }
  destruct (find_fbc_panel (keys profile)) as [fbc |].
  - destruct (dict_get results0 fbc) as [[pre |] |] eqn:G; cbn [get] in H.
    + destruct (add_differential g pre s2) as [[post s3] | e] eqn:AD;
        [| discriminate].
      cbn [bind] in H. injection H as <- <- <-.
      intros p d Hin. apply In_dict_set in Hin.
      destruct Hin as [E | Hin]; [| exact (F0 p d Hin)].
      injection E as _ ->.
      apply (add_differential_floats _ _ _ _ AD).
      apply (F0 fbc pre). apply dict_get_In. exact G.
    + injection H as <- <- <-. exact F0.
    + injection H as <- <- <-. exact F0.
  - injection H as <- <- <-. exact F0.
Qed.

(** X12.  Every number in a generated row has at most two decimals: the
    sampled values, the differential percentages and the reconciled
    counts. *)
Theorem row_numbers_have_two_decimals (condition : string)
    (profiles : Profiles) (missing_panel_prob : Q) (s s' : St) (row : Row)
    (c : string) (q : Q) :
  generate_lab_results g sex age lifestyle condition profiles
    missing_panel_prob s = Ok (row, s') ->
  dict_get row c = Some (VFloat q) ->
  two_decimals q.
Proof.
  intros H Hc.
  destruct (generate_lab_results_exact g sex age lifestyle _ _ _ _ _ _ H)
    as (profile & results & fbc_panel & _ & Hr & ->).
  apply two_decimals_iff.
  destruct (populate_cases results c
              (initial_row sex age condition
                 (dedupe [] (all_columns profile (keys profile) fbc_panel))))
    as [[G _] | (p & d & t & x & Hin & Hx & _ & _ & G)].
  - rewrite G in Hc. exfalso. exact (initial_row_no_float _ _ _ _ _ _ Hc).
  - rewrite G in Hc. injection Hc as ->.
    exact (panel_results_floats _ _ _ _ _ _ Hr p d Hin t q Hx).
Qed.

End RoundedCells.

Lemma row_numbers_have_two_decimals_witness :
  generate_lab_results keeping_generator "female" 60 [] "Sepsis"
    sepsis_profiles 0.14 O = Ok (sepsis_row, 4%nat)
  /\ dict_get sepsis_row "FBC - Lymphocytes (×10^9/L)" = Some (VFloat 2.44)
  /\ two_decimals 2.44.
Proof.
  split; [vm_compute; reflexivity |].
  split; [vm_compute; reflexivity |].
  apply (row_numbers_have_two_decimals keeping_generator "female" 60 []
           "Sepsis" sepsis_profiles 0.14 O 4%nat sepsis_row
           "FBC - Lymphocytes (×10^9/L)" 2.44).
  - vm_compute. reflexivity.
  - vm_compute. reflexivity.
Defined.

Lemma declared_tests_panel (profile : dict Panel) (p t : string) :
  In t (declared_tests profile p) -> In p (keys profile).
Proof.
  unfold declared_tests. destruct (dict_get profile p) as [tests |] eqn:G.
  - intros _. eapply dict_get_keys. exact G.
  - intros [].
Qed.

Lemma find_wbc_key_In (d : PanelOut) (k : string) :
  find_wbc_key d = Some k -> In k (keys d).
Proof.
  unfold find_wbc_key.
  destruct (find (dict_mem d) wbc_aliases) as [cand |] eqn:F.
  - intros [= <-]. apply find_some in F. apply dict_mem_In, F.
  - intros H. apply find_some in H. apply H.
Qed.

Lemma set_differential_none_get (d : PanelOut) (k : string) :
  In k differential_keys ->
  dict_get (set_differential_none diff_names d) k = Some VNone.
Proof.
  intros H. unfold diff_names. cbn [set_differential_none].
  repeat (destruct H as [<- | H]; [rewrite !dict_get_set; reflexivity |]).
  destruct H.
Qed.

Section NullCells.

Context {St : Type} (g : Generator St).
Variables (sex : string) (age : Z) (lifestyle : list string).

(** X13.  An omitted panel contributes only nulls: with unambiguous column
    names, the column of every test declared in an omitted panel is [None]
    in the generated row. *)
Theorem omitted_panel_columns_are_null (condition : string)
    (profiles : Profiles) (profile : dict Panel) (missing_panel_prob : Q)
    (s s' s'' : St) (row : Row) (results : Results)
    (fbc_panel : option string) (p t : string) :
  dict_get profiles condition = Some profile ->
  generate_lab_results g sex age lifestyle condition profiles
    missing_panel_prob s = Ok (row, s') ->
  panel_results g sex age lifestyle profile missing_panel_prob s
    = Ok (results, fbc_panel, s'') ->
  dict_get results p = Some None ->
  In t (declared_tests profile p) ->
  t <> "differential_props" ->
  unambiguous_columns profile ->
  dict_get row (column p t) = Some VNone.
Proof.
  intros Hp Hg Hr Hnone Ht Hn U.
  unfold generate_lab_results in Hg. rewrite Hp, Hr in Hg. cbn [bind] in Hg.
  apply Ok_pair_inj in Hg. destruct Hg as [<- _].
  destruct (panel_results_final g sex age lifestyle _ _ _ _ _ _ Hr) as (ND & FI).
  pose proof (declared_tests_panel profile p t Ht) as Hpk.
  destruct (populate_cases results (column p t)
              (initial_row sex age condition
                 (dedupe [] (all_columns profile (keys profile) fbc_panel))))
    as [[G _] | (p' & d' & t' & x & Hin & Hx & Ht' & Hc & _)].
  - rewrite G, initial_row_other by apply substring_in_append.
    assert (E : existsb (String.eqb (column p t))
                  (dedupe [] (all_columns profile (keys profile) fbc_panel))
                = true).
    { apply existsb_eqb_In, In_dedupe. split; [| intros []].
      apply In_all_columns_test; assumption. }
    rewrite E. reflexivity.
  - exfalso.
    pose proof (In_dict_get results p' (Some d') ND Hin) as Hd'.
    destruct (FI p' d' Hd') as (Hp' & _ & Id').
    assert (C : (p', t') = (p, t)).
    { apply U; [| | exact Hc].
      - apply In_declared_cells; [exact Hp' |]. apply Id'.
        apply (in_map fst) in Hx. exact Hx.
      - apply In_declared_cells; [exact Hpk |]. apply in_or_app. left. exact Ht. }
    injection C as -> ->. congruence.
Qed.

(** X14.  When the FBC-like panel declares no test that can serve as the
    total count (no alias and no name containing "wbc"), the differential
    sets its ten entries to [None] in every run that samples the panel; with
    unambiguous column names these are the ten differential columns of the
    row. *)
Theorem differential_is_null_without_total (condition : string)
    (profiles : Profiles) (profile : dict Panel) (missing_panel_prob : Q)
    (s s' s'' : St) (row : Row) (results : Results) (fbc : string)
    (vals : PanelOut) (k : string) :
  dict_get profiles condition = Some profile ->
  generate_lab_results g sex age lifestyle condition profiles
    missing_panel_prob s = Ok (row, s') ->
  panel_results g sex age lifestyle profile missing_panel_prob s
    = Ok (results, Some fbc, s'') ->
  dict_get results fbc = Some (Some vals) ->
  (forall t, In t (declared_tests profile fbc) -> wbc_like t = false) ->
  In k differential_keys ->
  dict_get vals k = Some VNone
  /\ (unambiguous_columns profile ->
      dict_get row (column fbc k) = Some VNone).
Proof.
  intros Hp Hg Hr Hv Hw Hk.
  destruct (generate_lab_results_row g sex age lifestyle _ _ _ _ _ _ _ _ _ _
              Hp Hg Hr) as [row0 ->].
  pose proof (panel_results_final g sex age lifestyle _ _ _ _ _ _ Hr) as FI.
  destruct (panel_results_inv g sex age lifestyle _ _ _ _ _ _ Hr)
    as (_ & results0 & sh & (P & _ & _) & _ & C).
  destruct C as [[-> N] | (fbc' & pre & post & s2 & E & Hpre & AD & ->)].
  { specialize (N fbc eq_refl). rewrite Hv in N. discriminate N. }
  injection E as <-.
  assert (Hfbc : dict_get (dict_set results0 fbc (Some post)) fbc
                 = Some (Some post)) by apply dict_get_set_same.
  rewrite Hfbc in Hv. injection Hv as <-.
  destruct (P fbc pre Hpre) as ((_ & _ & Ipre) & _).
  assert (F : find_wbc_key pre = None).
  { destruct (find_wbc_key pre) as [k0 |] eqn:F; [| reflexivity].
    pose proof (find_wbc_key_wbc_like pre k0 F) as W.
    rewrite (Hw k0 (Ipre k0 (find_wbc_key_In pre k0 F))) in W. discriminate W. }
  unfold add_differential in AD. rewrite F in AD.
  apply Ok_pair_inj in AD. destruct AD as [<- _].
  pose proof (set_differential_none_get pre k Hk) as G.
  split; [exact G |].
  intros U. apply (populate_cell profile _ fbc k _ _ FI U Hfbc G).
  intros ->. exact (differential_keys_not_metadata Hk).
Qed.

End NullCells.

Lemma no_wbc_columns_unambiguous : unambiguous_columns no_wbc_panels.
Proof. apply unambiguous_columnsb_sound. vm_compute. reflexivity. Qed.

Lemma omitted_panel_columns_are_null_witness :
  dict_get sepsis_omitted_row "FBC - WBC" = Some VNone.
Proof.
  apply (omitted_panel_columns_are_null omit_first_generator "female" 60 []
           "Sepsis" sepsis_profiles sepsis_panels 0.14 O 5%nat 5%nat
           sepsis_omitted_row sepsis_omitted_results (Some "FBC") "FBC" "WBC");
    try (vm_compute; reflexivity).
  - simpl. tauto.
  - discriminate.
  - exact sepsis_columns_unambiguous.
Defined.

Lemma differential_is_null_without_total_witness :
  dict_get no_wbc_fbc_vals "Monocytes (%)" = Some VNone
  /\ dict_get no_wbc_row "FBC - Monocytes (%)" = Some VNone.
Proof.
  destruct (differential_is_null_without_total keeping_generator "female" 60 []
              "Anaemia" no_wbc_profiles no_wbc_panels 0.14 O 3%nat 3%nat
              no_wbc_row no_wbc_results "FBC" no_wbc_fbc_vals "Monocytes (%)")
    as [A B]; try (vm_compute; reflexivity).
  - intros t [<- | []]. vm_compute. reflexivity.
  - simpl. tauto.
  - split; [exact A | exact (B no_wbc_columns_unambiguous)].
Defined.

Lemma keys_populate_panel_app (panel : string) (vals : PanelOut) :
  forall row : Row,
    exists extra : list string,
      keys (populate_panel panel vals row) = (keys row ++ extra)%list
      /\ forall c, In c extra ->
           ~ In c (keys row)
           /\ exists t, In t (keys vals) /\ t <> "differential_props"
                        /\ c = column panel t.
Proof.
  induction vals as [| [t0 v0] rest IH]; intros row; simpl.
  - exists []. rewrite app_nil_r. split; [reflexivity | intros c []].
  - destruct (String.eqb_spec t0 "differential_props") as [E | N].
    + destruct (IH row) as (extra & K & HE). exists extra. split; [exact K |].
      intros c Hc. destruct (HE c Hc) as (Hn & t & Ht & Hd & ->).
      split; [exact Hn |]. exists t. auto.
    + destruct (IH (dict_set row (column panel t0) v0)) as (extra & K & HE).
      rewrite keys_dict_set in K.
      destruct (dict_mem row (column panel t0)) eqn:M.
      * exists extra. split; [exact K |].
        intros c Hc. destruct (HE c Hc) as (Hn & t & Ht & Hd & ->).
        rewrite keys_dict_set, M in Hn.
        split; [exact Hn |]. exists t. auto.
      * exists (column panel t0 :: extra). split.
        -- rewrite K, <- app_assoc. reflexivity.
        -- intros c [<- | Hc].
           ++ split; [| exists t0; auto].
              intros Hin. apply dict_mem_In in Hin. congruence.
           ++ destruct (HE c Hc) as (Hn & t & Ht & Hd & ->).
              rewrite keys_dict_set, M in Hn.
              split; [| exists t; auto].
              intros Hin. apply Hn. apply in_or_app. left. exact Hin.
Qed.

Lemma keys_populate_app (results : Results) :
  forall row : Row,
    exists extra : list string,
      keys (populate results row) = (keys row ++ extra)%list
      /\ forall c, In c extra ->
           ~ In c (keys row)
           /\ exists p d t, In (p, Some d) results /\ In t (keys d)
                            /\ t <> "differential_props" /\ c = column p t.
Proof.
  induction results as [| [p0 [d0 |]] rest IH]; intros row; simpl.
  - exists []. rewrite app_nil_r. split; [reflexivity | intros c []].
  - destruct (keys_populate_panel_app p0 d0 row) as (e1 & K1 & H1).
    destruct (IH (populate_panel p0 d0 row)) as (e2 & K2 & H2).
    exists (e1 ++ e2)%list. split.
    + rewrite K2, K1, <- app_assoc. reflexivity.
    + intros c Hc. apply in_app_or in Hc. destruct Hc as [Hc | Hc].
      * destruct (H1 c Hc) as (Hn & t & Ht & Hd & ->).
        split; [exact Hn |]. exists p0, d0, t. auto.
      * destruct (H2 c Hc) as (Hn & p & d & t & Hin & Ht & Hd & ->).
        split; [| exists p, d, t; auto].
        intros Hr. apply Hn. rewrite K1. apply in_or_app. left. exact Hr.
  - destruct (IH row) as (extra & K & HE). exists extra. split; [exact K |].
    intros c Hc. destruct (HE c Hc) as (Hn & p & d & t & Hin & Ht & Hd & ->).
    split; [exact Hn |]. exists p, d, t. auto.
Qed.

Lemma NoDup_keys_populate_panel (panel : string) (vals : PanelOut) :
  forall row : Row, NoDup (keys row) ->
    NoDup (keys (populate_panel panel vals row)).
Proof.
  induction vals as [| [t0 v0] rest IH]; intros row ND; simpl.
  - exact ND.
  - destruct (t0 =? "differential_props"); [apply IH, ND |].
    apply IH, NoDup_keys_set, ND.
Qed.

Lemma NoDup_keys_populate (results : Results) :
  forall row : Row, NoDup (keys row) -> NoDup (keys (populate results row)).
Proof.
  induction results as [| [p0 [d0 |]] rest IH]; intros row ND; simpl.
  - exact ND.
  - apply IH, NoDup_keys_populate_panel, ND.
  - apply IH, ND.
Qed.

Lemma NoDup_dedupe (all_cols : list string) :
  forall seen : list string, NoDup (dedupe seen all_cols).
Proof.
  induction all_cols as [| c rest IH]; intros seen; simpl.
  - constructor.
  - destruct (existsb (String.eqb c) seen); [apply IH |].
    constructor; [| apply IH].
    intros H. apply In_dedupe in H. destruct H as [_ H]. apply H. left.
    reflexivity.
Qed.

Section RowColumns.

Context {St : Type} (g : Generator St).
Variables (sex : string) (age : Z) (lifestyle : list string).

(** X15.  The columns of a generated row are pairwise distinct; they are the
    deduplicated column list of the profile, in its order, followed by
    nothing but differential columns of the FBC-like panel. *)
Theorem row_columns_extend_declared_columns (condition : string)
    (profiles : Profiles) (profile : dict Panel) (missing_panel_prob : Q)
    (s s' : St) (row : Row) :
  dict_get profiles condition = Some profile ->
  generate_lab_results g sex age lifestyle condition profiles
    missing_panel_prob s = Ok (row, s') ->
  NoDup (keys row)
  /\ exists extra : list string,
       keys row
       = (dedupe [] (all_columns profile (keys profile)
                       (find_fbc_panel (keys profile))) ++ extra)%list
       /\ forall c, In c extra ->
            exists fbc k, find_fbc_panel (keys profile) = Some fbc
                          /\ In k differential_keys /\ c = column fbc k.
Proof.
  intros Hp Hg. unfold generate_lab_results in Hg. rewrite Hp in Hg.
  destruct (panel_results g sex age lifestyle profile missing_panel_prob s)
    as [[[results fbc_panel] s1] | e] eqn:Hr; [| discriminate].
  cbn [bind] in Hg. apply Ok_pair_inj in Hg. destruct Hg as [<- _].
  destruct (panel_results_inv g sex age lifestyle _ _ _ _ _ _ Hr) as (-> & _).
  destruct (panel_results_final g sex age lifestyle _ _ _ _ _ _ Hr) as (ND & FI).
  set (all_cols := all_columns profile (keys profile)
                     (find_fbc_panel (keys profile))) in *.
  assert (D : forall x, In x all_cols -> In x (dedupe [] all_cols)).
  { intros x Hx. apply In_dedupe. split; [exact Hx | intros []]. }
  assert (K : keys (initial_row sex age condition (dedupe [] all_cols))
              = dedupe [] all_cols).
  { apply keys_initial_row; apply D; unfold all_cols, all_columns; simpl; auto. }
  split.
  - apply NoDup_keys_populate. rewrite K. apply NoDup_dedupe.
  - destruct (keys_populate_app results
                (initial_row sex age condition (dedupe [] all_cols)))
      as (extra & KE & HE).
    exists extra. rewrite KE, K. split; [reflexivity |].
    intros c Hc. destruct (HE c Hc) as (Hn & p & d & t & Hin & Ht & Hd & ->).
    rewrite K in Hn.
    pose proof (In_dict_get results p (Some d) ND Hin) as Hdp.
    destruct (FI p d Hdp) as (Hpk & _ & _).
    destruct (panel_results_keys g sex age lifestyle _ _ _ _ _ _ Hr p d Hdp)
      as [I | [E I]].
    + exfalso. apply Hn, D. apply In_all_columns_test; auto.
    + apply I in Ht. apply in_app_or in Ht. destruct Ht as [Ht | Ht].
      * exfalso. apply Hn, D. apply In_all_columns_test; auto.
      * exists p, t. auto.
Qed.

End RowColumns.

Lemma row_columns_extend_declared_columns_witness :
  NoDup (keys sepsis_row)
  /\ exists extra : list string,
       keys sepsis_row
       = (dedupe [] (all_columns sepsis_panels (keys sepsis_panels)
                       (find_fbc_panel (keys sepsis_panels))) ++ extra)%list
       /\ forall c, In c extra ->
            exists fbc k, find_fbc_panel (keys sepsis_panels) = Some fbc
                          /\ In k differential_keys /\ c = column fbc k.
Proof.
  apply (row_columns_extend_declared_columns keeping_generator "female" 60 []
           "Sepsis" sepsis_profiles sepsis_panels 0.14 O 4%nat sepsis_row).
  - reflexivity.
  - vm_compute. reflexivity.
Defined.

Lemma schema_fixed_when_metadata_declared_witness :
  keys sepsis_omitted_row
  = dedupe [] (all_columns sepsis_panels (keys sepsis_panels)
                 (find_fbc_panel (keys sepsis_panels)))
  /\ keys sepsis_row = keys sepsis_omitted_row.
Proof.
  assert (M : forall fbc, find_fbc_panel (keys sepsis_panels) = Some fbc ->
                In "differential_props" (declared_tests sepsis_panels fbc)).
  { intros fbc H. vm_compute in H. injection H as <-. simpl. tauto. }
  assert (A := schema_fixed_when_metadata_declared omit_first_generator
                 "female" 60 [] "Sepsis" sepsis_profiles sepsis_panels 0.14
                 O 5%nat sepsis_omitted_row eq_refl M).
  assert (B := schema_fixed_when_metadata_declared keeping_generator
                 "female" 60 [] "Sepsis" sepsis_profiles sepsis_panels 0.14
                 O 4%nat sepsis_row eq_refl M).
  split.
  - apply A. vm_compute. reflexivity.
  - rewrite A, B; [reflexivity | vm_compute; reflexivity
                   | vm_compute; reflexivity].
Defined.

(** * Further properties of the panel omission *)

Lemma removelast_cons {A : Type} (x : A) (l : list A) :
  l <> [] -> removelast (x :: l) = x :: removelast l.
Proof. destruct l; [congruence | reflexivity]. Qed.

Lemma set_nth_nonempty {A : Type} (l : list A) (j : nat) (v : A) :
  l <> [] -> set_nth l j v <> [].
Proof. destruct l, j; simpl; congruence. Qed.

Lemma list_eq_nil {A : Type} (l : list A) : l = [] \/ l <> [].
Proof. destruct l; [left; reflexivity | right; discriminate]. Qed.

Lemma last_cons {A : Type} (default x : A) (l : list A) :
  l <> [] -> last (x :: l) default = last l default.
Proof. destruct l; [congruence | reflexivity]. Qed.

(** One step of the pool selection splits the pool into the element taken
    and the pool that is left. *)
Lemma pool_step_permutation {A : Type} (default : A) (pool : list A) (j : nat) :
  (j < length pool)%nat ->
  Permutation pool
    (nth j pool default
     :: removelast (set_nth pool j (last pool default))).
Proof.
  revert j. induction pool as [| x rest IH]; intros j Hj; simpl in Hj; [lia |].
  destruct (list_eq_nil rest) as [-> | Hne].
  - simpl in Hj. assert (j = O) by lia. subst. simpl. apply Permutation_refl.
  - rewrite (last_cons default x rest Hne).
    destruct j as [| j'].
    + cbn [nth set_nth]. rewrite removelast_cons by exact Hne.
      apply perm_skip.
      rewrite (app_removelast_last default Hne) at 1.
      apply Permutation_sym, Permutation_cons_append.
    + cbn [nth set_nth].
      rewrite removelast_cons by (apply set_nth_nonempty; exact Hne).
      eapply Permutation_trans; [apply perm_skip, (IH j'); lia |].
      apply perm_swap.
Qed.

Section Omission.

Context {St : Type} (g : Generator St).

Lemma randbelow_lt (n : nat) (s : St) :
  (0 < n)%nat -> (fst (randbelow g n s) < n)%nat.
Proof.
  intros H. unfold randbelow. destruct (py_randbelow g n s) as [j s1].
  simpl. apply Nat.mod_upper_bound. lia.
Qed.

(** The pool selection returns [k] elements of the pool, and distinct ones
    when the pool has no repetition. *)
Lemma sample_pool_spec {A : Type} (default : A) (k : nat) :
  forall (pool : list A) (s : St),
    (k <= length pool)%nat ->
    length (fst (sample_pool g default pool k s)) = k
    /\ incl (fst (sample_pool g default pool k s)) pool
    /\ (NoDup pool -> NoDup (fst (sample_pool g default pool k s))).
Proof.
  induction k as [| k IH]; intros pool s Hk; cbn [sample_pool].
  - simpl. repeat split; [intros x [] | constructor].
  - pose proof (randbelow_lt (length pool) s ltac:(lia)) as Hj.
    destruct (randbelow g (length pool) s) as [j s1]. cbn [fst] in Hj.
    pose proof (pool_step_permutation default pool j Hj) as PP.
    set (pool' := removelast (set_nth pool j (last pool default))) in *.
    assert (L : length pool = S (length pool'))
      by (apply Permutation_length in PP; exact PP).
    destruct (IH pool' s1 ltac:(lia)) as (I1 & I2 & I3).
    destruct (sample_pool g default pool' k s1) as [rest s2].
    cbn [fst] in *. split; [simpl; lia |]. split.
    + intros x [<- | Hx].
      * apply nth_In. exact Hj.
      * apply (Permutation_in x (Permutation_sym PP)). right. apply I2, Hx.
    + intros ND. pose proof (Permutation_NoDup PP ND) as ND'.
      inversion ND' as [| ? ? Hnin NDp]; subst.
      constructor; [| apply I3, NDp].
      intros H. apply Hnin, I2, H.
Qed.

(** X17.  The panels chosen for omission are at most two panels of the
    condition, never the same panel twice; there are none when the draw of
    [random.random()] is not below [missing_panel_prob], and one or two
    when it is. *)
Theorem omitted_panels_are_few_and_distinct (panel_names : list string)
    (missing_panel_prob : Q) (s s1 : St) (panels_to_skip : list string) :
  choose_panels_to_skip g panel_names missing_panel_prob s
    = Ok (panels_to_skip, s1) ->
  (length panels_to_skip <= 2)%nat
  /\ incl panels_to_skip panel_names
  /\ (NoDup panel_names -> NoDup panels_to_skip)
  /\ (missing_panel_prob <= fst (py_random g s) -> panels_to_skip = [])
  /\ (fst (py_random g s) < missing_panel_prob ->
      (1 <= length panels_to_skip)%nat).
Proof.
  unfold choose_panels_to_skip. intros H.
  destruct (py_random g s) as [u s0]. cbn [fst].
  destruct (Qlt_le_dec u missing_panel_prob) as [Hlt | Hge].
  - unfold choice in H.
    pose proof (randbelow_lt 2 s0 ltac:(lia)) as Hj.
    change (length [1%nat; 2%nat]) with 2%nat in H.
    destruct (randbelow g 2 s0) as [j s2]. cbn [fst] in Hj.
    unfold sample in H.
    set (num_missing := nth j [1%nat; 2%nat] 1%nat) in *.
    assert (Hnum : num_missing = 1%nat \/ num_missing = 2%nat).
    { unfold num_missing. destruct j as [| [| j]]; simpl; auto. lia. }
    destruct (num_missing <=? length panel_names)%nat eqn:Hk; [| discriminate].
    apply Nat.leb_le in Hk.
    destruct (sample_pool_spec "" num_missing panel_names s2 Hk)
      as (L & I & N).
    destruct (sample_pool g "" panel_names num_missing s2) as [res s3].
    cbn [fst] in *. apply Ok_pair_inj in H. destruct H as [<- _].
    clearbody num_missing.
    split; [destruct Hnum; lia |]. split; [exact I |]. split; [exact N |].
    split; [intros Hle; lra | intros _; destruct Hnum; lia].
  - injection H as <- <-.
    split; [simpl; lia |]. split; [intros x [] |].
    split; [intros _; constructor |].
    split; [reflexivity | intros Hlt; lra].
Qed.

End Omission.

Lemma omitted_panels_are_few_and_distinct_witness :
  (length ["FBC"] <= 2)%nat
  /\ incl ["FBC"] (keys sepsis_panels)
  /\ (NoDup (keys sepsis_panels) -> NoDup ["FBC"])
  /\ (0.14 <= fst (py_random omit_first_generator O) -> ["FBC"] = [])
  /\ (fst (py_random omit_first_generator O) < 0.14 ->
      (1 <= length ["FBC"])%nat).
Proof.
  apply (omitted_panels_are_few_and_distinct omit_first_generator
           (keys sepsis_panels) 0.14 O 3%nat ["FBC"]).
  vm_compute. reflexivity.
Defined.

Section PanelEntries.

Context {St : Type} (g : Generator St).
Variables (sex : string) (age : Z) (lifestyle : list string).

(** The first pass gives every panel name an entry: [None] for a name to
    skip, a dictionary otherwise; the other names keep their entry. *)
Lemma sample_panels_entries (profile : dict Panel) (panels_to_skip : list string)
    (panel_names : list string) :
  forall (results results' : Results) (sh sh' : dict Q) (s s' : St),
    sample_panels g sex age lifestyle profile panel_names panels_to_skip
      results sh s = Ok (results', sh', s') ->
    forall p,
      (In p panel_names ->
       if existsb (String.eqb p) panels_to_skip
       then dict_get results' p = Some None
       else exists d, dict_get results' p = Some (Some d))
      /\ (~ In p panel_names -> dict_get results' p = dict_get results p).
Proof.
  induction panel_names as [| panel rest IH];
    intros results results' sh sh' s s' H p; simpl in H.
  - injection H as <- <- <-. split; [intros [] | reflexivity].
  - assert (K : forall (entry : option PanelOut) sh1 s1,
                sample_panels g sex age lifestyle profile rest panels_to_skip
                  (dict_set results panel entry) sh1 s1 = Ok (results', sh', s') ->
                (if existsb (String.eqb panel) panels_to_skip
                 then entry = None else exists d, entry = Some d) ->
                (In p (panel :: rest) ->
                 if existsb (String.eqb p) panels_to_skip
                 then dict_get results' p = Some None
                 else exists d, dict_get results' p = Some (Some d))
                /\ (~ In p (panel :: rest) ->
                    dict_get results' p = dict_get results p)).
    { intros entry sh1 s1 H1 He. destruct (IH _ _ _ _ _ _ H1 p) as [A B].
      split.
      - intros Hin. destruct (in_dec string_dec p rest) as [Hr | Hr];
          [exact (A Hr) |].
        destruct Hin as [<- | Hin]; [| contradiction].
        rewrite (B Hr), dict_get_set_same.
        destruct (existsb (String.eqb panel) panels_to_skip).
        + rewrite He. reflexivity.
        + destruct He as [d ->]. exists d. reflexivity.
      - intros Hn. rewrite B by (intros Hr; apply Hn; right; exact Hr).
        apply dict_get_set_other. intros <-. apply Hn. left. reflexivity. }
    destruct (existsb (String.eqb panel) panels_to_skip) eqn:E.
    + apply (K None _ _ H). reflexivity.
    + destruct (dict_get profile panel) as [panel_tests |]; [| discriminate].
      destruct (sample_panel g sex age lifestyle panel_tests [] sh s)
        as [[[panel_out sh1] s1] | e]; [| discriminate].
      cbn [bind] in H. apply (K (Some panel_out) _ _ H). eauto.
Qed.

(** X18.  After a successful generation every panel of the condition has
    its entry in the results: [None] when it was chosen for omission, a
    dictionary of values when it was not. *)
Theorem every_panel_is_omitted_or_sampled (profile : dict Panel)
    (missing_panel_prob : Q) (s s' : St) (results : Results)
    (fbc_panel : option string) :
  panel_results g sex age lifestyle profile missing_panel_prob s
    = Ok (results, fbc_panel, s') ->
  exists (panels_to_skip : list string) (s1 : St),
    choose_panels_to_skip g (keys profile) missing_panel_prob s
      = Ok (panels_to_skip, s1)
    /\ forall p, In p (keys profile) ->
         if existsb (String.eqb p) panels_to_skip
         then dict_get results p = Some None
         else exists d, dict_get results p = Some (Some d).
Proof.
  unfold panel_results. intros H.
  destruct (choose_panels_to_skip g (keys profile) missing_panel_prob s)
    as [[panels_to_skip s1] | e]; [| discriminate].
  cbn [bind] in H.
  destruct (sample_panels g sex age lifestyle profile (keys profile)
              panels_to_skip [] [] s1) as [[[results0 sh] s2] | e] eqn:SP;
    [| discriminate].
  cbn [bind] in H.
  exists panels_to_skip, s1. split; [reflexivity |].
  pose proof (fun p => proj1 (sample_panels_entries _ _ _ _ _ _ _ _ _ SP p))
    as A.
  destruct (find_fbc_panel (keys profile)) as [fbc |].
  - destruct (dict_get results0 fbc) as [[pre |] |] eqn:G; cbn [get] in H.
    + destruct (add_differential g pre s2) as [[post s3] | e];
        [| discriminate].
      cbn [bind] in H. injection H as <- <- <-.
      intros p Hp. specialize (A p Hp). rewrite dict_get_set.
      destruct (String.eqb_spec fbc p) as [<- | _]; [| exact A].
      destruct (existsb (String.eqb fbc) panels_to_skip).
      * rewrite G in A. discriminate A.
      * exists post. reflexivity.
    + injection H as <- <- <-. exact A.
    + injection H as <- <- <-. exact A.
  - injection H as <- <- <-. exact A.
Qed.

End PanelEntries.

Lemma every_panel_is_omitted_or_sampled_witness :
  dict_get sepsis_omitted_results "FBC" = Some None
  /\ exists d, dict_get sepsis_omitted_results "Inflammatory Markers"
               = Some (Some d).
Proof.
  destruct (every_panel_is_omitted_or_sampled omit_first_generator "female" 60
              [] sepsis_panels 0.14 O 5%nat sepsis_omitted_results (Some "FBC"))
    as (skip & s1 & Hc & Hall); [vm_compute; reflexivity |].
  vm_compute in Hc. injection Hc as <- <-.
  split.
  - apply (Hall "FBC"). simpl. tauto.
  - apply (Hall "Inflammatory Markers"). simpl. tauto.
Defined.

(** * Properties of the cohort helper *)

Section CohortProperties.

Context {St : Type} (g : Generator St).
Variable seeded : Z -> St.

Lemma choice_of_In {A : Type} (default : A) (seq : list A) (s s1 : St) (x : A) :
  choice_of g default seq s = COk (x, s1) -> In x seq.
Proof.
  unfold choice_of. destruct seq as [| a seq]; [discriminate |].
  unfold choice.
  pose proof (randbelow_lt g (length (a :: seq)) s ltac:(simpl; lia)) as Hj.
  destruct (randbelow g (length (a :: seq)) s) as [j s2]. cbn [fst] in Hj.
  intros E. assert (x = nth j (a :: seq) default) as -> by congruence.
  apply nth_In. exact Hj.
Qed.

Lemma randint_range (a b x : Z) (s s1 : St) :
  randint g a b s = COk (x, s1) -> (a <= x <= b)%Z.
Proof.
  unfold randint. destruct (Z.leb_spec a b) as [Hab | Hab]; [| discriminate].
  pose proof (randbelow_lt g (Z.to_nat (b - a + 1)) s ltac:(lia)) as Hj.
  destruct (randbelow g (Z.to_nat (b - a + 1)) s) as [j s2]. cbn [fst] in Hj.
  intros [= <- _]. lia.
Qed.

Lemma index_nth_error (age_range : list Z) (i : nat) (a : Z) :
  index age_range i = COk a -> nth_error age_range i = Some a.
Proof.
  unfold index. destruct (nth_error age_range i); [| discriminate].
  intros [= ->]. reflexivity.
Qed.

(** The patient columns of a row generated under a seed. *)
Lemma seeded_row_patient (cond sex : string) (age : Z)
    (lifestyle : option (list string)) (profiles : Profiles)
    (missing_panel_prob : Q) (rng_seed : option Z) (s s' : St) (row : Row) :
  generate_lab_results_seeded g seeded cond sex age lifestyle profiles
    missing_panel_prob rng_seed s = Ok (row, s') ->
  dict_get row "Condition" = Some (VStr cond)
  /\ dict_get row "Sex" = Some (VStr sex)
  /\ dict_get row "Age" = Some (VInt age).
Proof.
  unfold generate_lab_results_seeded. intros H.
  destruct (match rng_seed with Some k => seed seeded k | None => Ok s end)
    as [s0 | e]; [| discriminate].
  cbn [bind] in H.
  destruct (generate_lab_results_exact g sex age (get lifestyle []) _ _ _ _ _ _ H)
    as (profile & results & fbc_panel & _ & _ & ->).
  rewrite !populate_keeps_plain by reflexivity.
  destruct (initial_row_patient sex age cond
              (dedupe [] (all_columns profile (keys profile) fbc_panel)))
    as (A & B & C).
  auto.
Qed.

Lemma cohort_rows_spec (profiles : Profiles) (conditions sex_choices : list string)
    (age_range : list Z) (lifestyle_choices : list (option (list string)))
    (missing_panel_prob : Q) (rng_seed : option Z) (remaining : nat) :
  forall (i : Z) (s s' : St) (rows : list Row),
    cohort_rows g seeded profiles conditions sex_choices age_range
      lifestyle_choices missing_panel_prob rng_seed remaining i s
    = COk (rows, s') ->
    length rows = remaining
    /\ forall (j : nat) (row : Row),
         nth_error rows j = Some row ->
         generated_for g seeded profiles conditions sex_choices age_range
           lifestyle_choices missing_panel_prob
           (row_seed rng_seed (i + Z.of_nat j)) row.
Proof.
  induction remaining as [| remaining IH]; intros i s s' rows H;
    cbn [cohort_rows] in H.
  - injection H as <- <-. split; [reflexivity |].
    intros [| j] row Hr; discriminate Hr.
  - destruct (choice_of g "" conditions s) as [[cond s1] | e] eqn:C1;
      [| discriminate].
    cbn [cbind] in H.
    destruct (choice_of g "" sex_choices s1) as [[sex s2] | e] eqn:C2;
      [| discriminate].
    cbn [cbind] in H.
    destruct (index age_range 0) as [lo | e] eqn:I0; [| discriminate].
    cbn [cbind] in H.
    destruct (index age_range 1) as [hi | e] eqn:I1; [| discriminate].
    cbn [cbind] in H.
    destruct (randint g lo hi s2) as [[age s3] | e] eqn:RI; [| discriminate].
    cbn [cbind] in H.
    destruct (choice_of g None lifestyle_choices s3) as [[lifestyle s4] | e]
      eqn:C3; [| discriminate].
    cbn [cbind] in H.
    destruct (generate_lab_results_seeded g seeded cond sex age lifestyle
                profiles missing_panel_prob _ s4) as [[row0 s5] | e] eqn:G;
      [| discriminate].
    cbn [lift cbind] in H.
    destruct (cohort_rows g seeded profiles conditions sex_choices age_range
                lifestyle_choices missing_panel_prob rng_seed remaining
                (i + 1)%Z s5) as [[rows' s6] | e] eqn:CR; [| discriminate].
    cbn [cbind] in H. injection H as <- <-.
    destruct (IH _ _ _ _ CR) as [L R].
    split; [simpl; rewrite L; reflexivity |].
    intros [| j] row Hr; cbn [nth_error] in Hr.
    + injection Hr as <-.
      replace (i + Z.of_nat 0)%Z with i by lia.
      destruct (seeded_row_patient _ _ _ _ _ _ _ _ _ _ G) as (P1 & P2 & P3).
      exists cond, sex, age, lo, hi, lifestyle, s4, s5.
      repeat split;
        eauto using choice_of_In, index_nth_error;
        apply (randint_range _ _ _ _ _ RI).
    + replace (i + Z.of_nat (S j))%Z with (i + 1 + Z.of_nat j)%Z by lia.
      apply (R j row Hr).
Qed.

(** X19.  A cohort that is returned has exactly [n] rows, and [n] is not 0:
    for [n = 0] the concatenation of no rows raises. *)
Theorem cohort_has_n_rows (n : nat) (profiles : Profiles)
    (condition_sampler sex_choices : option (list string))
    (age_range : option (list Z))
    (lifestyle_choices : option (list (option (list string))))
    (missing_panel_prob : Q) (rng_seed : option Z) (s s' : St)
    (rows : list Row) :
  generate_cohort g seeded n profiles condition_sampler sex_choices age_range
    lifestyle_choices missing_panel_prob rng_seed s = COk (rows, s') ->
  length rows = n /\ (0 < n)%nat.
Proof.
  unfold generate_cohort. intros H.
  destruct (cohort_rows g seeded profiles _ _ _ _ missing_panel_prob rng_seed
              n 0%Z s) as [[rows0 s1] | e] eqn:CR; [| discriminate].
  cbn [cbind] in H.
  destruct (cohort_rows_spec _ _ _ _ _ _ _ _ _ _ _ _ CR) as [L _].
  destruct rows0 as [| row rows0]; [discriminate |].
  cbn [concat cbind] in H. injection H as <- <-.
  split; [exact L | simpl in L; lia].
Qed.

(** X20.  Every row of a cohort is a row of [generate_lab_results] for a
    patient drawn from the effective choices (condition, sex, an age inside
    the range, a lifestyle), generated under the seed [rng_seed + j] for
    the row of position [j] (unseeded when no seed is given), and carrying
    the drawn condition, sex and age in its patient columns. *)
Theorem cohort_rows_are_generated_for_drawn_patients (n : nat)
    (profiles : Profiles) (condition_sampler sex_choices : option (list string))
    (age_range : option (list Z))
    (lifestyle_choices : option (list (option (list string))))
    (missing_panel_prob : Q) (rng_seed : option Z) (s s' : St)
    (rows : list Row) (j : nat) (row : Row) :
  generate_cohort g seeded n profiles condition_sampler sex_choices age_range
    lifestyle_choices missing_panel_prob rng_seed s = COk (rows, s') ->
  nth_error rows j = Some row ->
  generated_for g seeded profiles
    (or_default condition_sampler (keys profiles))
    (or_default sex_choices default_sex_choices)
    (or_default age_range default_age_range)
    (or_default lifestyle_choices default_lifestyle_choices)
    missing_panel_prob (row_seed rng_seed (Z.of_nat j)) row.
Proof.
  unfold generate_cohort. intros H Hr.
  destruct (cohort_rows g seeded profiles _ _ _ _ missing_panel_prob rng_seed
              n 0%Z s) as [[rows0 s1] | e] eqn:CR; [| discriminate].
  cbn [cbind] in H.
  destruct (cohort_rows_spec _ _ _ _ _ _ _ _ _ _ _ _ CR) as [_ R].
  destruct rows0 as [| row0 rows0]; [discriminate |].
  cbn [concat cbind] in H. injection H as <- <-.
  apply (R j row Hr).
Qed.

(** X21.  With the default choices, every row of a cohort has one of the
    sexes "male", "female", "non-binary" under "Sex" and an age from 20 to
    85 under "Age". *)
Theorem default_cohort_patients (n : nat) (profiles : Profiles)
    (condition_sampler : option (list string)) (missing_panel_prob : Q)
    (rng_seed : option Z) (s s' : St) (rows : list Row) (row : Row) :
  generate_cohort g seeded n profiles condition_sampler None None None
    missing_panel_prob rng_seed s = COk (rows, s') ->
  In row rows ->
  exists (sex : string) (age : Z),
    dict_get row "Sex" = Some (VStr sex)
    /\ In sex ["male"; "female"; "non-binary"]
    /\ dict_get row "Age" = Some (VInt age)
    /\ (20 <= age <= 85)%Z.
Proof.
  unfold generate_cohort. intros H Hin.
  destruct (cohort_rows g seeded profiles _ _ _ _ missing_panel_prob rng_seed
              n 0%Z s) as [[rows0 s1] | e] eqn:CR; [| discriminate].
  cbn [cbind] in H.
  destruct (cohort_rows_spec _ _ _ _ _ _ _ _ _ _ _ _ CR) as [_ R].
  destruct rows0 as [| row0 rows0]; [discriminate |].
  cbn [concat cbind] in H. injection H as <- <-.
  apply In_nth_error in Hin. destruct Hin as [j Hj].
  destruct (R j row Hj)
    as (cond & sex & age & lo & hi & lifestyle & s2 & s3 & _ & Hs & Hlo & Hhi
        & Hage & _ & _ & _ & P2 & P3).
  cbn in Hlo, Hhi. injection Hlo as <-. injection Hhi as <-.
  exists sex, age. auto.
Qed.

(** X22.  [get_random_condition] returns a condition of the profiles, one
    that [generate_lab_results] finds; it fails only on empty profiles, with
    the [IndexError] of the empty choice. *)
Theorem random_condition_is_a_profile_key (disease_profiles : Profiles)
    (s : St) :
  match get_random_condition g disease_profiles s with
  | COk (condition, _) =>
      exists profile, dict_get disease_profiles condition = Some profile
  | CRaise e =>
      disease_profiles = []
      /\ e = IndexError "Cannot choose from an empty sequence"
  end.
Proof.
  unfold get_random_condition.
  destruct (choice_of g "" (keys disease_profiles) s) as [[c s1] | e] eqn:C.
  - apply choice_of_In in C. apply dict_mem_In in C. unfold dict_mem in C.
    destruct (dict_get disease_profiles c) as [profile |]; [| discriminate].
    exists profile. reflexivity.
  - unfold choice_of in C. destruct disease_profiles as [| [k v] rest].
    + injection C as <-. auto.
    + discriminate C.
Qed.

End CohortProperties.

Lemma cohort_has_n_rows_witness :
  length sepsis_cohort = 2%nat /\ (0 < 2)%nat.
Proof.
  apply (cohort_has_n_rows keeping_generator tape_seeded 2 sepsis_profiles
           None None None None 0.14 (Some 7%Z) O 84%nat sepsis_cohort).
  vm_compute. reflexivity.
Defined.

Lemma cohort_rows_are_generated_for_drawn_patients_witness :
  exists row : Row,
    nth_error sepsis_cohort 1 = Some row
    /\ generated_for keeping_generator tape_seeded sepsis_profiles
         ["Sepsis"] default_sex_choices default_age_range
         default_lifestyle_choices 0.14 (Some 8%Z) row.
Proof.
  eexists. split; [reflexivity |].
  apply (cohort_rows_are_generated_for_drawn_patients keeping_generator
           tape_seeded 2 sepsis_profiles None None None None 0.14 (Some 7%Z)
           O 84%nat sepsis_cohort 1).
  - vm_compute. reflexivity.
  - reflexivity.
Defined.

Lemma default_cohort_patients_witness :
  exists (row : Row) (sex : string) (age : Z),
    nth_error sepsis_cohort 0 = Some row
    /\ dict_get row "Sex" = Some (VStr sex)
    /\ In sex ["male"; "female"; "non-binary"]
    /\ dict_get row "Age" = Some (VInt age)
    /\ (20 <= age <= 85)%Z.
Proof.
  eexists.
  destruct (default_cohort_patients keeping_generator tape_seeded 2
              sepsis_profiles None 0.14 (Some 7%Z) O 84%nat sepsis_cohort
              (nth 0 sepsis_cohort []))
    as (sex & age & H); [vm_compute; reflexivity | left; reflexivity |].
  exists sex, age. split; [reflexivity | exact H].
Defined.

(** * Further properties of the sampler, the omission and the differential *)

Lemma rint_close (x : Q) :
  - (1 # 2) <= inject_Z (rint x) - x <= 1 # 2.
Proof.
  pose proof (Qfloor_le x) as L. pose proof (Qlt_floor x) as U.
  rewrite inject_Z_plus in U. change (inject_Z 1) with 1 in U.
  unfold rint.
  destruct (Qcompare (x - inject_Z (Qfloor x)) (1 # 2)) eqn:C;
    [rewrite <- Qeq_alt in C | rewrite <- Qlt_alt in C | rewrite <- Qgt_alt in C].
  - destruct (Z.even (Qfloor x)).
    + lra.
    + rewrite inject_Z_plus. change (inject_Z 1) with 1. lra.
  - lra.
  - rewrite inject_Z_plus. change (inject_Z 1) with 1. lra.
Qed.

Lemma round2_close (x : Q) : - 0.005 <= round2 x - x <= 0.005.
Proof.
  pose proof (rint_close (x * 100)) as H. unfold round2.
  set (r := inject_Z (rint (x * 100))) in *.
  assert (E : r / 100 == r * (1 # 100)) by (unfold Qdiv; reflexivity).
  rewrite E. lra.
Qed.

Lemma round2_comp (x y : Q) : x == y -> round2 x = round2 y.
Proof.
  intros H. unfold round2. rewrite (rint_comp (x * 100) (y * 100)).
  - reflexivity.
  - rewrite H. reflexivity.
Qed.

Lemma set_differential_get_pct (d : PanelOut) (p1 p2 p3 p4 p5 a1 a2 a3 a4 a5 : Q) :
  let post := set_differential diff_names [p1; p2; p3; p4; p5]
                [a1; a2; a3; a4; a5] d in
  dict_get post (pct_key "Neutrophils") = Some (VFloat (round2 (p1 * 100)))
  /\ dict_get post (pct_key "Lymphocytes") = Some (VFloat (round2 (p2 * 100)))
  /\ dict_get post (pct_key "Monocytes") = Some (VFloat (round2 (p3 * 100)))
  /\ dict_get post (pct_key "Eosinophils") = Some (VFloat (round2 (p4 * 100)))
  /\ dict_get post (pct_key "Basophils") = Some (VFloat (round2 (p5 * 100))).
Proof.
  unfold diff_names. cbn [set_differential].
  repeat split; rewrite !dict_get_set; reflexivity.
Qed.

Section Edges.

Context {St : Type} (g : Generator St).

(** X23.  Bounds given in the wrong order are not rejected: with both
    bounds present and [max < min], every value returned is the rounding of
    [max], whatever was drawn. *)
Theorem inverted_bounds_return_max (params : Params) (lo hi v : Q)
    (s s' : St) :
  min_bound params = Some lo ->
  max_bound params = Some hi ->
  hi < lo ->
  sample_value g params s = Ok (v, s') ->
  v = round2 hi.
Proof.
  intros Hlo Hhi Hlt H.
  destruct (sample_value_inv g params s s' v H) as [d ->].
  rewrite Hlo, Hhi. apply round2_comp. unfold clip.
  apply Q.min_r. pose proof (Q.le_max_r d lo). lra.
Qed.

(** X24.  The omission step fails only for a condition of fewer than two
    panels: with two panels or more it always returns, and when it raises,
    the draw of [random.random()] was below [missing_panel_prob] and the
    error is the [ValueError] of [random.sample]. *)
Theorem omission_fails_only_below_two_panels (panel_names : list string)
    (missing_panel_prob : Q) (s : St) :
  match choose_panels_to_skip g panel_names missing_panel_prob s with
  | Ok _ => True
  | Raise e =>
      (length panel_names < 2)%nat
      /\ fst (py_random g s) < missing_panel_prob
      /\ e = ValueError "Sample larger than population or is negative"
  end.
Proof.
  unfold choose_panels_to_skip.
  destruct (py_random g s) as [u s0]. cbn [fst].
  destruct (Qlt_le_dec u missing_panel_prob) as [Hlt | Hge]; [| exact I].
  unfold choice.
  pose proof (randbelow_lt g 2 s0 ltac:(lia)) as Hj.
  change (length [1%nat; 2%nat]) with 2%nat.
  destruct (randbelow g 2 s0) as [j s2]. cbn [fst] in Hj.
  unfold sample.
  assert (Hnum : (nth j [1%nat; 2%nat] 1 <= 2)%nat)
    by (destruct j as [| [| j]]; simpl; lia).
  destruct (Nat.leb_spec (nth j [1%nat; 2%nat] 1%nat) (length panel_names))
    as [Hk | Hk]; [exact I |].
  repeat split; [lia | exact Hlt].
Qed.


(** X26.  The percentages of the differential are rounded one by one and
    not reconciled: when the sampled proportions add up to 1, the five
    percentages stored add up to 100 within 0.025. *)
Theorem differential_percentages_near_100 (pre post : PanelOut)
    (k : string) (total : Q) (props : list Q) (s s' s1 : St) :
  find_wbc_key pre = Some k ->
  dict_get pre k = Some (VFloat total) ->
  add_differential g pre s = Ok (post, s') ->
  dirichlet g (map (fun p => p * 50) (base_props_of pre)) s = Ok (props, s1) ->
  Qsum props == 1 ->
  exists x1 x2 x3 x4 x5 : Q,
    dict_get post (pct_key "Neutrophils") = Some (VFloat x1)
    /\ dict_get post (pct_key "Lymphocytes") = Some (VFloat x2)
    /\ dict_get post (pct_key "Monocytes") = Some (VFloat x3)
    /\ dict_get post (pct_key "Eosinophils") = Some (VFloat x4)
    /\ dict_get post (pct_key "Basophils") = Some (VFloat x5)
    /\ - 0.025 <= x1 + x2 + x3 + x4 + x5 - 100 <= 0.025.
Proof.
  intros Hk Hv H D S.
  unfold add_differential in H. rewrite Hk, Hv in H.
  cbn [py_float bind] in H. rewrite D in H. cbn [bind] in H.
  destruct (dirichlet_five g _ _ _ _ D) as (p1 & p2 & p3 & p4 & p5 & ->).
  pose proof (reconcile_length [p1; p2; p3; p4; p5] total) as L.
  destruct (reconcile [p1; p2; p3; p4; p5] total)
    as [| a1 [| a2 [| a3 [| a4 [| a5 [| a6 rest]]]]]]; try discriminate L.
  destruct (set_differential_get_pct pre p1 p2 p3 p4 p5 a1 a2 a3 a4 a5)
    as (G1 & G2 & G3 & G4 & G5).
  assert (E : forall t, t <> "differential_props" ->
                dict_get post t
                = dict_get (set_differential diff_names [p1; p2; p3; p4; p5]
                              [a1; a2; a3; a4; a5] pre) t).
  { intros t Hn. destruct (dict_mem _ "differential_props");
      injection H as <- <-; [| reflexivity].
    apply dict_get_del_other. congruence. }
  exists (round2 (p1 * 100)), (round2 (p2 * 100)), (round2 (p3 * 100)),
         (round2 (p4 * 100)), (round2 (p5 * 100)).
  rewrite !E by discriminate.
  repeat (split; [assumption |]).
  pose proof (round2_close (p1 * 100)). pose proof (round2_close (p2 * 100)).
  pose proof (round2_close (p3 * 100)). pose proof (round2_close (p4 * 100)).
  pose proof (round2_close (p5 * 100)).
  unfold Qsum in S. simpl in S. lra.
Qed.

End Edges.

Lemma inverted_bounds_return_max_witness :
  exists v : Q,
    sample_value (constant_generator 3) (bare_params "normal" (Some 5) (Some 1)) O
      = Ok (v, 1%nat)
    /\ v = round2 1
    /\ v == 1.
Proof.
  exists (round2 1).
  split; [vm_compute; reflexivity |].
  split; [| vm_compute; reflexivity].
  apply (inverted_bounds_return_max (constant_generator 3)
           (bare_params "normal" (Some 5) (Some 1)) 5 1 (round2 1) O 1%nat).
  - reflexivity.
  - reflexivity.
  - reflexivity.
  - vm_compute. reflexivity.
Defined.


Lemma differential_percentages_near_100_witness :
  exists x1 x2 x3 x4 x5 : Q,
    dict_get counted_differential (pct_key "Neutrophils") = Some (VFloat x1)
    /\ dict_get counted_differential (pct_key "Lymphocytes") = Some (VFloat x2)
    /\ dict_get counted_differential (pct_key "Monocytes") = Some (VFloat x3)
    /\ dict_get counted_differential (pct_key "Eosinophils") = Some (VFloat x4)
    /\ dict_get counted_differential (pct_key "Basophils") = Some (VFloat x5)
    /\ - 0.025 <= x1 + x2 + x3 + x4 + x5 - 100 <= 0.025.
Proof.
  apply (differential_percentages_near_100 keeping_generator counted_vals
           counted_differential "WBC" 7.13 [0.5; 0.3; 0.1; 0.06; 0.04]
           O 1%nat 1%nat).
  - reflexivity.
  - reflexivity.
  - vm_compute. reflexivity.
  - vm_compute. reflexivity.
  - vm_compute. reflexivity.
Defined.
